(** * terraform-provider-aws: refresh functions, waiters, deletes, import and
      Lake Formation permission filtering

    A shallow embedding of

    - [internal/service/rds/cluster_endpoint.go]
    - the EFS status functions ([statusAccessPointLifeCycleState],
      [statusBackupPolicy], [statusFileSystemLifeCycleState])
    - [internal/service/cloudwatchevents/bus.go]
    - [internal/service/ec2/table_association.go]
    - [internal/service/lakeformation/filter.go]

    Go values are modelled as the code has them: a pointer is an [option], a
    slice is either nil or a backing list, a nil dereference or an index out
    of range is a run-time panic, and an SDK call is a value of the client
    record that the function receives. *)

From Stdlib Require Import ZArith String Ascii.
From stdpp Require Import base option list strings gmap sorting.

(* ================================================================== *)
(** * Part I: definitions *)
(* ================================================================== *)

(** ** The Go runtime and the helper libraries the files import *)

Module Go.

(** A function body either returns or panics (nil dereference, index out
    of range). *)
Inductive outcome (A : Type) : Type :=
| Ret (a : A)
| Panic.
Arguments Ret {A} a.
Arguments Panic {A}.

#[export] Instance outcome_ret : MRet outcome := fun A a => Ret a.
#[export] Instance outcome_bind : MBind outcome := fun A B k m =>
  match m with
  | Ret a => k a
  | Panic => Panic
  end.

(** [*T]: nil is [None]. *)
Abbreviation ptr := option (only parsing).

(** [*p] and [p.f]. *)
Definition deref {A} (p : ptr A) : outcome A :=
  match p with
  | Some a => Ret a
  | None => Panic
  end.

(** [[]T]: the nil slice is [None]; [Some []] is empty and not nil. *)
Definition slice (A : Type) : Type := option (list A).

(** [for _, x := range s]: the elements, none for the nil slice. *)
Definition range {A} (s : slice A) : list A := default [] s.

Definition len {A} (s : slice A) : nat := length (range s).

(** [s[i]]. *)
Definition index {A} (s : slice A) (i : nat) : outcome A :=
  match range s !! i with
  | Some x => Ret x
  | None => Panic
  end.

(** [time.Duration]: nanoseconds. *)
Definition Millisecond : Z := 1000000.
Definition Second : Z := 1000 * Millisecond.
Definition Minute : Z := 60 * Second.

(** [error] values, with the shapes the files build and test for. A
    formatted error keeps its format, its string operands and its error
    operand, if it has one; it wraps the operand exactly when the verb is
    [%w]. *)
#[warnings="-register-all"]
Inductive error : Type :=
| AwsError (code message : string)                  (* awserr.Error *)
| NotFoundError (retries : Z)                       (* *resource.NotFoundError *)
| UnexpectedStateError (state : string) (expected : list string)
| TimeoutError (lastState : string) (timeout : Z) (expected : list string)
| ErrorString (message : string)                    (* errors.New *)
| Errorf (format : string) (operands : list string) (err : option error).

(** [strings.Contains]. *)
Fixpoint Contains (s substr : string) : bool :=
  String.prefix substr s ||
  match s with
  | EmptyString => false
  | String _ s' => Contains s' substr
  end.

(** [errors.As(err, &awsErr)] with [awsErr awserr.Error]: the first AWS
    error of the chain, as (code, message). *)
Fixpoint asAwsErr (e : error) : option (string * string) :=
  match e with
  | AwsError code message => Some (code, message)
  | Errorf format _ (Some e') =>
      if Contains format "%w" then asAwsErr e' else None
  | _ => None
  end.

(** [errors.As(err, &notFound)] with [notFound *resource.NotFoundError]. *)
Fixpoint asNotFoundError (e : error) : option Z :=
  match e with
  | NotFoundError retries => Some retries
  | Errorf format _ (Some e') =>
      if Contains format "%w" then asNotFoundError e' else None
  | _ => None
  end.

(** [errors.Unwrap]: what [fmt.Errorf] wrapped with [%w]; nil for any other
    verb and any other error. *)
Definition Unwrap (e : error) : option error :=
  match e with
  | Errorf format _ (Some e') => if Contains format "%w" then Some e' else None
  | _ => None
  end.

(** The chain that [errors.Is] and [errors.As] walk: the error, what it
    unwraps to, and so on. *)
Fixpoint chain (e : error) : list error :=
  e :: match e with
       | Errorf format _ (Some e') => if Contains format "%w" then chain e' else []
       | _ => []
       end.

(** [outer] wraps [inner]: [inner] is on the chain of what [outer] unwraps
    to. *)
Definition Wraps (outer inner : error) : Prop :=
  ∃ e, Unwrap outer = Some e ∧ inner ∈ chain e.

(** [strings.Split(s, sep)] for a one-byte separator. *)
Fixpoint Split (s : string) (sep : ascii) : list string :=
  match s with
  | EmptyString => [EmptyString]
  | String c s' =>
      if Ascii.eqb c sep then EmptyString :: Split s' sep
      else match Split s' sep with
           | p :: ps => String c p :: ps
           | [] => [String c EmptyString]
           end
  end.

(** [aws.StringValue]. *)
Definition StringValue (p : ptr string) : string := default EmptyString p.

(** [aws.StringValueSlice]: always a fresh non-nil slice. *)
Definition StringValueSlice (s : slice (ptr string)) : list string :=
  StringValue <$> range s.

(** [tfawserr.ErrMessageContains]. *)
Definition ErrMessageContains (err : option error) (code message : string) : bool :=
  match err ≫= asAwsErr with
  | Some (c, m) => String.eqb c code && Contains m message
  | None => false
  end.

(** [tfawserr.ErrCodeEquals] with one code. *)
Definition ErrCodeEquals (err : option error) (code : string) : bool :=
  match err ≫= asAwsErr with
  | Some (c, _) => String.eqb c code
  | None => false
  end.

End Go.
Import Go.

(** ** [helper/resource]: [StateChangeConf] and [WaitForState]

    [cluster_endpoint.go] imports the plugin SDK's [helper/resource] and
    hands its [StateChangeConf] values to [WaitForState]. The loop below is
    that method, run against a virtual clock: a refresh takes no time, the
    deadline [Timeout] is checked where the method would block on a timer,
    and every timer that really elapses is recorded in [slept]. *)

Module Resource.

Section WithSnapshot.

(** What the refresh function puts in its [interface{}] result; a nil
    interface is [None]. *)
Context {T : Type}.

Definition RefreshResult : Type := option T * string * option error.

(** [StateRefreshFunc]: a closure over a client; the argument is the
    number of calls made before this one. *)
Definition StateRefreshFunc : Type := nat → outcome RefreshResult.

Record StateChangeConf : Type := {
  Delay : Z;
  Pending : list string;
  Refresh : StateRefreshFunc;
  Target : list string;
  Timeout : Z;
  MinTimeout : Z;
  PollInterval : Z;
  NotFoundChecks : Z;
  ContinuousTargetOccurence : Z
}.

(** A conf declares pending and target states and has no field for
    failure states: it declares none. *)
Definition Failure (conf : StateChangeConf) : list string := [].

(** What [WaitForState] returns, and what it did meanwhile. *)
Record Waited : Type := {
  result : option T;
  err : option error;
  slept : list Z;
  polls : nat
}.

(** A timer of duration [d]: only a positive one makes the caller wait. *)
Definition sleep (d : Z) (log : list Z) : list Z :=
  if (0 <? d)%Z then log ++ [d] else log.

(** [for _, allowed := range conf.Target]: (found, targetOccurence, done). *)
Fixpoint scanTarget (target : list string) (currentState : string)
    (continuous : Z) (found : bool) (targetOccurence : Z) : bool * Z * bool :=
  match target with
  | [] => (found, targetOccurence, false)
  | allowed :: rest =>
      if String.eqb currentState allowed then
        let targetOccurence := (targetOccurence + 1)%Z in
        if (continuous =? targetOccurence)%Z then (true, targetOccurence, true)
        else scanTarget rest currentState continuous true targetOccurence
      else scanTarget rest currentState continuous found targetOccurence
  end.

(** [for _, allowed := range conf.Pending]: (found, targetOccurence). *)
Definition scanPending (pending : list string) (currentState : string)
    (found : bool) (targetOccurence : Z) : bool * Z :=
  if existsb (String.eqb currentState) pending then (true, 0%Z)
  else (found, targetOccurence).

(** The end of the loop body: exponential backoff, bounded below by
    [MinTimeout] and above by ten seconds, unless [PollInterval] is set. *)
Definition nextWait (conf : StateChangeConf) (wait targetOccurence : Z) : Z :=
  let wait := if (targetOccurence =? 0)%Z then (wait * 2)%Z else wait in
  if (0 <? PollInterval conf)%Z && (PollInterval conf <? 180 * Second)%Z
  then PollInterval conf
  else if (wait <? MinTimeout conf)%Z then MinTimeout conf
  else if (10 * Second <? wait)%Z then (10 * Second)%Z
  else wait.

(** One pass of the loop body after the refresh returned. *)
Inductive verdict : Type :=
| Stop (res : option T) (e : option error)
| Again (notfoundTick targetOccurence : Z) (backoff : bool).

Definition judge (conf : StateChangeConf) (r : RefreshResult)
    (notfoundTick targetOccurence : Z) : verdict :=
  let '(res, currentState, e) := r in
  match e with
  | Some _ => Stop res e
  | None =>
      match res with
      | None =>
          if Nat.eqb (length (Target conf)) 0 then
            let targetOccurence := (targetOccurence + 1)%Z in
            if (ContinuousTargetOccurence conf =? targetOccurence)%Z
            then Stop res None
            else Again notfoundTick targetOccurence false
          else
            let notfoundTick := (notfoundTick + 1)%Z in
            if (NotFoundChecks conf <? notfoundTick)%Z
            then Stop res (Some (NotFoundError notfoundTick))
            else Again notfoundTick targetOccurence true
      | Some _ =>
          let '(found, targetOccurence, done) :=
            scanTarget (Target conf) currentState
              (ContinuousTargetOccurence conf) false targetOccurence in
          if done then Stop res None
          else
            let '(found, targetOccurence) :=
              scanPending (Pending conf) currentState found targetOccurence in
            if negb found && negb (Nat.eqb (length (Pending conf)) 0)
            then Stop res (Some (UnexpectedStateError currentState (Target conf)))
            else Again 0%Z targetOccurence true
      end
  end.

Definition timedOut (conf : StateChangeConf) (lastState : string)
    (log : list Z) (n : nat) : Waited :=
  {| result := None;
     err := Some (TimeoutError lastState (Timeout conf) (Target conf));
     slept := log;
     polls := n |}.

(** The refresh loop; [None] when [fuel] polls were not enough. *)
Fixpoint refreshLoop (fuel : nat) (conf : StateChangeConf) (n : nat)
    (clock wait notfoundTick targetOccurence : Z) (lastState : string)
    (log : list Z) : option (outcome Waited) :=
  match fuel with
  | O => None
  | S fuel =>
      if (Timeout conf <=? clock + wait)%Z
      then Some (Ret (timedOut conf lastState log n))
      else
        let log := sleep wait log in
        let clock := (clock + wait)%Z in
        let wait := if (wait =? 0)%Z then (100 * Millisecond)%Z else wait in
        match Refresh conf n with
        | Panic => Some Panic
        | Ret r =>
            match judge conf r notfoundTick targetOccurence with
            | Stop res e =>
                Some (Ret {| result := res; err := e; slept := log; polls := S n |})
            | Again notfoundTick targetOccurence backoff =>
                let wait := if backoff then nextWait conf wait targetOccurence
                            else wait in
                refreshLoop fuel conf (S n) clock wait notfoundTick
                  targetOccurence (r.1.2) log
            end
        end
  end.

(** The defaults [WaitForState] fills in before it starts. *)
Definition withDefaults (conf : StateChangeConf) : StateChangeConf :=
  {| Delay := Delay conf;
     Pending := Pending conf;
     Refresh := Refresh conf;
     Target := Target conf;
     Timeout := Timeout conf;
     MinTimeout := MinTimeout conf;
     PollInterval := PollInterval conf;
     NotFoundChecks :=
       if (NotFoundChecks conf =? 0)%Z then 20%Z else NotFoundChecks conf;
     ContinuousTargetOccurence :=
       if (ContinuousTargetOccurence conf =? 0)%Z then 1%Z
       else ContinuousTargetOccurence conf |}.

(** [conf.WaitForState()]: wait [Delay], then poll without a wait the
    first time. *)
Definition WaitForState (fuel : nat) (conf : StateChangeConf)
    : option (outcome Waited) :=
  let conf := withDefaults conf in
  let delay := Z.max 0 (Delay conf) in
  if (Timeout conf <=? delay)%Z
  then Some (Ret (timedOut conf EmptyString [] 0))
  else refreshLoop fuel conf 0 delay 0 0 0 EmptyString (sleep (Delay conf) []).

End WithSnapshot.

Arguments RefreshResult : clear implicits.
Arguments StateRefreshFunc : clear implicits.
Arguments StateChangeConf : clear implicits.
Arguments Waited : clear implicits.

End Resource.

(** ** [helper/schema]: the part of [ResourceData] the files use *)

Module Schema.

Definition TimeoutCreate : string := "create".
Definition TimeoutRead : string := "read".
Definition TimeoutUpdate : string := "update".
Definition TimeoutDelete : string := "delete".

Record ResourceTimeout : Type := {
  Create : ptr Z;
  Read : ptr Z;
  Update : ptr Z;
  Delete : ptr Z;
  Default : ptr Z
}.

(** The resource ID, the attributes written with [d.Set], and the
    timeouts decoded from the configuration. *)
Record ResourceData : Type := {
  id : string;
  attrs : gmap string string;
  timeouts : ptr ResourceTimeout
}.

Definition Id (d : ResourceData) : string := id d.

Definition SetId (v : string) (d : ResourceData) : ResourceData :=
  {| id := v; attrs := attrs d; timeouts := timeouts d |}.

(** [d.Set(key, value)] ([Set] is reserved). *)
Definition Set_ (key value : string) (d : ResourceData) : ResourceData :=
  {| id := id d; attrs := <[key := value]> (attrs d); timeouts := timeouts d |}.

(** [d.Timeout(key)] for the (lower-case) key constants above: the
    operation's timeout, else the configured default, else 20 minutes. *)
Definition Timeout (d : ResourceData) (key : string) : Z :=
  let defaultTimeout := (20 * Minute)%Z in
  match timeouts d with
  | None => defaultTimeout
  | Some t =>
      let timeout :=
        if String.eqb key TimeoutCreate then Create t
        else if String.eqb key TimeoutRead then Read t
        else if String.eqb key TimeoutUpdate then Update t
        else if String.eqb key TimeoutDelete then Delete t
        else None in
      match timeout with
      | Some v => v
      | None => default defaultTimeout (Default t)
      end
  end.

End Schema.

(** ** [internal/service/rds/cluster_endpoint.go] *)

Module RDS.
Import Resource.

Definition AWSRDSClusterEndpointCreateTimeout : Z := 30 * Minute.
Definition AWSRDSClusterEndpointRetryDelay : Z := 5 * Second.
Definition AWSRDSClusterEndpointRetryMinTimeout : Z := 3 * Second.

(** [rds.ErrCodeDBClusterNotFoundFault]. *)
Definition ErrCodeDBClusterNotFoundFault : string := "DBClusterNotFoundFault".

Record DBClusterEndpoint : Type := {
  DBClusterEndpointIdentifier : ptr string;
  DBClusterIdentifier : ptr string;
  Endpoint : ptr string;
  Status : ptr string
}.

Record DescribeDBClusterEndpointsOutput : Type := {
  DBClusterEndpoints : slice (ptr DBClusterEndpoint);
  Marker : ptr string
}.

(** [&rds.DescribeDBClusterEndpointsOutput{}]. *)
Definition emptyResp : DescribeDBClusterEndpointsOutput :=
  {| DBClusterEndpoints := None; Marker := None |}.

(** The client. The first argument of [DescribeDBClusterEndpoints] counts
    the earlier calls: the service answers differently as time passes. *)
Record Conn : Type := {
  DescribeDBClusterEndpoints :
    nat → string → ptr DescribeDBClusterEndpointsOutput * option error;
  DeleteDBClusterEndpoint : string → option error
}.

(** What the refresh function returns as [interface{}]. *)
Inductive snapshot : Type :=
| OfOutput (o : DescribeDBClusterEndpointsOutput)
| OfEndpoint (e : DBClusterEndpoint).

Definition DBClusterEndpointStateRefreshFunc (conn : Conn) (id : string)
    : StateRefreshFunc snapshot := fun n =>
  let '(resp, err) := DescribeDBClusterEndpoints conn n id in
  match err with
  | Some e =>
      if ErrMessageContains err ErrCodeDBClusterNotFoundFault ""
      then Ret (Some (OfOutput emptyResp), "destroyed", None)
      else if match resp with
              | Some r => Nat.eqb (len (DBClusterEndpoints r)) 0
              | None => false
              end
      then Ret (Some (OfOutput emptyResp), "destroyed", None)
      else Ret (Some (OfOutput emptyResp), "",
                Some (Errorf "Error on refresh: %+v" [] err))
  | None =>
      match resp with
      | None => Ret (Some (OfOutput emptyResp), "destroyed", None)
      | Some r =>
          if bool_decide (DBClusterEndpoints r = None)
             || Nat.eqb (len (DBClusterEndpoints r)) 0
          then Ret (Some (OfOutput emptyResp), "destroyed", None)
          else
            p ← index (DBClusterEndpoints r) 0;
            e ← deref p;
            status ← deref (Status e);
            Ret (Some (OfEndpoint e), status, None)
      end
  end.

(** The [stateConf] literal of [resourceAwsRDSClusterEndpointWaitForDestroy]. *)
Definition destroyStateConf (timeout : Z) (id : string) (conn : Conn)
    : StateChangeConf snapshot :=
  {| Pending := ["available"; "deleting"];
     Target := ["destroyed"];
     Refresh := DBClusterEndpointStateRefreshFunc conn id;
     Timeout := timeout;
     Delay := AWSRDSClusterEndpointRetryDelay;
     MinTimeout := AWSRDSClusterEndpointRetryMinTimeout;
     PollInterval := 0;
     NotFoundChecks := 0;
     ContinuousTargetOccurence := 0 |}.

(** The [stateConf] literal of [resourceAwsRDSClusterEndpointWaitForAvailable]. *)
Definition availableStateConf (timeout : Z) (id : string) (conn : Conn)
    : StateChangeConf snapshot :=
  {| Pending := ["creating"];
     Target := ["available"];
     Refresh := DBClusterEndpointStateRefreshFunc conn id;
     Timeout := timeout;
     Delay := AWSRDSClusterEndpointRetryDelay;
     MinTimeout := AWSRDSClusterEndpointRetryMinTimeout;
     PollInterval := 0;
     NotFoundChecks := 0;
     ContinuousTargetOccurence := 0 |}.

(** A waiter returns its error and, here, the timers it sat through. *)
Definition waitWith (format : string) (id : string)
    (w : option (outcome (Waited snapshot))) : option (outcome (option error * list Z)) :=
  o ← w;
  Some (r ← o;
        Ret (match err r with
             | Some e => Some (Errorf format [id] (Some e))
             | None => None
             end, slept r)).

Definition resourceAwsRDSClusterEndpointWaitForDestroy (fuel : nat)
    (timeout : Z) (id : string) (conn : Conn) :=
  waitWith "Error waiting for RDS Cluster Endpoint (%s) to be deleted: %v" id
    (WaitForState fuel (destroyStateConf timeout id conn)).

Definition resourceAwsRDSClusterEndpointWaitForAvailable (fuel : nat)
    (timeout : Z) (id : string) (conn : Conn) :=
  waitWith "Error waiting for RDS Cluster Endpoint (%s) to be ready: %v" id
    (WaitForState fuel (availableStateConf timeout id conn)).

(** The wait that [resourceAwsRDSClusterEndpointCreate] starts once the
    endpoint is created and the ID is set. *)
Definition createWait (fuel : nat) (d : Schema.ResourceData) (conn : Conn) :=
  resourceAwsRDSClusterEndpointWaitForAvailable fuel
    AWSRDSClusterEndpointCreateTimeout (Schema.Id d) conn.

Definition resourceAwsRDSClusterEndpointDelete (fuel : nat)
    (d : Schema.ResourceData) (conn : Conn)
    : option (outcome (option error * list Z)) :=
  match DeleteDBClusterEndpoint conn (Schema.Id d) with
  | Some e =>
      Some (Ret (Some (Errorf "Error deleting RDS Cluster Endpoint: %s" [] (Some e)), []))
  | None =>
      resourceAwsRDSClusterEndpointWaitForDestroy fuel
        (Schema.Timeout d Schema.TimeoutDelete) (Schema.Id d) conn
  end.

End RDS.

(** ** The EFS status functions *)

Module EFS.
Import Resource.

Record AccessPointDescription : Type := {
  AccessPointId : ptr string;
  AccessPointLifeCycleState : ptr string   (* LifeCycleState *)
}.

Record DescribeAccessPointsOutput : Type := {
  AccessPoints : slice (ptr AccessPointDescription)
}.

Record FileSystemDescription : Type := {
  FileSystemId : ptr string;
  FileSystemLifeCycleState : ptr string    (* LifeCycleState *)
}.

Record DescribeFileSystemsOutput : Type := {
  FileSystems : slice (ptr FileSystemDescription)
}.

Record BackupPolicy : Type := {
  Status : ptr string
}.

Record Conn : Type := {
  DescribeAccessPoints : string → ptr DescribeAccessPointsOutput * option error;
  DescribeFileSystems : string → ptr DescribeFileSystemsOutput * option error
}.

Definition statusAccessPointLifeCycleState (conn : Conn) (accessPointId : string)
    : outcome (RefreshResult AccessPointDescription) :=
  let '(output, err) := DescribeAccessPoints conn accessPointId in
  match err with
  | Some _ => Ret (None, "", err)
  | None =>
      match output with
      | None => Ret (None, "", None)
      | Some o =>
          if Nat.eqb (len (AccessPoints o)) 0 then Ret (None, "", None)
          else
            p ← index (AccessPoints o) 0;
            match p with
            | None => Ret (None, "", None)
            | Some mt =>
                Ret (Some mt, StringValue (AccessPointLifeCycleState mt), None)
            end
      end
  end.

Definition statusFileSystemLifeCycleState (conn : Conn) (fileSystemID : string)
    : outcome (RefreshResult FileSystemDescription) :=
  let '(output, err) := DescribeFileSystems conn fileSystemID in
  match err with
  | Some _ => Ret (None, "", err)
  | None =>
      match output with
      | None => Ret (None, "", None)
      | Some o =>
          if Nat.eqb (len (FileSystems o)) 0 then Ret (None, "", None)
          else
            p ← index (FileSystems o) 0;
            match p with
            | None => Ret (None, "", None)
            | Some mt =>
                Ret (Some mt, StringValue (FileSystemLifeCycleState mt), None)
            end
      end
  end.

Section Finder.

(** The package's finder and [tfresource.NotFound]: their files are not
    among the sources, so the status function takes them as given. *)
Variable findBackupPolicyByID : Conn → string → ptr BackupPolicy * option error.
Variable NotFound : option error → bool.

Definition statusBackupPolicy (conn : Conn) (id : string)
    : outcome (RefreshResult BackupPolicy) :=
  let '(output, err) := findBackupPolicyByID conn id in
  if NotFound err then Ret (None, "", None)
  else match err with
       | Some _ => Ret (None, "", err)
       | None =>
           o ← deref output;
           Ret (Some o, StringValue (Status o), None)
       end.

End Finder.

End EFS.

(** ** [internal/service/cloudwatchevents/bus.go] *)

Module CloudWatchEvents.

(** [events.ErrCodeResourceNotFoundException]. *)
Definition ErrCodeResourceNotFoundException : string := "ResourceNotFoundException".

Record Conn : Type := {
  DeleteEventBus : string → option error
}.

Definition resourceAwsCloudWatchEventBusDelete (d : Schema.ResourceData)
    (conn : Conn) : option error :=
  let err := DeleteEventBus conn (Schema.Id d) in
  if ErrMessageContains err ErrCodeResourceNotFoundException "" then None
  else match err with
       | Some _ =>
           Some (Errorf "Error deleting CloudWatch Events event bus (%s): %w"
                   [Schema.Id d] err)
       | None => None
       end.

End CloudWatchEvents.

(** ** [internal/service/ec2/table_association.go] *)

Module EC2.

Record RouteTableAssociation : Type := {
  GatewayId : ptr string;
  RouteTableAssociationId : ptr string;
  RouteTableId : ptr string;
  SubnetId : ptr string
}.

Record RouteTable : Type := {
  Associations : slice (ptr RouteTableAssociation)
}.

Record Conn : Type := {
  DisassociateRouteTable : string → option error
}.

(** One pass of the [for ... range routeTable.Associations] loop of the
    importer: the resource data and [associationID] when the loop ends. *)
Fixpoint importLoop (associations : list (ptr RouteTableAssociation))
    (targetID : string) (d : Schema.ResourceData)
    : outcome (Schema.ResourceData * string) :=
  match associations with
  | [] => Ret (d, EmptyString)
  | p :: rest =>
      association ← deref p;
      if String.eqb (StringValue (SubnetId association)) targetID then
        Ret (Schema.Set_ "subnet_id" targetID d,
             StringValue (RouteTableAssociationId association))
      else if String.eqb (StringValue (GatewayId association)) targetID then
        Ret (Schema.Set_ "gateway_id" targetID d,
             StringValue (RouteTableAssociationId association))
      else importLoop rest targetID d
  end.

Section Package.

(** Declared in files of the package that are not among the sources: the
    error code constant, the finder and the deletion waiter. *)
Variable errCodeInvalidAssociationIDNotFound : string.
Variable findRouteTableByID : Conn → string → ptr RouteTable * option error.
Variable waitRouteTableAssociationDeleted : Conn → string → option error.

(** The importer changes [d] in place and returns the list of resource
    data with the error: the result is [d] afterwards, the list, the
    error. *)
Definition resourceAwsRouteTableAssociationImport (d : Schema.ResourceData)
    (conn : Conn)
    : outcome (Schema.ResourceData * slice Schema.ResourceData * option error) :=
  match Split (Schema.Id d) "/" with
  | [targetID; routeTableID] =>
      let '(routeTable, err) := findRouteTableByID conn routeTableID in
      match err with
      | Some _ => Ret (d, None, err)
      | None =>
          rt ← deref routeTable;
          '(d, associationID) ← importLoop (range (Associations rt)) targetID d;
          if String.eqb associationID "" then
            Ret (d, None,
                 Some (Errorf
                   "No association found between route table ID %s and target ID %s"
                   [routeTableID; targetID] None))
          else
            let d := Schema.SetId associationID d in
            let d := Schema.Set_ "route_table_id" routeTableID d in
            Ret (d, Some [d], None)
      end
  | _ =>
      Ret (d, Some [],
           Some (Errorf
             "Unexpected format for import: %s. Use 'subnet ID/route table ID' or 'gateway ID/route table ID"
             [Schema.Id d] None))
  end.

(** [ec2RouteTableAssociationDelete] attempts to delete a route table
    association. *)
Definition ec2RouteTableAssociationDelete (conn : Conn) (associationID : string)
    : option error :=
  let err := DisassociateRouteTable conn associationID in
  if ErrCodeEquals err errCodeInvalidAssociationIDNotFound then None
  else match err with
       | Some _ =>
           Some (Errorf "error deleting Route Table Association (%s): %w"
                   [associationID] err)
       | None =>
           match waitRouteTableAssociationDeleted conn associationID with
           | Some e =>
               Some (Errorf "error waiting for Route Table Association (%s) delete: %w"
                       [associationID] (Some e))
           | None => None
           end
       end.

Definition resourceAwsRouteTableAssociationDelete (d : Schema.ResourceData)
    (conn : Conn) : option error :=
  ec2RouteTableAssociationDelete conn (Schema.Id d).

End Package.

End EC2.

(** ** [sort.Strings] *)

Module Sort.

(** Go compares strings byte by byte. *)
Definition string_le (x y : string) : Prop := String.leb x y.

#[export] Instance string_le_dec x y : Decision (string_le x y).
Proof. unfold string_le. apply _. Defined.

(** [sort.Strings] sorts in increasing order. Equal strings cannot be told
    apart, so every sorting algorithm yields the same slice; here it is a
    merge sort. *)
Definition Strings (l : list string) : list string := merge_sort string_le l.

End Sort.

(** ** [internal/service/lakeformation/filter.go] *)

Module LakeFormation.

(** [lakeformation.PermissionSelect]. *)
Definition PermissionSelect : string := "SELECT".

Record DataLakePrincipal : Type := {
  DataLakePrincipalIdentifier : ptr string
}.

Record CatalogResource : Type := {}.

Record TableWildcard : Type := {}.

Module DataLocationResource.
Record t : Type := { CatalogId : ptr string; ResourceArn : ptr string }.
End DataLocationResource.

Module DatabaseResource.
Record t : Type := { CatalogId : ptr string; Name : ptr string }.
End DatabaseResource.

Module TableResource.
Record t : Type := {
  CatalogId : ptr string;
  DatabaseName : ptr string;
  Name : ptr string;
  TableWildcard : ptr LakeFormation.TableWildcard
}.
End TableResource.

Record ColumnWildcard : Type := {
  ExcludedColumnNames : slice (ptr string)
}.

Module TableWithColumnsResource.
Record t : Type := {
  CatalogId : ptr string;
  ColumnNames : slice (ptr string);
  ColumnWildcard : ptr LakeFormation.ColumnWildcard;
  DatabaseName : ptr string;
  Name : ptr string
}.
End TableWithColumnsResource.

Module Resource.
Record t : Type := {
  Catalog : ptr CatalogResource;
  DataLocation : ptr DataLocationResource.t;
  Database : ptr DatabaseResource.t;
  Table : ptr TableResource.t;
  TableWithColumns : ptr TableWithColumnsResource.t
}.
End Resource.

Module PrincipalResourcePermissions.
Record t : Type := {
  Permissions : slice (ptr string);
  PermissionsWithGrantOption : slice (ptr string);
  Principal : ptr DataLakePrincipal;
  Resource : ptr Resource.t
}.
End PrincipalResourcePermissions.

Module ListPermissionsInput.
Record t : Type := {
  CatalogId : ptr string;
  Principal : ptr DataLakePrincipal;
  Resource : ptr Resource.t
}.
End ListPermissionsInput.

Abbreviation perms := (list (ptr PrincipalResourcePermissions.t)) (only parsing).

(** [append(s, x)]. *)
Definition append {A} (s : slice A) (x : A) : slice A := Some (range s ++ [x]).

(** [p != nil]. *)
Definition notNil {A} (p : option A) : bool := bool_decide (is_Some p).

(** [len(s) > 0 && aws.StringValue(s[0]) == v]. *)
Definition firstIs (s : slice (ptr string)) (v : string) : bool :=
  match range s with
  | x :: _ => String.eqb (StringValue x) v
  | [] => false
  end.

Definition stringSlicesEqualIgnoreOrder (s1 s2 : slice (ptr string)) : bool :=
  if negb (Nat.eqb (len s1) (len s2)) then false
  else
    let v1 := StringValueSlice s1 in
    let v2 := StringValueSlice s2 in
    let v1 := Sort.Strings v1 in
    let v2 := Sort.Strings v2 in
    bool_decide (v1 = v2).

(** The shape of the five loops: [keep perm] says whether the body appends
    [perm] to [cleanPermissions] before it moves on. *)
Fixpoint filterLoop (keep : ptr PrincipalResourcePermissions.t → outcome bool)
    (allPermissions : perms)
    (cleanPermissions : slice (ptr PrincipalResourcePermissions.t))
    : outcome (slice (ptr PrincipalResourcePermissions.t)) :=
  match allPermissions with
  | [] => Ret cleanPermissions
  | perm :: rest =>
      b ← keep perm;
      filterLoop keep rest (if (b : bool) then append cleanPermissions perm else cleanPermissions)
  end.

(** The test every loop body starts with; [false] is [continue]. *)
Definition samePrincipal (principal : ptr string)
    (perm : ptr PrincipalResourcePermissions.t)
    : outcome (bool * PrincipalResourcePermissions.t) :=
  p ← deref perm;
  pr ← deref (PrincipalResourcePermissions.Principal p);
  Ret (String.eqb (StringValue principal)
         (StringValue (DataLakePrincipalIdentifier pr)), p).

Definition filterCatalogPermissions (principal : ptr string)
    (allPermissions : slice (ptr PrincipalResourcePermissions.t)) :=
  filterLoop (λ perm,
    '(same, p) ← samePrincipal principal perm;
    if negb (same : bool) then Ret false
    else r ← deref (PrincipalResourcePermissions.Resource p);
         Ret (notNil (Resource.Catalog r)))
    (range allPermissions) None.

Definition filterDataLocationPermissions (principal : ptr string)
    (allPermissions : slice (ptr PrincipalResourcePermissions.t)) :=
  filterLoop (λ perm,
    '(same, p) ← samePrincipal principal perm;
    if negb (same : bool) then Ret false
    else r ← deref (PrincipalResourcePermissions.Resource p);
         Ret (notNil (Resource.DataLocation r)))
    (range allPermissions) None.

Definition filterDatabasePermissions (principal : ptr string)
    (allPermissions : slice (ptr PrincipalResourcePermissions.t)) :=
  filterLoop (λ perm,
    '(same, p) ← samePrincipal principal perm;
    if negb (same : bool) then Ret false
    else r ← deref (PrincipalResourcePermissions.Resource p);
         Ret (notNil (Resource.Database r)))
    (range allPermissions) None.

Section Package.

(** Constants of the package, declared outside the sources. *)
Variable tableNameAllTables : string.
Variable tableTypeTable : string.
Variable tableTypeTableWithColumns : string.

(** The first [if] of the body of [filterTablePermissions]: the SELECT
    permission listed on the table with columns. *)
Definition tableSelect (table : ptr TableResource.t)
    (p : PrincipalResourcePermissions.t) (r : Resource.t) : outcome bool :=
  match Resource.TableWithColumns r with
  | Some twc =>
      if notNil (TableWithColumnsResource.ColumnWildcard twc) then
        t ← deref table;
        if String.eqb (StringValue (TableWithColumnsResource.Name twc))
                      (StringValue (TableResource.Name t))
           || (notNil (TableResource.TableWildcard t)
               && String.eqb (StringValue (TableWithColumnsResource.Name twc))
                             tableNameAllTables)
        then
          if firstIs (PrincipalResourcePermissions.Permissions p) PermissionSelect
          then Ret true
          else Ret (firstIs (PrincipalResourcePermissions.PermissionsWithGrantOption p)
                      PermissionSelect)
        else Ret false
      else Ret false
  | None => Ret false
  end.

(** The second [if]: the table itself, by name or by wildcard. *)
Definition tableItself (table : ptr TableResource.t) (r : Resource.t)
    : outcome bool :=
  match Resource.Table r with
  | Some pt =>
      t ← deref table;
      if String.eqb (StringValue (TableResource.DatabaseName pt))
                    (StringValue (TableResource.DatabaseName t))
      then
        if String.eqb (StringValue (TableResource.Name pt))
                      (StringValue (TableResource.Name t))
        then Ret true
        else Ret (notNil (TableResource.TableWildcard pt)
                  && notNil (TableResource.TableWildcard t))
      else Ret false
  | None => Ret false
  end.

Definition filterTablePermissions (principal : ptr string)
    (table : ptr TableResource.t)
    (allPermissions : slice (ptr PrincipalResourcePermissions.t)) :=
  filterLoop (λ perm,
    '(same, p) ← samePrincipal principal perm;
    if negb (same : bool) then Ret false
    else
      r ← deref (PrincipalResourcePermissions.Resource p);
      b ← tableSelect table p r;
      if (b : bool) then Ret true else tableItself table r)
    (range allPermissions) None.

Definition filterTableWithColumnsPermissions (principal : ptr string)
    (twc : ptr TableResource.t)
    (columnNames excludedColumnNames : slice (ptr string))
    (columnWildcard : bool)
    (allPermissions : slice (ptr PrincipalResourcePermissions.t)) :=
  filterLoop (λ perm,
    '(same, p) ← samePrincipal principal perm;
    if negb (same : bool) then Ret false
    else
      r ← deref (PrincipalResourcePermissions.Resource p);
      let byColumns :=
        match Resource.TableWithColumns r with
        | Some c =>
            notNil (TableWithColumnsResource.ColumnNames c)
            && stringSlicesEqualIgnoreOrder
                 (TableWithColumnsResource.ColumnNames c) columnNames
        | None => false
        end in
      let byWildcard :=
        match Resource.TableWithColumns r with
        | Some c =>
            match TableWithColumnsResource.ColumnWildcard c with
            | Some w =>
                (columnWildcard || negb (Nat.eqb (len excludedColumnNames) 0))
                && ((negb (notNil (ExcludedColumnNames w))
                     && Nat.eqb (len excludedColumnNames) 0)
                    || (negb (Nat.eqb (len excludedColumnNames) 0)
                        && stringSlicesEqualIgnoreOrder (ExcludedColumnNames w)
                             excludedColumnNames))
            | None => false
            end
        | None => false
        end in
      if byColumns then Ret true
      else if byWildcard then Ret true
      else
        match Resource.Table r with
        | Some pt =>
            t ← deref twc;
            Ret (String.eqb (StringValue (TableResource.Name pt))
                   (StringValue (TableResource.Name t)))
        | None => Ret false
        end)
    (range allPermissions) None.

Definition filterPermissions (input : ptr ListPermissionsInput.t)
    (tableType : string) (columnNames excludedColumnNames : slice (ptr string))
    (columnWildcard : bool)
    (allPermissions : slice (ptr PrincipalResourcePermissions.t))
    : outcome (slice (ptr PrincipalResourcePermissions.t)) :=
  i ← deref input;
  r ← deref (ListPermissionsInput.Resource i);
  if notNil (Resource.Catalog r) then
    pr ← deref (ListPermissionsInput.Principal i);
    filterCatalogPermissions (DataLakePrincipalIdentifier pr) allPermissions
  else if notNil (Resource.DataLocation r) then
    pr ← deref (ListPermissionsInput.Principal i);
    filterDataLocationPermissions (DataLakePrincipalIdentifier pr) allPermissions
  else if notNil (Resource.Database r) then
    pr ← deref (ListPermissionsInput.Principal i);
    filterDatabasePermissions (DataLakePrincipalIdentifier pr) allPermissions
  else if String.eqb tableType tableTypeTableWithColumns then
    pr ← deref (ListPermissionsInput.Principal i);
    filterTableWithColumnsPermissions (DataLakePrincipalIdentifier pr)
      (Resource.Table r) columnNames excludedColumnNames columnWildcard
      allPermissions
  else if notNil (Resource.Table r) || String.eqb tableType tableTypeTable then
    pr ← deref (ListPermissionsInput.Principal i);
    filterTablePermissions (DataLakePrincipalIdentifier pr) (Resource.Table r)
      allPermissions
  else Ret None.

End Package.

End LakeFormation.

(** ** Clients and values for the examples *)

Module Sample.

(** An RDS service that answers every describe call the same way. *)
Definition rdsAnswering (resp : option RDS.DescribeDBClusterEndpointsOutput)
    (err : option error) : RDS.Conn :=
  {| RDS.DescribeDBClusterEndpoints := λ _ _, (resp, err);
     RDS.DeleteDBClusterEndpoint := λ _, None |}.

Definition endpointWithStatus (status : string) : RDS.DBClusterEndpoint :=
  {| RDS.DBClusterEndpointIdentifier := Some "ep";
     RDS.DBClusterIdentifier := Some "cluster";
     RDS.Endpoint := None;
     RDS.Status := Some status |}.

(** An RDS service on which the endpoint is already available. *)
Definition rdsAvailable : RDS.Conn :=
  rdsAnswering
    (Some {| RDS.DBClusterEndpoints := Some [Some (endpointWithStatus "available")];
             RDS.Marker := None |})
    None.

(** An RDS service on which the endpoint is being created during the first
    [n] describe calls and is available from then on. *)
Definition rdsCreating (n : nat) : RDS.Conn :=
  {| RDS.DescribeDBClusterEndpoints := λ call _,
       (Some {| RDS.DBClusterEndpoints :=
                  Some [Some (endpointWithStatus
                                (if (call <? n)%nat then "creating" else "available"))];
                RDS.Marker := None |}, None);
     RDS.DeleteDBClusterEndpoint := λ _, None |}.

(** An RDS service on which the endpoint is being deleted during the first
    [n] describe calls and is not found from then on. *)
Definition rdsDeleting (n : nat) : RDS.Conn :=
  {| RDS.DescribeDBClusterEndpoints := λ call _,
       if (call <? n)%nat
       then (Some {| RDS.DBClusterEndpoints := Some [Some (endpointWithStatus "deleting")];
                     RDS.Marker := None |}, None)
       else (Some RDS.emptyResp,
             Some (AwsError "DBClusterNotFoundFault" "DBClusterEndpoint not found"));
     RDS.DeleteDBClusterEndpoint := λ _, None |}.

(** Resource data with an ID and nothing else. *)
Definition fresh (id : string) : Schema.ResourceData :=
  {| Schema.id := id; Schema.attrs := ∅; Schema.timeouts := None |}.


(** An EFS service that answers every describe call with an error and the
    empty output the SDK allocates for the call. *)
Definition efsThrottled : EFS.Conn :=
  {| EFS.DescribeAccessPoints := λ _,
       (Some {| EFS.AccessPoints := None |},
        Some (AwsError "ThrottlingException" "Rate exceeded"));
     EFS.DescribeFileSystems := λ _,
       (Some {| EFS.FileSystems := None |},
        Some (AwsError "ThrottlingException" "Rate exceeded")) |}.

(** An EFS service with no access point and no file system. *)
Definition efsEmpty : EFS.Conn :=
  {| EFS.DescribeAccessPoints := λ _, (Some {| EFS.AccessPoints := Some [] |}, None);
     EFS.DescribeFileSystems := λ _, (Some {| EFS.FileSystems := Some [] |}, None) |}.

(** [tfresource.NotFound] as the SDK's [NotFoundError] test. *)
Definition isNotFoundError (err : option error) : bool :=
  bool_decide (is_Some (err ≫= asNotFoundError)).

(** A route table with one subnet association that has no association ID,
    and one with a gateway association after a subnet association. *)
Definition anonymousAssociation : EC2.RouteTableAssociation :=
  {| EC2.GatewayId := None; EC2.RouteTableAssociationId := None;
     EC2.RouteTableId := Some "rtb-1"; EC2.SubnetId := Some "subnet-1" |}.

Definition subnetAssociation : EC2.RouteTableAssociation :=
  {| EC2.GatewayId := None; EC2.RouteTableAssociationId := Some "rtbassoc-1";
     EC2.RouteTableId := Some "rtb-1"; EC2.SubnetId := Some "subnet-1" |}.

Definition gatewayAssociation : EC2.RouteTableAssociation :=
  {| EC2.GatewayId := Some "igw-1"; EC2.RouteTableAssociationId := Some "rtbassoc-2";
     EC2.RouteTableId := Some "rtb-1"; EC2.SubnetId := None |}.

Definition finding (associations : list EC2.RouteTableAssociation)
    : EC2.Conn → string → option EC2.RouteTable * option error :=
  λ _ _, (Some {| EC2.Associations := Some (Some <$> associations) |}, None).

Definition ec2Conn : EC2.Conn := {| EC2.DisassociateRouteTable := λ _, None |}.

(** Permissions listed for two principals on a catalog and on a database. *)
Definition permissionOf (principal : string) (resource : LakeFormation.Resource.t)
    : option LakeFormation.PrincipalResourcePermissions.t :=
  Some {| LakeFormation.PrincipalResourcePermissions.Permissions := Some [Some "ALL"];
          LakeFormation.PrincipalResourcePermissions.PermissionsWithGrantOption := None;
          LakeFormation.PrincipalResourcePermissions.Principal :=
            Some {| LakeFormation.DataLakePrincipalIdentifier := Some principal |};
          LakeFormation.PrincipalResourcePermissions.Resource := Some resource |}.

Definition onCatalog : LakeFormation.Resource.t :=
  {| LakeFormation.Resource.Catalog := Some LakeFormation.Build_CatalogResource;
     LakeFormation.Resource.DataLocation := None;
     LakeFormation.Resource.Database := None;
     LakeFormation.Resource.Table := None;
     LakeFormation.Resource.TableWithColumns := None |}.

Definition onDatabase : LakeFormation.Resource.t :=
  {| LakeFormation.Resource.Catalog := None;
     LakeFormation.Resource.DataLocation := None;
     LakeFormation.Resource.Database :=
       Some {| LakeFormation.DatabaseResource.CatalogId := None;
               LakeFormation.DatabaseResource.Name := Some "db" |};
     LakeFormation.Resource.Table := None;
     LakeFormation.Resource.TableWithColumns := None |}.

Definition listed : slice (option LakeFormation.PrincipalResourcePermissions.t) :=
  Some [permissionOf "bob" onCatalog; permissionOf "alice" onDatabase;
        permissionOf "alice" onCatalog; permissionOf "alice" onCatalog].

Definition catalogOf (principal : string) : option LakeFormation.ListPermissionsInput.t :=
  Some {| LakeFormation.ListPermissionsInput.CatalogId := None;
          LakeFormation.ListPermissionsInput.Principal :=
            Some {| LakeFormation.DataLakePrincipalIdentifier := Some principal |};
          LakeFormation.ListPermissionsInput.Resource := Some onCatalog |}.

End Sample.
Import Sample.

(** ** The vocabulary of the properties *)

Section Vocabulary.
Import EFS EC2 LakeFormation.

(** A describe output without a first element: nil, or with a nil or empty
    list, or with a nil pointer at the head of the list. *)
Definition noFirst {O A : Type} (list : O → slice (ptr A)) (output : option O) : Prop :=
  output = None
  ∨ ∃ o, output = Some o
         ∧ (len (list o) = 0 ∨ ∃ rest, list o = Some (None :: rest)).

(** The association matches the target of the import: its subnet or its
    gateway, a nil pointer reading as the empty string. *)
Definition targets (targetID : string) (a : RouteTableAssociation) : Prop :=
  StringValue (SubnetId a) = targetID ∨ StringValue (GatewayId a) = targetID.

(** The attribute the loop sets for a matching association: the subnet is
    tested first. *)
Definition matchedKey (targetID : string) (a : RouteTableAssociation) : string :=
  if String.eqb (StringValue (SubnetId a)) targetID then "subnet_id" else "gateway_id".

(** A pointer of the list that the loop passes over. *)
Definition passedOver (targetID : string) (p : option RouteTableAssociation) : Prop :=
  ∃ a, p = Some a ∧ ¬ targets targetID a.

(** The permission is there, and its principal reads as [principal]. *)
Definition principalIs (principal : option string)
    (perm : option PrincipalResourcePermissions.t) : Prop :=
  ∃ p pr,
    perm = Some p
    ∧ PrincipalResourcePermissions.Principal p = Some pr
    ∧ StringValue (DataLakePrincipalIdentifier pr) = StringValue principal.

(** A permission whose pointers the loops can follow. *)
Definition wellFormed (perm : option PrincipalResourcePermissions.t) : Prop :=
  ∃ p pr r,
    perm = Some p
    ∧ PrincipalResourcePermissions.Principal p = Some pr
    ∧ PrincipalResourcePermissions.Resource p = Some r.

End Vocabulary.

(** ** More vocabulary: what a filter loop leaves in [cleanPermissions] *)

Section FilterVocabulary.
Import LakeFormation.

(** [cleanPermissions] after appending the elements of [kept] one by one:
    untouched, and so possibly nil, when there is nothing to append. *)
Definition extend {A} (cleanPermissions : slice A) (kept : list A) : slice A :=
  match kept with
  | [] => cleanPermissions
  | _ => Some (range cleanPermissions ++ kept)
  end.

(** The permission is on the principal, and its resource passes [selected]. *)
Definition listedFor (principal : option string) (selected : Resource.t → bool)
    (perm : option PrincipalResourcePermissions.t) : bool :=
  match perm with
  | Some p =>
      match PrincipalResourcePermissions.Principal p,
            PrincipalResourcePermissions.Resource p with
      | Some pr, Some r =>
          String.eqb (StringValue principal)
            (StringValue (DataLakePrincipalIdentifier pr))
          && selected r
      | _, _ => false
      end
  | None => false
  end.

End FilterVocabulary.

(** ** More vocabulary: strings *)

(** [strings.Join]. *)
Fixpoint Join (parts : list string) (sep : string) : string :=
  match parts with
  | [] => EmptyString
  | [p] => p
  | p :: rest => p +:+ sep +:+ Join rest sep
  end.

(** [strings.Count(s, sep)] for a one-byte separator. *)
Fixpoint Count (s : string) (sep : ascii) : nat :=
  match s with
  | EmptyString => 0
  | String c s' => (if Ascii.eqb c sep then 1 else 0) + Count s' sep
  end.

(** ** [helper/schema], continued: reading attributes, setting them from
    pointers *)

Module SchemaData.

(** [d.Get(key).(string)]: the zero value when the attribute is not set. *)
Definition Get (d : Schema.ResourceData) (key : string) : string :=
  default EmptyString (Schema.attrs d !! key).

(** [d.GetOk(key)]: the value, and whether it is set to a non-zero value. *)
Definition GetOk (d : Schema.ResourceData) (key : string) : string * bool :=
  (Get d key, negb (String.eqb (Get d key) EmptyString)).

(** [d.Set(key, p)] with [p] a [*string]: a nil pointer unsets the attribute. *)
Definition SetPtr (key : string) (p : ptr string) (d : Schema.ResourceData)
    : Schema.ResourceData :=
  match p with
  | Some v => Schema.Set_ key v d
  | None =>
      {| Schema.id := Schema.id d;
         Schema.attrs := delete key (Schema.attrs d);
         Schema.timeouts := Schema.timeouts d |}
  end.

End SchemaData.

(** ** The EMR security configuration (the second file of
    [internal/service/lakeformation/filter.go]) *)

Module EMR.

Section Clock.

(** [time.Time], and [aws.TimeValue(t).Format(time.RFC3339)]. *)
Variable Time : Type.
Variable formatRFC3339 : ptr Time → string.

Record DescribeSecurityConfigurationOutput : Type := {
  CreationDateTime : ptr Time;
  Name : ptr string;
  SecurityConfiguration : ptr string
}.

Record CreateSecurityConfigurationOutput : Type := {
  CreatedAt : ptr Time;   (* CreationDateTime *)
  CreatedName : ptr string   (* Name *)
}.

(** [CreateSecurityConfiguration] takes the name and the configuration. *)
Record Conn : Type := {
  CreateSecurityConfiguration :
    string → string → ptr CreateSecurityConfigurationOutput * option error;
  DescribeSecurityConfiguration :
    string → ptr DescribeSecurityConfigurationOutput * option error;
  DeleteSecurityConfiguration : string → option error
}.

(** The resource data afterwards, and the error returned. *)
Definition resourceAwsEmrSecurityConfigurationRead (d : Schema.ResourceData)
    (conn : Conn) : outcome (Schema.ResourceData * option error) :=
  let '(resp, err) := DescribeSecurityConfiguration conn (Schema.Id d) in
  match err with
  | Some _ =>
      if ErrMessageContains err "InvalidRequestException" "does not exist"
      then Ret (Schema.SetId "" d, None)
      else Ret (d, err)
  | None =>
      r ← deref resp;
      let d := Schema.Set_ "creation_date" (formatRFC3339 (CreationDateTime r)) d in
      let d := SchemaData.SetPtr "name" (Name r) d in
      let d := SchemaData.SetPtr "configuration" (SecurityConfiguration r) d in
      Ret (d, None)
  end.

Definition resourceAwsEmrSecurityConfigurationDelete (d : Schema.ResourceData)
    (conn : Conn) : option error :=
  let err := DeleteSecurityConfiguration conn (Schema.Id d) in
  match err with
  | Some _ =>
      if ErrMessageContains err "InvalidRequestException" "does not exist"
      then None
      else err
  | None => None
  end.

(** [resource.PrefixedUniqueId]. *)
Variable PrefixedUniqueId : string → string.

(** The name [resourceAwsEmrSecurityConfigurationCreate] settles on. *)
Definition emrSCName (d : Schema.ResourceData) : string :=
  let '(v, ok) := SchemaData.GetOk d "name" in
  if ok then v
  else
    let '(v, ok) := SchemaData.GetOk d "name_prefix" in
    if ok then PrefixedUniqueId v else PrefixedUniqueId "tf-emr-sc-".

Definition resourceAwsEmrSecurityConfigurationCreate (d : Schema.ResourceData)
    (conn : Conn) : outcome (Schema.ResourceData * option error) :=
  let '(resp, err) :=
    CreateSecurityConfiguration conn (emrSCName d) (SchemaData.Get d "configuration") in
  match err with
  | Some _ => Ret (d, err)
  | None =>
      r ← deref resp;
      let d := Schema.SetId (StringValue (CreatedName r)) d in
      resourceAwsEmrSecurityConfigurationRead d conn
  end.

End Clock.

End EMR.

(** ** The transit gateway route table propagation (in [part_001]) *)

Module TransitGateway.

Record TransitGatewayRouteTablePropagation : Type := {
  ResourceId : ptr string;
  ResourceType : ptr string;
  State : ptr string;
  TransitGatewayAttachmentId : ptr string
}.

(** The two calls take the attachment ID and the route table ID. *)
Record Conn : Type := {
  EnableTransitGatewayRouteTablePropagation : string → string → option error;
  DisableTransitGatewayRouteTablePropagation : string → string → option error
}.

Section Package.

(** Declared in files of the package that are not among the sources. The
    decoder returns the route table ID, the attachment ID and an error; the
    finder and the waiters take the route table ID, then the attachment ID. *)
Variable errCodeInvalidRouteTableIDNotFound : string.
Variable decodeEc2TransitGatewayRouteTablePropagationID :
  string → string * string * option error.
Variable ec2DescribeTransitGatewayRouteTablePropagation :
  Conn → string → string → ptr TransitGatewayRouteTablePropagation * option error.
Variable waitTransitGatewayRouteTablePropagationStateEnabled :
  Conn → string → string → option error.
Variable waitTransitGatewayRouteTablePropagationStateDisabled :
  Conn → string → string → option error.

(** The first argument is [d.IsNewResource()]; the result is the resource
    data afterwards and the error returned. *)
Definition resourceAwsEc2TransitGatewayRouteTablePropagationRead
    (isNewResource : bool) (d : Schema.ResourceData) (conn : Conn)
    : Schema.ResourceData * option error :=
  let '(transitGatewayRouteTableID, transitGatewayAttachmentID, err) :=
    decodeEc2TransitGatewayRouteTablePropagationID (Schema.Id d) in
  match err with
  | Some _ => (d, err)
  | None =>
      let '(transitGatewayPropagation, err) :=
        ec2DescribeTransitGatewayRouteTablePropagation conn
          transitGatewayRouteTableID transitGatewayAttachmentID in
      if negb isNewResource
         && ErrCodeEquals err errCodeInvalidRouteTableIDNotFound
      then (Schema.SetId "" d, None)
      else
        match err with
        | Some _ =>
            (d, Some (Errorf
                  "error reading EC2 Transit Gateway Route Table (%s) Propagation (%s): %s"
                  [transitGatewayRouteTableID; transitGatewayAttachmentID] err))
        | None =>
            match transitGatewayPropagation with
            | None =>
                if isNewResource then
                  (d, Some (Errorf
                        "error reading EC2 Transit Gateway Route Table (%s) Propagation (%s): not found after creation"
                        [transitGatewayRouteTableID; transitGatewayAttachmentID] None))
                else (Schema.SetId "" d, None)
            | Some p =>
                let d := SchemaData.SetPtr "resource_id" (ResourceId p) d in
                let d := SchemaData.SetPtr "resource_type" (ResourceType p) d in
                let d := SchemaData.SetPtr "transit_gateway_attachment_id"
                           (TransitGatewayAttachmentId p) d in
                let d := Schema.Set_ "transit_gateway_route_table_id"
                           transitGatewayRouteTableID d in
                (d, None)
            end
        end
  end.

Definition resourceAwsEc2TransitGatewayRouteTablePropagationCreate
    (isNewResource : bool) (d : Schema.ResourceData) (conn : Conn)
    : Schema.ResourceData * option error :=
  let transitGatewayAttachmentID := SchemaData.Get d "transit_gateway_attachment_id" in
  let transitGatewayRouteTableID := SchemaData.Get d "transit_gateway_route_table_id" in
  match EnableTransitGatewayRouteTablePropagation conn
          transitGatewayAttachmentID transitGatewayRouteTableID with
  | Some e =>
      (d, Some (Errorf
            "error enabling EC2 Transit Gateway Route Table (%s) propagation (%s): %s"
            [transitGatewayRouteTableID; transitGatewayAttachmentID] (Some e)))
  | None =>
      let d :=
        Schema.SetId (transitGatewayRouteTableID +:+ "_" +:+ transitGatewayAttachmentID) d in
      match waitTransitGatewayRouteTablePropagationStateEnabled conn
              transitGatewayRouteTableID transitGatewayAttachmentID with
      | Some e =>
          (d, Some (Errorf
                "error waiting for EC2 Transit Gateway Route Table (%s) propagation (%s) to enable: %w"
                [transitGatewayRouteTableID; transitGatewayAttachmentID] (Some e)))
      | None =>
          resourceAwsEc2TransitGatewayRouteTablePropagationRead isNewResource d conn
      end
  end.

Definition resourceAwsEc2TransitGatewayRouteTablePropagationDelete
    (d : Schema.ResourceData) (conn : Conn) : option error :=
  let '(transitGatewayRouteTableID, transitGatewayAttachmentID, err) :=
    decodeEc2TransitGatewayRouteTablePropagationID (Schema.Id d) in
  match err with
  | Some _ => err
  | None =>
      let err :=
        DisableTransitGatewayRouteTablePropagation conn
          transitGatewayAttachmentID transitGatewayRouteTableID in
      if ErrMessageContains err "InvalidRouteTableID.NotFound" "" then None
      else
        match err with
        | Some _ =>
            Some (Errorf
              "error disabling EC2 Transit Gateway Route Table (%s) Propagation (%s): %s"
              [transitGatewayRouteTableID; transitGatewayAttachmentID] err)
        | None =>
            match waitTransitGatewayRouteTablePropagationStateDisabled conn
                    transitGatewayRouteTableID transitGatewayAttachmentID with
            | Some e =>
                Some (Errorf
                  "error waiting for EC2 Transit Gateway Route Table (%s) propagation (%s) to disable: %w"
                  [transitGatewayRouteTableID; transitGatewayAttachmentID] (Some e))
            | None => None
            end
        end
  end.

End Package.

End TransitGateway.

(** ** [internal/service/ec2/table_association.go], continued: create, read,
    update *)

Module RouteTableAssociation.

Module AssociateRouteTableInput.
Record t : Type := {
  GatewayId : ptr string;
  RouteTableId : ptr string;
  SubnetId : ptr string
}.
End AssociateRouteTableInput.

Record AssociateRouteTableOutput : Type := {
  AssociationId : ptr string
}.

Record ReplaceRouteTableAssociationOutput : Type := {
  NewAssociationId : ptr string
}.

(** [AssociateRouteTable] may be called again and again by the retry
    helper: its first argument counts the earlier attempts.
    [ReplaceRouteTableAssociation] takes the association ID and the route
    table ID. *)
Record Conn : Type := {
  AssociateRouteTable :
    nat → AssociateRouteTableInput.t → ptr AssociateRouteTableOutput * option error;
  ReplaceRouteTableAssociation :
    string → string → ptr ReplaceRouteTableAssociationOutput * option error
}.

Section Package.

(** Declared in files of the repository that are not among the sources. *)
Variable errCodeInvalidRouteTableIDNotFound : string.
Variable errCodeInvalidAssociationIDNotFound : string.
Variable routeTableAssociationPropagationTimeout : Z.
Variable RetryWhenAwsErrCodeEquals :
  Z → (nat → ptr AssociateRouteTableOutput * option error) → string →
  ptr AssociateRouteTableOutput * option error.
Variable findRouteTableAssociationByID :
  Conn → string → ptr EC2.RouteTableAssociation * option error.
Variable NotFound : option error → bool.
Variable waitRouteTableAssociationCreated : Conn → string → option error.
Variable waitRouteTableAssociationUpdated : Conn → string → option error.

(** The first argument is [d.IsNewResource()]; the result is the resource
    data afterwards and the error returned. *)
Definition resourceAwsRouteTableAssociationRead (isNewResource : bool)
    (d : Schema.ResourceData) (conn : Conn)
    : outcome (Schema.ResourceData * option error) :=
  let '(association, err) := findRouteTableAssociationByID conn (Schema.Id d) in
  if negb isNewResource && NotFound err then Ret (Schema.SetId "" d, None)
  else
    match err with
    | Some _ =>
        Ret (d, Some (Errorf "error reading Route Table Association (%s): %w"
                        [Schema.Id d] err))
    | None =>
        a ← deref association;
        let d := SchemaData.SetPtr "gateway_id" (EC2.GatewayId a) d in
        let d := SchemaData.SetPtr "route_table_id" (EC2.RouteTableId a) d in
        let d := SchemaData.SetPtr "subnet_id" (EC2.SubnetId a) d in
        Ret (d, None)
    end.

(** The input [resourceAwsRouteTableAssociationCreate] builds. *)
Definition createInput (d : Schema.ResourceData) : AssociateRouteTableInput.t :=
  {| AssociateRouteTableInput.RouteTableId := Some (SchemaData.Get d "route_table_id");
     AssociateRouteTableInput.GatewayId :=
       (let '(v, ok) := SchemaData.GetOk d "gateway_id" in
        if ok then Some v else None);
     AssociateRouteTableInput.SubnetId :=
       (let '(v, ok) := SchemaData.GetOk d "subnet_id" in
        if ok then Some v else None) |}.

Definition resourceAwsRouteTableAssociationCreate (isNewResource : bool)
    (d : Schema.ResourceData) (conn : Conn)
    : outcome (Schema.ResourceData * option error) :=
  let routeTableID := SchemaData.Get d "route_table_id" in
  let input := createInput d in
  let '(output, err) :=
    RetryWhenAwsErrCodeEquals routeTableAssociationPropagationTimeout
      (λ attempt, AssociateRouteTable conn attempt input)
      errCodeInvalidRouteTableIDNotFound in
  match err with
  | Some _ =>
      Ret (d, Some (Errorf "error creating Route Table (%s) Association: %w"
                      [routeTableID] err))
  | None =>
      o ← deref output;
      let d := Schema.SetId (StringValue (AssociationId o)) d in
      match waitRouteTableAssociationCreated conn (Schema.Id d) with
      | Some e =>
          Ret (d, Some (Errorf
                 "error waiting for Route Table Association (%s) create: %w"
                 [Schema.Id d] (Some e)))
      | None => resourceAwsRouteTableAssociationRead isNewResource d conn
      end
  end.

Definition resourceAwsRouteTableAssociationUpdate (isNewResource : bool)
    (d : Schema.ResourceData) (conn : Conn)
    : outcome (Schema.ResourceData * option error) :=
  let '(output, err) :=
    ReplaceRouteTableAssociation conn (Schema.Id d)
      (SchemaData.Get d "route_table_id") in
  if ErrCodeEquals err errCodeInvalidAssociationIDNotFound
  then resourceAwsRouteTableAssociationCreate isNewResource d conn
  else
    match err with
    | Some _ =>
        Ret (d, Some (Errorf "error updating Route Table Association (%s): %w"
                        [Schema.Id d] err))
    | None =>
        o ← deref output;
        let d := Schema.SetId (StringValue (NewAssociationId o)) d in
        match waitRouteTableAssociationUpdated conn (Schema.Id d) with
        | Some e =>
            Ret (d, Some (Errorf
                   "error waiting for Route Table Association (%s) update: %w"
                   [Schema.Id d] (Some e)))
        | None => resourceAwsRouteTableAssociationRead isNewResource d conn
        end
    end.

End Package.

End RouteTableAssociation.

(** ** More vocabulary: the attributes after a read that found the
    association [a] *)

Definition readBack (d' : Schema.ResourceData) (a : EC2.RouteTableAssociation) : Prop :=
  SchemaData.Get d' "gateway_id" = StringValue (EC2.GatewayId a)
  ∧ SchemaData.Get d' "route_table_id" = StringValue (EC2.RouteTableId a)
  ∧ SchemaData.Get d' "subnet_id" = StringValue (EC2.SubnetId a).

(** ** More vocabulary: the time a wait has slept in all *)

Definition total (slept : list Z) : Z := foldr Z.add 0%Z slept.

(** ** More clients and values for the examples *)

Module MoreSamples.

Definition tgwConn : TransitGateway.Conn :=
  {| TransitGateway.EnableTransitGatewayRouteTablePropagation := λ _ _, None;
     TransitGateway.DisableTransitGatewayRouteTablePropagation := λ _ _, None |}.

Definition tgwPropagation : TransitGateway.TransitGatewayRouteTablePropagation :=
  {| TransitGateway.ResourceId := Some "vpc-1";
     TransitGateway.ResourceType := Some "vpc";
     TransitGateway.State := Some "enabled";
     TransitGateway.TransitGatewayAttachmentId := Some "tgw-attach-1" |}.

Definition associationConn : RouteTableAssociation.Conn :=
  {| RouteTableAssociation.AssociateRouteTable := λ _ _,
       (Some {| RouteTableAssociation.AssociationId := Some "rtbassoc-1" |}, None);
     RouteTableAssociation.ReplaceRouteTableAssociation := λ _ _,
       (Some {| RouteTableAssociation.NewAssociationId := Some "rtbassoc-2" |}, None) |}.

(** A retry helper that is content with the first attempt. *)
Definition firstAttempt :
    Z → (nat → option RouteTableAssociation.AssociateRouteTableOutput * option error)
    → string → option RouteTableAssociation.AssociateRouteTableOutput * option error :=
  λ _ f _, f 0.

Definition findingAssociation
    : RouteTableAssociation.Conn → string
      → option EC2.RouteTableAssociation * option error :=
  λ _ _, (Some subnetAssociation, None).

(** An RDS service that fails every describe call, with no response. *)
Definition rdsFailing (e : error) : RDS.Conn := rdsAnswering None (Some e).

(** A table, the permission on some of its columns, and the permission on
    all of its columns but some. *)
Definition ordersTable : LakeFormation.TableResource.t :=
  {| LakeFormation.TableResource.CatalogId := None;
     LakeFormation.TableResource.DatabaseName := Some "db";
     LakeFormation.TableResource.Name := Some "orders";
     LakeFormation.TableResource.TableWildcard := None |}.

Definition onColumns (names : list string) : LakeFormation.Resource.t :=
  {| LakeFormation.Resource.Catalog := None;
     LakeFormation.Resource.DataLocation := None;
     LakeFormation.Resource.Database := None;
     LakeFormation.Resource.Table := None;
     LakeFormation.Resource.TableWithColumns :=
       Some {| LakeFormation.TableWithColumnsResource.CatalogId := None;
               LakeFormation.TableWithColumnsResource.ColumnNames :=
                 Some (Some <$> names);
               LakeFormation.TableWithColumnsResource.ColumnWildcard := None;
               LakeFormation.TableWithColumnsResource.DatabaseName := Some "db";
               LakeFormation.TableWithColumnsResource.Name := Some "orders" |} |}.

Definition onAllColumnsBut (excluded : list string) : LakeFormation.Resource.t :=
  {| LakeFormation.Resource.Catalog := None;
     LakeFormation.Resource.DataLocation := None;
     LakeFormation.Resource.Database := None;
     LakeFormation.Resource.Table := None;
     LakeFormation.Resource.TableWithColumns :=
       Some {| LakeFormation.TableWithColumnsResource.CatalogId := None;
               LakeFormation.TableWithColumnsResource.ColumnNames := None;
               LakeFormation.TableWithColumnsResource.ColumnWildcard :=
                 Some {| LakeFormation.ExcludedColumnNames := Some (Some <$> excluded) |};
               LakeFormation.TableWithColumnsResource.DatabaseName := Some "db";
               LakeFormation.TableWithColumnsResource.Name := Some "orders" |} |}.

(** The input of a listing for a principal on the table. *)
Definition tableOf (principal : string) : option LakeFormation.ListPermissionsInput.t :=
  Some {| LakeFormation.ListPermissionsInput.CatalogId := None;
          LakeFormation.ListPermissionsInput.Principal :=
            Some {| LakeFormation.DataLakePrincipalIdentifier := Some principal |};
          LakeFormation.ListPermissionsInput.Resource :=
            Some {| LakeFormation.Resource.Catalog := None;
                    LakeFormation.Resource.DataLocation := None;
                    LakeFormation.Resource.Database := None;
                    LakeFormation.Resource.Table := Some ordersTable;
                    LakeFormation.Resource.TableWithColumns := None |} |}.

(** Permissions listed on columns of the table, for two principals. *)
Definition listedColumns : slice (option LakeFormation.PrincipalResourcePermissions.t) :=
  Some [permissionOf "alice" (onColumns ["price"; "id"]);
        permissionOf "alice" (onColumns ["id"; "customer"]);
        permissionOf "bob" (onColumns ["id"; "price"]);
        permissionOf "alice" (onAllColumnsBut ["note"; "secret"]);
        permissionOf "alice" (onAllColumnsBut ["note"])].

(** A route table association service on which the association found has
    moved to the new ID. *)
Definition findingUnder (id : string)
    : RouteTableAssociation.Conn → string
      → option EC2.RouteTableAssociation * option error :=
  λ _ asked,
    if String.eqb asked id then (Some gatewayAssociation, None)
    else (None, Some (NotFoundError 0)).

End MoreSamples.
Import MoreSamples.

(* ================================================================== *)
(** * Part II: properties *)
(* ================================================================== *)

(** ** Helper libraries *)

Lemma Contains_empty (s : string) : Contains s "" = true.
Proof. destruct s; reflexivity. Qed.

Lemma ErrMessageContains_any_message (e : error) (code : string) :
  ErrMessageContains (Some e) code "" = true ↔
  ∃ message, asAwsErr e = Some (code, message).
Proof.
  unfold ErrMessageContains. simpl.
  destruct (asAwsErr e) as [[c m]|]; simpl.
  - rewrite Contains_empty, andb_true_r, String.eqb_eq. split.
    + intros ->. eauto.
    + intros [m' [= -> _]]. reflexivity.
  - split; [discriminate | intros [m' [=]]].
Qed.

Lemma ErrCodeEquals_spec (e : error) (code : string) :
  ErrCodeEquals (Some e) code = true ↔
  ∃ message, asAwsErr e = Some (code, message).
Proof.
  unfold ErrCodeEquals. simpl.
  destruct (asAwsErr e) as [[c m]|]; simpl.
  - rewrite String.eqb_eq. split.
    + intros ->. eauto.
    + intros [m' [= -> _]]. reflexivity.
  - split; [discriminate | intros [m' [=]]].
Qed.

(** ** The RDS cluster endpoint refresh function *)

Section ClusterEndpointRefresh.
Import Resource RDS.

Variables (conn : Conn) (id : string) (n : nat).

Let refresh := DBClusterEndpointStateRefreshFunc conn id n.
Let destroyed : outcome (RefreshResult snapshot) :=
  Ret (Some (OfOutput emptyResp), "destroyed", None).

Lemma refresh_not_found_fault resp e message :
  DescribeDBClusterEndpoints conn n id = (resp, Some e) →
  asAwsErr e = Some (ErrCodeDBClusterNotFoundFault, message) →
  refresh = destroyed.
Proof.
  intros Hcall Hcode. subst refresh. unfold DBClusterEndpointStateRefreshFunc.
  rewrite Hcall.
  assert (ErrMessageContains (Some e) ErrCodeDBClusterNotFoundFault "" = true) as ->
    by (apply ErrMessageContains_any_message; eauto).
  reflexivity.
Qed.

Lemma refresh_no_endpoints r err :
  DescribeDBClusterEndpoints conn n id = (Some r, err) →
  len (DBClusterEndpoints r) = 0 →
  refresh = destroyed.
Proof.
  intros Hcall Hlen. subst refresh. unfold DBClusterEndpointStateRefreshFunc.
  rewrite Hcall, Hlen. simpl.
  destruct err as [e|].
  - destruct (ErrMessageContains _ _ _); reflexivity.
  - rewrite orb_true_r. reflexivity.
Qed.

Lemma refresh_no_response :
  DescribeDBClusterEndpoints conn n id = (None, None) →
  refresh = destroyed.
Proof.
  intros Hcall. subst refresh. unfold DBClusterEndpointStateRefreshFunc.
  rewrite Hcall. reflexivity.
Qed.

(** The refresh function fails exactly on an error that is not the
    not-found fault and does not come with an empty, non-nil response. *)
Lemma refresh_error_iff resp err :
  DescribeDBClusterEndpoints conn n id = (resp, err) →
  (∃ res state e', refresh = Ret (res, state, Some e')) ↔
  (∃ e, err = Some e
        ∧ (∀ message, asAwsErr e ≠ Some (ErrCodeDBClusterNotFoundFault, message))
        ∧ ¬ ∃ r, resp = Some r ∧ len (DBClusterEndpoints r) = 0).
Proof.
  intros Hcall. subst refresh. unfold DBClusterEndpointStateRefreshFunc.
  rewrite Hcall. destruct err as [e|].
  - destruct (ErrMessageContains (Some e) ErrCodeDBClusterNotFoundFault "") eqn:Hnf.
    + apply ErrMessageContains_any_message in Hnf as [m Hm]. split.
      * intros (? & ? & ? & [=]).
      * intros (e0 & [= <-] & Hno & _). destruct (Hno m Hm).
    + assert (∀ m, asAwsErr e ≠ Some (ErrCodeDBClusterNotFoundFault, m)) as Hno.
      { intros m Hm.
        assert (ErrMessageContains (Some e) ErrCodeDBClusterNotFoundFault "" = true)
          by (apply ErrMessageContains_any_message; eauto).
        congruence. }
      destruct resp as [r|]; [destruct (Nat.eqb (len (DBClusterEndpoints r)) 0) eqn:Hlen|].
      * apply Nat.eqb_eq in Hlen. split.
        -- intros (? & ? & ? & [=]).
        -- intros (_ & _ & _ & Hne). destruct Hne. eauto.
      * apply Nat.eqb_neq in Hlen. split; [|eauto 10].
        intros _. exists e. split_and!; [done..|].
        intros (r' & [= <-] & ?). done.
      * split; [|eauto 10].
        intros _. exists e. split_and!; [done..|]. intros (r' & [=] & _).
  - split.
    + intros (res & state & e' & Hret).
      destruct resp as [r|]; [|discriminate].
      destruct (_ || _); [discriminate|].
      destruct (index _ _) as [[ep|]|]; simpl in Hret; try discriminate.
      destruct (Status ep); simpl in Hret; discriminate.
    + intros (e & [=] & _).
Qed.

Lemma refresh_error_value resp e :
  DescribeDBClusterEndpoints conn n id = (resp, Some e) →
  (∀ message, asAwsErr e ≠ Some (ErrCodeDBClusterNotFoundFault, message)) →
  (¬ ∃ r, resp = Some r ∧ len (DBClusterEndpoints r) = 0) →
  refresh = Ret (Some (OfOutput emptyResp), "",
                 Some (Errorf "Error on refresh: %+v" [] (Some e))).
Proof.
  intros Hcall Hno Hresp. subst refresh. unfold DBClusterEndpointStateRefreshFunc.
  rewrite Hcall.
  destruct (ErrMessageContains (Some e) ErrCodeDBClusterNotFoundFault "") eqn:Hnf.
  { apply ErrMessageContains_any_message in Hnf as [m Hm]. destruct (Hno m Hm). }
  destruct resp as [r|]; [|reflexivity].
  destruct (Nat.eqb (len (DBClusterEndpoints r)) 0) eqn:Hlen; [|reflexivity].
  apply Nat.eqb_eq in Hlen. destruct Hresp. eauto.
Qed.

End ClusterEndpointRefresh.

(** C1. The delete wait has pending states "available" and "deleting" and the
    target state "destroyed"; whenever the describe call reports the endpoint
    absent (a DBClusterNotFoundFault error, or a response whose endpoint list
    is nil or empty, or no response and no error), the refresh function
    returns the label "destroyed" with a nil error, and the wait loop takes
    that result as the target reached. *)
Theorem cluster_endpoint_delete_wait_absent_is_destroyed
    (timeout : Z) (id : string) (conn : RDS.Conn) (n : nat)
    (resp : option RDS.DescribeDBClusterEndpointsOutput) (err : option error) :
  RDS.DescribeDBClusterEndpoints conn n id = (resp, err) →
  (∃ e message,
      err = Some e ∧ asAwsErr e = Some (RDS.ErrCodeDBClusterNotFoundFault, message))
  ∨ (∃ r, resp = Some r ∧ len (RDS.DBClusterEndpoints r) = 0)
  ∨ (resp = None ∧ err = None) →
  let conf := RDS.destroyStateConf timeout id conn in
  let absent := (Some (RDS.OfOutput RDS.emptyResp), "destroyed", None) in
  Resource.Pending conf = ["available"; "deleting"]
  ∧ Resource.Target conf = ["destroyed"]
  ∧ Resource.Refresh conf n = Ret absent
  ∧ ∀ notfoundTick,
      Resource.judge (Resource.withDefaults conf) absent notfoundTick 0
      = Resource.Stop (Some (RDS.OfOutput RDS.emptyResp)) None.
Proof.
  intros Hcall Habsent conf absent. split_and!; [reflexivity..| |reflexivity].
  destruct Habsent as [(e & m & -> & Hm)|[(r & -> & Hlen)|[-> ->]]].
  - eapply refresh_not_found_fault; eauto.
  - eapply refresh_no_endpoints; eauto.
  - by apply refresh_no_response.
Qed.

Lemma cluster_endpoint_delete_wait_absent_is_destroyed_witness :
  Resource.Refresh
    (RDS.destroyStateConf (20 * Minute) "ep"
       (rdsAnswering (Some RDS.emptyResp) (Some (ErrorString "throttled")))) 1
  = Ret (Some (RDS.OfOutput RDS.emptyResp), "destroyed", None).
Proof.
  apply (cluster_endpoint_delete_wait_absent_is_destroyed (20 * Minute) "ep"
           (rdsAnswering (Some RDS.emptyResp) (Some (ErrorString "throttled"))) 1
           (Some RDS.emptyResp) (Some (ErrorString "throttled"))).
  - reflexivity.
  - right. left. exists RDS.emptyResp. split; reflexivity.
Defined.

(** An error formatted with the verb [%+v]: nothing to unwrap, and so no
    error wrapped and nothing for [errors.As] to find. *)
Lemma Errorf_plus_v_opaque (message : string) (operands : list string) (e : error) :
  Contains message "%w" = false →
  let e' := Errorf message operands (Some e) in
  Unwrap e' = None
  ∧ chain e' = [e']
  ∧ (∀ inner, ¬ Wraps e' inner)
  ∧ asAwsErr e' = None
  ∧ asNotFoundError e' = None.
Proof.
  intros Hverb e'. subst e'. simpl. rewrite Hverb. split_and!; try reflexivity.
  intros inner (e0 & Hunwrap & _). simpl in Hunwrap. rewrite Hverb in Hunwrap.
  discriminate Hunwrap.
Qed.

(** C2, as the code has it. The refresh function returns a non-nil error if
    and only if the describe call returned a non-nil error that is not a
    DBClusterNotFoundFault and whose response is not a non-nil response with
    an empty endpoint list. The error it then returns is a new error,
    formatted from the original one with the verb [%+v]: the original error is
    its operand and is in its message, and it is not wrapped, so that
    [errors.Unwrap] gives nil and neither [errors.As] nor the code tests of
    [tfawserr] see the original error through it. The state label is the
    empty string and the snapshot the empty response. *)
Theorem cluster_endpoint_refresh_error_iff
    (conn : RDS.Conn) (id : string) (n : nat)
    (resp : option RDS.DescribeDBClusterEndpointsOutput) (err : option error) :
  RDS.DescribeDBClusterEndpoints conn n id = (resp, err) →
  let refresh := RDS.DBClusterEndpointStateRefreshFunc conn id n in
  let surfaced :=
    ∃ e, err = Some e
         ∧ (∀ message, asAwsErr e ≠ Some (RDS.ErrCodeDBClusterNotFoundFault, message))
         ∧ ¬ ∃ r, resp = Some r ∧ len (RDS.DBClusterEndpoints r) = 0 in
  ((∃ res state e', refresh = Ret (res, state, Some e')) ↔ surfaced)
  ∧ (surfaced →
     ∃ e e',
       err = Some e
       ∧ e' = Errorf "Error on refresh: %+v" [] (Some e)
       ∧ refresh = Ret (Some (RDS.OfOutput RDS.emptyResp), "", Some e')
       ∧ Unwrap e' = None
       ∧ ¬ Wraps e' e
       ∧ asAwsErr e' = None
       ∧ asNotFoundError e' = None
       ∧ ∀ code message, ErrMessageContains (Some e') code message = false).
Proof.
  intros Hcall refresh surfaced. split.
  - apply refresh_error_iff. exact Hcall.
  - intros (e & -> & Hno & Hresp).
    destruct (Errorf_plus_v_opaque "Error on refresh: %+v" [] e eq_refl)
      as (Hunwrap & _ & Hwraps & Haws & Hnf).
    exists e, (Errorf "Error on refresh: %+v" [] (Some e)).
    split_and!; try done.
    eapply refresh_error_value; eauto.
Qed.

Lemma cluster_endpoint_refresh_error_iff_witness :
  ∃ e e',
    Some (ErrorString "connection reset") = Some e
    ∧ e' = Errorf "Error on refresh: %+v" [] (Some e)
    ∧ RDS.DBClusterEndpointStateRefreshFunc
        (rdsFailing (ErrorString "connection reset")) "ep" 0
      = Ret (Some (RDS.OfOutput RDS.emptyResp), "", Some e')
    ∧ Unwrap e' = None
    ∧ ¬ Wraps e' e
    ∧ asAwsErr e' = None
    ∧ asNotFoundError e' = None
    ∧ ∀ code message, ErrMessageContains (Some e') code message = false.
Proof.
  apply (cluster_endpoint_refresh_error_iff
           (rdsFailing (ErrorString "connection reset")) "ep" 0
           None (Some (ErrorString "connection reset")) eq_refl).
  exists (ErrorString "connection reset"). split_and!.
  - reflexivity.
  - intros message [=].
  - intros (r & [=] & _).
Defined.

(** C2, as stated, fails on a throttled describe call: the refresh function
    returns a non-nil error, the original error is an AWS error with the code
    "Throttling", and the error returned does not wrap it: it unwraps to
    nothing, and the test for that code on it fails. *)
Lemma refresh_error_does_not_wrap_original :
  let original := AwsError "Throttling" "Rate exceeded" in
  let conn := rdsFailing original in
  RDS.DescribeDBClusterEndpoints conn 0 "ep" = (None, Some original)
  ∧ ErrCodeEquals (Some original) "Throttling" = true
  ∧ ∃ res state e',
      RDS.DBClusterEndpointStateRefreshFunc conn "ep" 0 = Ret (res, state, Some e')
      ∧ Unwrap e' = None
      ∧ ¬ Wraps e' original
      ∧ (original ∉ chain e')
      ∧ ErrCodeEquals (Some e') "Throttling" = false.
Proof.
  intros original conn. split_and!; [reflexivity..|].
  eexists _, _, _. split; [reflexivity|]. split_and!.
  - reflexivity.
  - intros (e & [=] & _).
  - intros Hin. apply list_elem_of_singleton in Hin. discriminate Hin.
  - reflexivity.
Qed.

(** ** The wait loop on a refresh that reports a target state at once *)

Section FirstPoll.
Import Resource.
Context {T : Type}.

Lemma scanTarget_hit (target : list string) (label : string) (found : bool) :
  label ∈ target →
  scanTarget target label 1 found 0 = (true, 1%Z, true).
Proof.
  induction target as [|allowed rest IH] in found |- *; intros Hin.
  - by apply elem_of_nil in Hin.
  - simpl. destruct (String.eqb label allowed) eqn:Heq; [reflexivity|].
    apply IH. apply elem_of_cons in Hin as [->|]; [|done].
    by rewrite String.eqb_refl in Heq.
Qed.

Lemma sleep_once (d : Z) :
  sleep d [] = if (0 <? d)%Z then [d] else [].
Proof. unfold sleep. by destruct (0 <? d)%Z. Qed.

(** Only the initial [Delay] is waited for. *)
Lemma WaitForState_first_poll (conf : StateChangeConf T) (fuel : nat)
    (snap : T) (label : string) :
  Refresh conf 0 = Ret (Some snap, label, None) →
  label ∈ Target conf →
  ContinuousTargetOccurence conf = 0%Z ∨ ContinuousTargetOccurence conf = 1%Z →
  (Z.max 0 (Delay conf) < Timeout conf)%Z →
  WaitForState (S fuel) conf
  = Some (Ret {| result := Some snap; err := None;
                 slept := if (0 <? Delay conf)%Z then [Delay conf] else [];
                 polls := 1 |}).
Proof.
  intros Hrefresh Hin Hcont Hlt. unfold WaitForState. simpl.
  destruct (Z.leb_spec (Timeout conf) (Z.max 0 (Delay conf))) as [?|_]; [lia|].
  rewrite Z.add_0_r.
  destruct (Z.leb_spec (Timeout conf) (Z.max 0 (Delay conf))) as [?|_]; [lia|].
  rewrite Hrefresh. unfold judge. simpl.
  assert ((if (ContinuousTargetOccurence conf =? 0)%Z then 1%Z
           else ContinuousTargetOccurence conf) = 1%Z) as ->
    by (destruct Hcont as [-> | ->]; reflexivity).
  rewrite scanTarget_hit by done. rewrite sleep_once. reflexivity.
Qed.

End FirstPoll.

(** ** The waiters of the RDS cluster endpoint *)

Lemma refresh_first_endpoint (conn : RDS.Conn) (id : string) (n : nat)
    (r : RDS.DescribeDBClusterEndpointsOutput) (e : RDS.DBClusterEndpoint)
    (rest : list (option RDS.DBClusterEndpoint)) (status : string) :
  RDS.DescribeDBClusterEndpoints conn n id = (Some r, None) →
  RDS.DBClusterEndpoints r = Some (Some e :: rest) →
  RDS.Status e = Some status →
  RDS.DBClusterEndpointStateRefreshFunc conn id n
  = Ret (Some (RDS.OfEndpoint e), status, None).
Proof.
  intros Hcall Hlist Hstatus. unfold RDS.DBClusterEndpointStateRefreshFunc.
  rewrite Hcall, Hlist. simpl. rewrite Hstatus. reflexivity.
Qed.

(** C4. In both wait configurations of the file, the pending, the target and
    the failure states are pairwise disjoint: the create waiter has pending
    "creating" and target "available", the delete waiter has pending
    "available" and "deleting" and target "destroyed", and neither declares a
    failure state. *)
Theorem cluster_endpoint_wait_states_disjoint
    (timeout : Z) (id : string) (conn : RDS.Conn) :
  let create := RDS.availableStateConf timeout id conn in
  let delete := RDS.destroyStateConf timeout id conn in
  (Resource.Pending create = ["creating"]
   ∧ Resource.Target create = ["available"]
   ∧ Resource.Failure create = [])
  ∧ (Resource.Pending delete = ["available"; "deleting"]
     ∧ Resource.Target delete = ["destroyed"]
     ∧ Resource.Failure delete = [])
  ∧ ∀ conf, conf = create ∨ conf = delete →
      Resource.Pending conf ## Resource.Target conf
      ∧ Resource.Pending conf ## Resource.Failure conf
      ∧ Resource.Target conf ## Resource.Failure conf.
Proof.
  intros create delete. split_and!; try reflexivity.
  intros conf [-> | ->]; simpl; split_and!; intros label;
    rewrite ?elem_of_cons, ?elem_of_nil; intros Hp Ht;
    intuition (subst; discriminate).
Qed.

(** C5, as the code has it. A wait that asks for a single occurrence of the
    target state ([ContinuousTargetOccurence] unset or 1), whose refresh
    function reports a target state at the first call (with a snapshot and no
    error), and whose timeout is positive and exceeds its delay, succeeds at
    the first poll and has waited for its initial delay only: for nothing when
    the delay is zero or less. The create and the delete waiter of the RDS
    cluster endpoint ask for a single occurrence and set a delay of 5
    seconds, and so, with a timeout above 5 seconds, wait 5 seconds, once,
    before the first poll. *)
Theorem wait_on_immediate_target_sleeps_delay_only :
  (∀ (T : Type) (conf : Resource.StateChangeConf T) (fuel : nat)
     (snap : T) (label : string),
      Resource.Refresh conf 0 = Ret (Some snap, label, None) →
      label ∈ Resource.Target conf →
      Resource.ContinuousTargetOccurence conf = 0%Z
      ∨ Resource.ContinuousTargetOccurence conf = 1%Z →
      (Z.max 0 (Resource.Delay conf) < Resource.Timeout conf)%Z →
      Resource.WaitForState (S fuel) conf
      = Some (Ret {| Resource.result := Some snap; Resource.err := None;
                     Resource.slept :=
                       if (0 <? Resource.Delay conf)%Z then [Resource.Delay conf]
                       else [];
                     Resource.polls := 1 |}))
  ∧ (∀ (fuel : nat) (timeout : Z) (id : string) (conn : RDS.Conn)
       (r : RDS.DescribeDBClusterEndpointsOutput) (e : RDS.DBClusterEndpoint)
       (rest : list (option RDS.DBClusterEndpoint)),
        RDS.DescribeDBClusterEndpoints conn 0 id = (Some r, None) →
        RDS.DBClusterEndpoints r = Some (Some e :: rest) →
        RDS.Status e = Some "available" →
        (5 * Second < timeout)%Z →
        RDS.resourceAwsRDSClusterEndpointWaitForAvailable (S fuel) timeout id conn
        = Some (Ret (None, [(5 * Second)%Z])))
  ∧ (∀ (fuel : nat) (timeout : Z) (id : string) (conn : RDS.Conn)
       (r : RDS.DescribeDBClusterEndpointsOutput),
        RDS.DescribeDBClusterEndpoints conn 0 id = (Some r, None) →
        len (RDS.DBClusterEndpoints r) = 0 →
        (5 * Second < timeout)%Z →
        RDS.resourceAwsRDSClusterEndpointWaitForDestroy (S fuel) timeout id conn
        = Some (Ret (None, [(5 * Second)%Z]))).
Proof.
  split_and!.
  - intros T conf fuel snap label Hrefresh Hin Hcont Hlt.
    by apply (WaitForState_first_poll conf fuel snap label).
  - intros fuel timeout id conn r e rest Hcall Hlist Hstatus Hlt.
    unfold RDS.resourceAwsRDSClusterEndpointWaitForAvailable.
    rewrite (WaitForState_first_poll _ fuel (RDS.OfEndpoint e) "available"); simpl.
    + reflexivity.
    + eapply refresh_first_endpoint; eauto.
    + set_solver.
    + by left.
    + exact Hlt.
  - intros fuel timeout id conn r Hcall Hlen Hlt.
    unfold RDS.resourceAwsRDSClusterEndpointWaitForDestroy.
    rewrite (WaitForState_first_poll _ fuel (RDS.OfOutput RDS.emptyResp) "destroyed");
      simpl.
    + reflexivity.
    + eapply refresh_no_endpoints; eauto.
    + set_solver.
    + by left.
    + exact Hlt.
Qed.

Lemma wait_on_immediate_target_sleeps_delay_only_witness :
  RDS.createWait 1 (fresh "ep") rdsAvailable = Some (Ret (None, [(5 * Second)%Z])).
Proof.
  apply (proj1 (proj2 wait_on_immediate_target_sleeps_delay_only)
           0%nat RDS.AWSRDSClusterEndpointCreateTimeout "ep" rdsAvailable
           {| RDS.DBClusterEndpoints := Some [Some (endpointWithStatus "available")];
              RDS.Marker := None |}
           (endpointWithStatus "available") []).
  - reflexivity.
  - reflexivity.
  - reflexivity.
  - reflexivity.
Defined.

(** C5, as stated, fails on the create waiter: its refresh function reports
    the target state "available" at the first call, and the wait still sits
    through the 5 seconds of [Delay] before that call. *)
Lemma create_waiter_sleeps_before_first_poll :
  let conf :=
    RDS.availableStateConf RDS.AWSRDSClusterEndpointCreateTimeout "ep" rdsAvailable in
  (∃ snap label,
      Resource.Refresh conf 0 = Ret (Some snap, label, None)
      ∧ label ∈ Resource.Target conf)
  ∧ (∀ fuel, ∃ w,
        Resource.WaitForState (S fuel) conf = Some (Ret w)
        ∧ Resource.err w = None
        ∧ Resource.slept w = [5000000000%Z])
  ∧ ¬ (∃ fuel w,
          Resource.WaitForState fuel conf = Some (Ret w)
          ∧ Resource.err w = None
          ∧ Resource.slept w = []).
Proof.
  intros conf.
  assert (∀ fuel, Resource.WaitForState (S fuel) conf
                  = Some (Ret {| Resource.result :=
                                   Some (RDS.OfEndpoint (endpointWithStatus "available"));
                                 Resource.err := None;
                                 Resource.slept := [5000000000%Z];
                                 Resource.polls := 1 |})) as Hrun.
  { intros fuel.
    rewrite (WaitForState_first_poll conf fuel
               (RDS.OfEndpoint (endpointWithStatus "available")) "available");
      [reflexivity|reflexivity|set_solver|by left|reflexivity]. }
  split_and!.
  - exists (RDS.OfEndpoint (endpointWithStatus "available")), "available".
    split; [reflexivity|set_solver].
  - intros fuel. eexists. split; [apply Hrun|]. split; reflexivity.
  - intros (fuel & w & Hw & _ & Hslept). destruct fuel as [|fuel].
    + discriminate Hw.
    + rewrite Hrun in Hw. injection Hw as <-. discriminate Hslept.
Qed.




(** ** The EFS status functions *)

Section EFSStatus.
Import Resource EFS.

Lemma noFirst_cases {O A : Type} (list : O → slice (ptr A)) (output : option O) :
  noFirst list output
  ∨ ∃ o mt rest, output = Some o ∧ list o = Some (Some mt :: rest).
Proof.
  destruct output as [o|]; [|by left; left].
  destruct (list o) as [[|[mt|] rest]|] eqn:Hlist.
  - left. right. exists o. split; [done|]. left. by rewrite Hlist.
  - right. eauto.
  - left. right. exists o. split; [done|]. right. eauto.
  - left. right. exists o. split; [done|]. left. by rewrite Hlist.
Qed.

Variables (conn : Conn) (id : string).

Lemma statusAccessPointLifeCycleState_sentinel output err :
  DescribeAccessPoints conn id = (output, err) →
  statusAccessPointLifeCycleState conn id = Ret (None, "", None)
  ↔ err = None ∧ noFirst AccessPoints output.
Proof.
  intros Hcall. unfold statusAccessPointLifeCycleState. rewrite Hcall.
  destruct err as [e|]; [split; [intros [=]|intros [[=] _]]|].
  destruct (noFirst_cases AccessPoints output)
    as [Habsent|(o & mt & rest & -> & Hlist)].
  - split; [done|intros _].
    destruct Habsent as [->|(o & -> & [Hlen|(rest & Hlist)])]; [done| |].
    + by rewrite Hlen.
    + by rewrite Hlist.
  - rewrite Hlist. simpl. split; [intros [=]|].
    intros [_ [[=]|(o' & [= <-] & [Hlen|(rest' & Hnil)])]].
    + by rewrite Hlist in Hlen.
    + rewrite Hlist in Hnil. by injection Hnil.
Qed.

Lemma statusFileSystemLifeCycleState_sentinel output err :
  DescribeFileSystems conn id = (output, err) →
  statusFileSystemLifeCycleState conn id = Ret (None, "", None)
  ↔ err = None ∧ noFirst FileSystems output.
Proof.
  intros Hcall. unfold statusFileSystemLifeCycleState. rewrite Hcall.
  destruct err as [e|]; [split; [intros [=]|intros [[=] _]]|].
  destruct (noFirst_cases FileSystems output)
    as [Habsent|(o & mt & rest & -> & Hlist)].
  - split; [done|intros _].
    destruct Habsent as [->|(o & -> & [Hlen|(rest & Hlist)])]; [done| |].
    + by rewrite Hlen.
    + by rewrite Hlist.
  - rewrite Hlist. simpl. split; [intros [=]|].
    intros [_ [[=]|(o' & [= <-] & [Hlen|(rest' & Hnil)])]].
    + by rewrite Hlist in Hlen.
    + rewrite Hlist in Hnil. by injection Hnil.
Qed.

Variable findBackupPolicyByID : Conn → string → ptr BackupPolicy * option error.
Variable NotFound : option error → bool.

Lemma statusBackupPolicy_sentinel output err :
  findBackupPolicyByID conn id = (output, err) →
  statusBackupPolicy findBackupPolicyByID NotFound conn id = Ret (None, "", None)
  ↔ NotFound err = true.
Proof.
  intros Hcall. unfold statusBackupPolicy. rewrite Hcall.
  destruct (NotFound err); [done|].
  split; [|done]. destruct err; [intros [=]|].
  destruct output; intros [=].
Qed.

End EFSStatus.

(** C3, as the code has it. Each EFS status function returns the not-found
    sentinel (nil snapshot, empty label, nil error) exactly when the entity is
    absent: for the access point and the file system, when the describe call
    returned no error and its output is nil, has an empty list or a nil first
    element; for the backup policy, when the lookup error satisfies the
    NotFound predicate. An error of the describe call is returned with a nil
    snapshot and an empty label whatever the output is; otherwise the first
    element, or the policy found, is returned with its state and a nil
    error. *)
Theorem efs_status_sentinel_iff_absent
    (findBackupPolicyByID : EFS.Conn → string → option EFS.BackupPolicy * option error)
    (NotFound : option error → bool) (conn : EFS.Conn) (id : string) :
  (∀ output err,
      EFS.DescribeAccessPoints conn id = (output, err) →
      let status := EFS.statusAccessPointLifeCycleState conn id in
      (status = Ret (None, "", None) ↔ err = None ∧ noFirst EFS.AccessPoints output)
      ∧ (∀ e, err = Some e → status = Ret (None, "", Some e))
      ∧ (∀ o mt rest,
            err = None → output = Some o →
            EFS.AccessPoints o = Some (Some mt :: rest) →
            status = Ret (Some mt, StringValue (EFS.AccessPointLifeCycleState mt), None)))
  ∧ (∀ output err,
      EFS.DescribeFileSystems conn id = (output, err) →
      let status := EFS.statusFileSystemLifeCycleState conn id in
      (status = Ret (None, "", None) ↔ err = None ∧ noFirst EFS.FileSystems output)
      ∧ (∀ e, err = Some e → status = Ret (None, "", Some e))
      ∧ (∀ o mt rest,
            err = None → output = Some o →
            EFS.FileSystems o = Some (Some mt :: rest) →
            status = Ret (Some mt, StringValue (EFS.FileSystemLifeCycleState mt), None)))
  ∧ (∀ output err,
      findBackupPolicyByID conn id = (output, err) →
      let status := EFS.statusBackupPolicy findBackupPolicyByID NotFound conn id in
      (status = Ret (None, "", None) ↔ NotFound err = true)
      ∧ (∀ e, NotFound err = false → err = Some e → status = Ret (None, "", Some e))
      ∧ (∀ o, NotFound err = false → err = None → output = Some o →
              status = Ret (Some o, StringValue (EFS.Status o), None))).
Proof.
  split_and!; intros output err Hcall status; split_and!.
  - by apply statusAccessPointLifeCycleState_sentinel.
  - intros e ->. subst status. unfold EFS.statusAccessPointLifeCycleState.
    by rewrite Hcall.
  - intros o mt rest -> -> Hlist. subst status.
    unfold EFS.statusAccessPointLifeCycleState. by rewrite Hcall, Hlist.
  - by apply statusFileSystemLifeCycleState_sentinel.
  - intros e ->. subst status. unfold EFS.statusFileSystemLifeCycleState.
    by rewrite Hcall.
  - intros o mt rest -> -> Hlist. subst status.
    unfold EFS.statusFileSystemLifeCycleState. by rewrite Hcall, Hlist.
  - by eapply statusBackupPolicy_sentinel.
  - intros e Hnf ->. subst status. unfold EFS.statusBackupPolicy.
    by rewrite Hcall, Hnf.
  - intros o Hnf -> ->. subst status. unfold EFS.statusBackupPolicy.
    by rewrite Hcall, Hnf.
Qed.

Lemma efs_status_sentinel_iff_absent_witness :
  EFS.statusFileSystemLifeCycleState efsEmpty "fs-1" = Ret (None, "", None)
  ∧ EFS.statusBackupPolicy
      (λ _ _, (None, Some (NotFoundError 0))) isNotFoundError efsEmpty "fs-1"
    = Ret (None, "", None).
Proof.
  split.
  - apply (proj1 (proj2 (efs_status_sentinel_iff_absent
             (λ _ _, (None, Some (NotFoundError 0))) isNotFoundError efsEmpty "fs-1"))
             (Some {| EFS.FileSystems := Some [] |}) None eq_refl).
    split; [reflexivity|]. right. eexists. split; [reflexivity|]. left. reflexivity.
  - apply (proj2 (proj2 (efs_status_sentinel_iff_absent
             (λ _ _, (None, Some (NotFoundError 0))) isNotFoundError efsEmpty "fs-1"))
             None (Some (NotFoundError 0)) eq_refl).
    reflexivity.
Defined.

(** C3, as stated, fails when the describe call returns an error together
    with an output that has no first element: the output "has an empty list",
    and the function returns the error, not the sentinel. *)
Lemma access_point_status_error_beats_empty_output :
  EFS.DescribeAccessPoints efsThrottled "fsap-1"
  = (Some {| EFS.AccessPoints := None |},
     Some (AwsError "ThrottlingException" "Rate exceeded"))
  ∧ noFirst EFS.AccessPoints (Some {| EFS.AccessPoints := None |})
  ∧ EFS.statusAccessPointLifeCycleState efsThrottled "fsap-1"
    = Ret (None, "", Some (AwsError "ThrottlingException" "Rate exceeded"))
  ∧ EFS.statusAccessPointLifeCycleState efsThrottled "fsap-1" ≠ Ret (None, "", None).
Proof.
  split_and!; [reflexivity| |reflexivity|discriminate].
  right. eexists. split; [reflexivity|]. left. reflexivity.
Qed.

(** ** Deletes that find nothing to delete *)

(** C7. A delete that the service answers with not-found returns nil, just as
    a delete that went through: the event bus delete on
    ResourceNotFoundException, the route table association delete on the
    not-found code of the association ID (and then without waiting for the
    deletion). *)
Theorem delete_not_found_is_success :
  (∀ (d : Schema.ResourceData) (conn : CloudWatchEvents.Conn) (e : error)
     (message : string),
      CloudWatchEvents.DeleteEventBus conn (Schema.Id d) = Some e →
      asAwsErr e = Some (CloudWatchEvents.ErrCodeResourceNotFoundException, message) →
      CloudWatchEvents.resourceAwsCloudWatchEventBusDelete d conn = None)
  ∧ (∀ (d : Schema.ResourceData) (conn : CloudWatchEvents.Conn),
      CloudWatchEvents.DeleteEventBus conn (Schema.Id d) = None →
      CloudWatchEvents.resourceAwsCloudWatchEventBusDelete d conn = None)
  ∧ (∀ (code : string) (wait : EC2.Conn → string → option error)
       (conn : EC2.Conn) (associationID : string) (e : error) (message : string),
      EC2.DisassociateRouteTable conn associationID = Some e →
      asAwsErr e = Some (code, message) →
      EC2.ec2RouteTableAssociationDelete code wait conn associationID = None)
  ∧ (∀ (code : string) (wait : EC2.Conn → string → option error)
       (conn : EC2.Conn) (associationID : string),
      EC2.DisassociateRouteTable conn associationID = None →
      EC2.ec2RouteTableAssociationDelete code wait conn associationID
      = match wait conn associationID with
        | Some e =>
            Some (Errorf "error waiting for Route Table Association (%s) delete: %w"
                    [associationID] (Some e))
        | None => None
        end).
Proof.
  split_and!.
  - intros d conn e message Hcall Hcode.
    unfold CloudWatchEvents.resourceAwsCloudWatchEventBusDelete. rewrite Hcall.
    assert (ErrMessageContains (Some e)
              CloudWatchEvents.ErrCodeResourceNotFoundException "" = true) as ->
      by (apply ErrMessageContains_any_message; eauto).
    reflexivity.
  - intros d conn Hcall.
    unfold CloudWatchEvents.resourceAwsCloudWatchEventBusDelete. by rewrite Hcall.
  - intros code wait conn associationID e message Hcall Hcode.
    unfold EC2.ec2RouteTableAssociationDelete. rewrite Hcall.
    assert (ErrCodeEquals (Some e) code = true) as ->
      by (apply ErrCodeEquals_spec; eauto).
    reflexivity.
  - intros code wait conn associationID Hcall.
    unfold EC2.ec2RouteTableAssociationDelete. by rewrite Hcall.
Qed.

Lemma delete_not_found_is_success_witness :
  EC2.ec2RouteTableAssociationDelete "InvalidAssociationID.NotFound"
    (λ _ _, Some (ErrorString "never asked"))
    {| EC2.DisassociateRouteTable := λ _,
         Some (AwsError "InvalidAssociationID.NotFound" "does not exist") |}
    "rtbassoc-1"
  = None.
Proof.
  apply (proj1 (proj2 (proj2 delete_not_found_is_success))
           "InvalidAssociationID.NotFound" (λ _ _, Some (ErrorString "never asked"))
           {| EC2.DisassociateRouteTable := λ _,
                Some (AwsError "InvalidAssociationID.NotFound" "does not exist") |}
           "rtbassoc-1" (AwsError "InvalidAssociationID.NotFound" "does not exist")
           "does not exist").
  - reflexivity.
  - reflexivity.
Defined.

(** ** The importer of the route table association *)

Section RouteTableImport.
Import EC2.

Variable findRouteTableByID : Conn → string → option RouteTable * option error.

Lemma importLoop_none associations targetID d :
  Forall (passedOver targetID) associations →
  importLoop associations targetID d = Ret (d, EmptyString).
Proof.
  induction 1 as [|p rest (a & -> & Hno) _ IH]; [reflexivity|]. simpl.
  destruct (String.eqb_spec (StringValue (SubnetId a)) targetID) as [Heq|_].
  { destruct Hno. by left. }
  destruct (String.eqb_spec (StringValue (GatewayId a)) targetID) as [Heq|_].
  { destruct Hno. by right. }
  exact IH.
Qed.

Lemma importLoop_first pre a post targetID d :
  Forall (passedOver targetID) pre →
  targets targetID a →
  importLoop (pre ++ Some a :: post) targetID d
  = Ret (Schema.Set_ (matchedKey targetID a) targetID d,
         StringValue (RouteTableAssociationId a)).
Proof.
  intros Hpre Ha. induction Hpre as [|p rest (b & -> & Hno) _ IH]; simpl.
  - unfold matchedKey.
    destruct (String.eqb_spec (StringValue (SubnetId a)) targetID) as [|Hsub];
      [reflexivity|].
    destruct (String.eqb_spec (StringValue (GatewayId a)) targetID) as [|Hgw];
      [reflexivity|].
    by destruct Ha.
  - destruct (String.eqb_spec (StringValue (SubnetId b)) targetID) as [Heq|_].
    { destruct Hno. by left. }
    destruct (String.eqb_spec (StringValue (GatewayId b)) targetID) as [Heq|_].
    { destruct Hno. by right. }
    exact IH.
Qed.

Lemma import_bad_format d conn :
  length (Split (Schema.Id d) "/") ≠ 2 →
  resourceAwsRouteTableAssociationImport findRouteTableByID d conn
  = Ret (d, Some [],
         Some (Errorf
           "Unexpected format for import: %s. Use 'subnet ID/route table ID' or 'gateway ID/route table ID"
           [Schema.Id d] None)).
Proof.
  intros Hlen. unfold resourceAwsRouteTableAssociationImport.
  destruct (Split (Schema.Id d) "/") as [|? [|? [|? ?]]]; try reflexivity.
  by destruct Hlen.
Qed.

End RouteTableImport.

(** C10, as the code has it. The importer returns an error when the import
    identifier does not split on "/" into exactly two parts, when the route
    table lookup fails, when no association of the route table has a subnet or
    gateway ID equal to the first part, and also when the first association
    that has one carries a nil or empty association ID. Otherwise it sets the
    resource ID to the association ID of the first matching association
    (subnet before gateway within each association), sets route_table_id to
    the second part, and sets one of subnet_id and gateway_id, according to
    the field that matched, leaving every other attribute as it was. *)
Theorem route_table_association_import_outcomes
    (findRouteTableByID : EC2.Conn → string → option EC2.RouteTable * option error)
    (d : Schema.ResourceData) (conn : EC2.Conn) :
  let import := EC2.resourceAwsRouteTableAssociationImport findRouteTableByID d conn in
  (length (Split (Schema.Id d) "/") ≠ 2 →
   ∃ e, import = Ret (d, Some [], Some e))
  ∧ ∀ targetID routeTableID,
      Split (Schema.Id d) "/" = [targetID; routeTableID] →
      (∀ routeTable e,
          findRouteTableByID conn routeTableID = (routeTable, Some e) →
          import = Ret (d, None, Some e))
      ∧ ∀ routeTable,
          findRouteTableByID conn routeTableID = (Some routeTable, None) →
          (Forall (passedOver targetID) (range (EC2.Associations routeTable)) →
           ∃ e, import = Ret (d, None, Some e))
          ∧ ∀ pre a post,
              range (EC2.Associations routeTable) = pre ++ Some a :: post →
              Forall (passedOver targetID) pre →
              targets targetID a →
              let key := matchedKey targetID a in
              let associationID := StringValue (EC2.RouteTableAssociationId a) in
              let d' :=
                Schema.Set_ "route_table_id" routeTableID
                  (Schema.SetId associationID (Schema.Set_ key targetID d)) in
              (key = "subnet_id" ∨ key = "gateway_id")
              ∧ (key = "subnet_id" ↔ StringValue (EC2.SubnetId a) = targetID)
              ∧ (associationID = "" →
                 ∃ e, import = Ret (Schema.Set_ key targetID d, None, Some e))
              ∧ (associationID ≠ "" →
                 import = Ret (d', Some [d'], None)
                 ∧ Schema.Id d' = associationID
                 ∧ Schema.attrs d' !! "route_table_id" = Some routeTableID
                 ∧ Schema.attrs d' !! key = Some targetID
                 ∧ ∀ other, other ≠ key → other ≠ "route_table_id" →
                     Schema.attrs d' !! other = Schema.attrs d !! other).
Proof.
  intros import. split.
  { intros Hlen. eexists. by apply import_bad_format. }
  intros targetID routeTableID Hsplit. subst import.
  unfold EC2.resourceAwsRouteTableAssociationImport. rewrite Hsplit. split.
  { intros routeTable e ->. reflexivity. }
  intros routeTable ->. split.
  { intros Hnone. simpl. rewrite importLoop_none by done. simpl. eauto. }
  intros pre a post Hlist Hpre Ha.
  simpl. rewrite Hlist, importLoop_first by done. simpl.
  set (key := matchedKey targetID a).
  set (associationID := StringValue (EC2.RouteTableAssociationId a)).
  set (d' := Schema.Set_ "route_table_id" routeTableID
               (Schema.SetId associationID (Schema.Set_ key targetID d))).
  split_and!.
  - subst key. unfold matchedKey. destruct (String.eqb _ _); auto.
  - subst key. unfold matchedKey.
    destruct (String.eqb_spec (StringValue (EC2.SubnetId a)) targetID); by split.
  - intros ->. simpl. eauto.
  - intros Hne. apply String.eqb_neq in Hne. rewrite Hne. split_and!.
    + reflexivity.
    + reflexivity.
    + subst d'. simpl. by rewrite lookup_insert_eq.
    + subst d'. simpl.
      destruct (decide (key = "route_table_id")) as [Hk|Hk].
      * exfalso. revert Hk. subst key. unfold matchedKey.
        destruct (String.eqb (StringValue (EC2.SubnetId a)) targetID); intros [=].
      * rewrite lookup_insert_ne by done. by rewrite lookup_insert_eq.
    + intros other Hkey Hrt. subst d'. simpl.
      rewrite lookup_insert_ne by done. by rewrite lookup_insert_ne.
Qed.

Lemma route_table_association_import_outcomes_witness :
  let d' :=
    Schema.Set_ "route_table_id" "rtb-1"
      (Schema.SetId "rtbassoc-2" (Schema.Set_ "gateway_id" "igw-1" (fresh "igw-1/rtb-1"))) in
  EC2.resourceAwsRouteTableAssociationImport
    (finding [subnetAssociation; gatewayAssociation]) (fresh "igw-1/rtb-1") ec2Conn
  = Ret (d', Some [d'], None).
Proof.
  refine (proj1 (proj2 (proj2 (proj2 (proj2 (proj2 (proj2
    (route_table_association_import_outcomes
       (finding [subnetAssociation; gatewayAssociation]) (fresh "igw-1/rtb-1") ec2Conn)
    "igw-1" "rtb-1" eq_refl)
    {| EC2.Associations := Some [Some subnetAssociation; Some gatewayAssociation] |}
    eq_refl)
    [Some subnetAssociation] gatewayAssociation [] eq_refl _ _))) _)).
  - constructor; [|constructor]. exists subnetAssociation. split; [reflexivity|].
    intros [[=]|[=]].
  - right. reflexivity.
  - discriminate.
Defined.

(** C10, as stated, fails on an association that matches and has no
    association ID: the identifier splits in two, the lookup succeeds, the
    first association has the subnet of the first part, and the importer
    returns the error of the not-found case, after it has set subnet_id. *)
Lemma import_matching_association_without_id :
  let d := fresh "subnet-1/rtb-1" in
  Split (Schema.Id d) "/" = ["subnet-1"; "rtb-1"]
  ∧ finding [anonymousAssociation] ec2Conn "rtb-1"
    = (Some {| EC2.Associations := Some [Some anonymousAssociation] |}, None)
  ∧ StringValue (EC2.SubnetId anonymousAssociation) = "subnet-1"
  ∧ EC2.resourceAwsRouteTableAssociationImport (finding [anonymousAssociation]) d ec2Conn
    = Ret (Schema.Set_ "subnet_id" "subnet-1" d, None,
           Some (Errorf
             "No association found between route table ID %s and target ID %s"
             ["rtb-1"; "subnet-1"] None)).
Proof. intros d. split_and!; reflexivity. Qed.

(** ** [sort.Strings] and [stringSlicesEqualIgnoreOrder] *)

Section StringOrder.
Import Sort.

Lemma leb_String_cases (x y : ascii) (a b : string) :
  String.leb (String x a) (String y b) = true ↔
  (N_of_ascii x < N_of_ascii y)%N
  ∨ (N_of_ascii x = N_of_ascii y ∧ String.leb a b = true).
Proof.
  unfold String.leb. simpl. unfold Ascii.compare.
  destruct (N.compare_spec (N_of_ascii x) (N_of_ascii y)) as [Heq|Hlt|Hgt].
  - split; [by right|]. intros [?|[_ ?]]; [lia|done].
  - split; [by left|done].
  - split; [done|]. intros [?|[? _]]; lia.
Qed.

Lemma leb_trans (a b c : string) :
  String.leb a b = true → String.leb b c = true → String.leb a c = true.
Proof.
  revert b c. induction a as [|x a IH]; intros b c Hab Hbc.
  - by destruct c.
  - destruct b as [|y b]; [done|]. destruct c as [|z c]; [done|].
    apply leb_String_cases in Hab, Hbc. apply leb_String_cases.
    destruct Hab as [?|[? Hab]], Hbc as [?|[? Hbc]]; [left; lia..|].
    right. split; [congruence|]. by apply (IH b).
Qed.

#[local] Instance string_le_total : Total string_le.
Proof.
  intros a b. unfold string_le.
  destruct (String.leb_total a b) as [->| ->]; [by left|by right].
Qed.

#[local] Instance string_le_trans : Transitive string_le.
Proof.
  intros a b c Hab Hbc. unfold string_le in *.
  apply Is_true_true in Hab, Hbc. apply Is_true_true. by apply (leb_trans a b).
Qed.

#[local] Instance string_le_antisym : AntiSymm (=) string_le.
Proof.
  intros a b Hab Hba. unfold string_le in *.
  apply Is_true_true in Hab, Hba. by apply String.leb_antisym.
Qed.

Lemma Strings_sorted (l : list string) : Sorted string_le (Strings l).
Proof. apply Sorted_merge_sort. apply _. Qed.

Lemma Strings_Permutation (l : list string) : Strings l ≡ₚ l.
Proof. apply merge_sort_Permutation. Qed.

(** Sorting forgets the order: two slices sort to the same slice exactly
    when they hold the same strings the same number of times. *)
Lemma Strings_eq_iff (l k : list string) : Strings l = Strings k ↔ l ≡ₚ k.
Proof.
  split.
  - intros Heq. by rewrite <-(Strings_Permutation l), Heq, Strings_Permutation.
  - intros Hperm. apply (Sorted_unique string_le); [apply Strings_sorted..|].
    by rewrite !Strings_Permutation.
Qed.

End StringOrder.

(** C9. [stringSlicesEqualIgnoreOrder] is true exactly when its arguments
    have the same length and the same multiset of string values (a nil pointer
    reading as the empty string); hence it is symmetric, and does not change
    when either argument is permuted. *)
Theorem stringSlicesEqualIgnoreOrder_multiset_equality
    (s1 s2 : slice (option string)) :
  (LakeFormation.stringSlicesEqualIgnoreOrder s1 s2 = true
   ↔ len s1 = len s2 ∧ StringValueSlice s1 ≡ₚ StringValueSlice s2)
  ∧ LakeFormation.stringSlicesEqualIgnoreOrder s1 s2
    = LakeFormation.stringSlicesEqualIgnoreOrder s2 s1
  ∧ ∀ s1' s2' : slice (option string),
      range s1 ≡ₚ range s1' → range s2 ≡ₚ range s2' →
      LakeFormation.stringSlicesEqualIgnoreOrder s1 s2
      = LakeFormation.stringSlicesEqualIgnoreOrder s1' s2'.
Proof.
  assert (∀ a b : slice (option string),
            LakeFormation.stringSlicesEqualIgnoreOrder a b = true
            ↔ len a = len b ∧ StringValueSlice a ≡ₚ StringValueSlice b) as Hiff.
  { intros a b. unfold LakeFormation.stringSlicesEqualIgnoreOrder.
    destruct (Nat.eqb_spec (len a) (len b)) as [Hlen|Hlen]; simpl.
    - rewrite bool_decide_eq_true, Strings_eq_iff. by split; [|intros [_ ?]].
    - split; [done|by intros [? _]]. }
  assert (∀ a b a' b' : slice (option string),
            range a ≡ₚ range a' → range b ≡ₚ range b' →
            LakeFormation.stringSlicesEqualIgnoreOrder a b = true →
            LakeFormation.stringSlicesEqualIgnoreOrder a' b' = true) as Hmono.
  { intros a b a' b' Ha Hb. rewrite !Hiff. unfold len, StringValueSlice.
    by rewrite <-Ha, <-Hb. }
  split_and!.
  - apply Hiff.
  - apply eq_true_iff_eq. rewrite !Hiff.
    split; intros [Hlen Hperm]; by split.
  - intros s1' s2' H1 H2. apply eq_true_iff_eq. split; apply Hmono; done.
Qed.

Example stringSlicesEqualIgnoreOrder_reordered :
  LakeFormation.stringSlicesEqualIgnoreOrder
    (Some [Some "b"; None; Some "a"]) (Some [Some "a"; Some "b"; Some ""]) = true
  ∧ LakeFormation.stringSlicesEqualIgnoreOrder
      (Some [Some "a"; Some "a"; Some "b"]) (Some [Some "a"; Some "b"; Some "b"]) = false
  ∧ LakeFormation.stringSlicesEqualIgnoreOrder None (Some []) = true.
Proof. split_and!; vm_compute; reflexivity. Qed.

(** ** The permission filters *)

Section Filters.
Import LakeFormation.

(** What a loop adds to [cleanPermissions]: elements of [allPermissions], in
    their order, each at most as often as it occurs there, and only those the
    body keeps. *)
Lemma filterLoop_kept keep allPermissions cleanPermissions res :
  filterLoop keep allPermissions cleanPermissions = Ret res →
  ∃ kept,
    range res = range cleanPermissions ++ kept
    ∧ kept `sublist_of` allPermissions
    ∧ Forall (λ perm, keep perm = Ret true) kept.
Proof.
  revert cleanPermissions.
  induction allPermissions as [|perm rest IH]; intros cleanPermissions Hloop.
  - injection Hloop as <-. exists []. by rewrite app_nil_r.
  - simpl in Hloop. destruct (keep perm) as [[|]|] eqn:Hkeep; simpl in Hloop.
    + apply IH in Hloop as (kept & Hres & Hsub & Hall).
      exists (perm :: kept). split_and!.
      * rewrite Hres. unfold append. simpl. by rewrite <-app_assoc.
      * by constructor.
      * by constructor.
    + apply IH in Hloop as (kept & Hres & Hsub & Hall).
      exists kept. split_and!; [done| |done]. by constructor.
    + discriminate.
Qed.

(** Every loop body keeps a permission only after the principal test. *)
Lemma samePrincipal_kept principal perm
    (body : PrincipalResourcePermissions.t → outcome bool) :
  ('(same, p) ← samePrincipal principal perm;
   if negb (same : bool) then Ret false else body p) = Ret true →
  principalIs principal perm.
Proof.
  unfold samePrincipal. destruct perm as [p|]; [|discriminate]. simpl.
  destruct (PrincipalResourcePermissions.Principal p) as [pr|] eqn:Hpr;
    [|discriminate]. simpl.
  destruct (String.eqb_spec (StringValue principal)
              (StringValue (DataLakePrincipalIdentifier pr))) as [Heq|_];
    [|discriminate].
  intros _. exists p, pr. by split_and!.
Qed.

Lemma filterLoop_filtered principal allPermissions res
    (body : PrincipalResourcePermissions.t → outcome bool) :
  filterLoop (λ perm,
    '(same, p) ← samePrincipal principal perm;
    if negb (same : bool) then Ret false else body p) (range allPermissions) None
  = Ret res →
  range res `sublist_of` range allPermissions
  ∧ Forall (principalIs principal) (range res).
Proof.
  intros Hloop. apply filterLoop_kept in Hloop as (kept & -> & Hsub & Hall).
  simpl. split; [done|]. eapply Forall_impl; [exact Hall|].
  intros perm. apply samePrincipal_kept.
Qed.

End Filters.

(** The filters return when no pointer they follow is nil. *)
Section FiltersReturn.
Import LakeFormation.

Lemma filterLoop_returns keep allPermissions cleanPermissions :
  Forall (λ perm, ∃ b, keep perm = Ret b) allPermissions →
  ∃ res, filterLoop keep allPermissions cleanPermissions = Ret res.
Proof.
  intros Hall. revert cleanPermissions.
  induction Hall as [|perm rest [b Hb] _ IH]; intros cleanPermissions; simpl.
  - eauto.
  - rewrite Hb. simpl. apply IH.
Qed.

Ltac keep_returns Hall :=
  apply filterLoop_returns; eapply Forall_impl; [exact Hall|];
  let p := fresh "p" in
  let Hp := fresh "Hp" in
  let Hr := fresh "Hr" in
  intros ? (p & ? & ? & -> & Hp & Hr);
  unfold samePrincipal; simpl; rewrite Hp; simpl;
  match goal with |- context [negb ?b] => destruct b end; simpl;
  [|eexists; reflexivity]; rewrite Hr; simpl.

Lemma filterPermissions_returns
    (tableNameAllTables tableTypeTable tableTypeTableWithColumns : string)
    i r principal tableType columnNames excludedColumnNames columnWildcard
    allPermissions :
  ListPermissionsInput.Resource i = Some r →
  ListPermissionsInput.Principal i = Some principal →
  is_Some (Resource.Table r) →
  Forall wellFormed (range allPermissions) →
  ∃ res,
    filterPermissions tableNameAllTables tableTypeTable tableTypeTableWithColumns
      (Some i) tableType columnNames excludedColumnNames columnWildcard
      allPermissions = Ret res.
Proof.
  intros Hr Hpr [t Ht] Hall. unfold filterPermissions. simpl.
  rewrite Hr, Hpr. simpl.
  destruct (notNil (Resource.Catalog r)).
  { keep_returns Hall. eexists; reflexivity. }
  destruct (notNil (Resource.DataLocation r)).
  { keep_returns Hall. eexists; reflexivity. }
  destruct (notNil (Resource.Database r)).
  { keep_returns Hall. eexists; reflexivity. }
  destruct (String.eqb tableType tableTypeTableWithColumns).
  { keep_returns Hall. rewrite Ht.
    repeat (case_match; simpl); eexists; reflexivity. }
  destruct (notNil (Resource.Table r) || String.eqb tableType tableTypeTable).
  { keep_returns Hall. rewrite Ht. unfold tableSelect, tableItself. simpl.
    repeat (case_match; simpl); eexists; reflexivity. }
  eexists; reflexivity.
Qed.

End FiltersReturn.

(** C8. Whatever branch [filterPermissions] takes, the list it returns is a
    subsequence of [allPermissions] (its elements, in their order, none made
    up and none repeated), and the principal identifier of each of its
    elements reads as the principal identifier of the input. *)
Theorem filterPermissions_keeps_principal_in_order
    (tableNameAllTables tableTypeTable tableTypeTableWithColumns : string)
    (input : option LakeFormation.ListPermissionsInput.t) (tableType : string)
    (columnNames excludedColumnNames : slice (option string)) (columnWildcard : bool)
    (allPermissions res : slice (option LakeFormation.PrincipalResourcePermissions.t)) :
  LakeFormation.filterPermissions tableNameAllTables tableTypeTable
    tableTypeTableWithColumns input tableType columnNames excludedColumnNames
    columnWildcard allPermissions = Ret res →
  range res `sublist_of` range allPermissions
  ∧ Forall (λ perm,
      ∃ i principal,
        input = Some i
        ∧ LakeFormation.ListPermissionsInput.Principal i = Some principal
        ∧ principalIs (LakeFormation.DataLakePrincipalIdentifier principal) perm)
      (range res).
Proof.
  unfold LakeFormation.filterPermissions.
  destruct input as [i|]; [|discriminate]. simpl.
  destruct (LakeFormation.ListPermissionsInput.Resource i) as [r|]; [|discriminate].
  simpl.
  assert (∀ principal,
            LakeFormation.ListPermissionsInput.Principal i = Some principal →
            range res `sublist_of` range allPermissions
            ∧ Forall (principalIs (LakeFormation.DataLakePrincipalIdentifier principal))
                (range res) →
            range res `sublist_of` range allPermissions
            ∧ Forall (λ perm,
                ∃ i' principal',
                  Some i = Some i'
                  ∧ LakeFormation.ListPermissionsInput.Principal i' = Some principal'
                  ∧ principalIs
                      (LakeFormation.DataLakePrincipalIdentifier principal') perm)
                (range res)) as Hwrap.
  { intros principal Hpr [Hsub Hall]. split; [done|].
    eapply Forall_impl; [exact Hall|]. intros perm Hperm. by exists i, principal. }
  repeat match goal with
         | |- context [if ?b then _ else _] => destruct b
         end;
    try (destruct (LakeFormation.ListPermissionsInput.Principal i) as [principal|] eqn:Hpr;
         [|discriminate]; simpl; intros Hloop; apply (Hwrap principal eq_refl);
         eapply filterLoop_filtered; exact Hloop).
  intros [= <-]. simpl. split; [apply sublist_nil_l|constructor].
Qed.

Lemma filterPermissions_keeps_principal_in_order_witness :
  range (Some [permissionOf "alice" onCatalog; permissionOf "alice" onCatalog])
    `sublist_of` range listed.
Proof.
  apply (filterPermissions_keeps_principal_in_order "ALL_TABLES" "Table"
           "TableWithColumns" (catalogOf "alice") "" None None false listed
           (Some [permissionOf "alice" onCatalog; permissionOf "alice" onCatalog])).
  vm_compute. reflexivity.
Defined.

(** ** Runs of the wait loop *)

(** "creating", "creating", "available": three polls, after the delay and two
    waits of the backoff. *)
Example create_wait_third_poll :
  Resource.WaitForState 3
    (RDS.availableStateConf RDS.AWSRDSClusterEndpointCreateTimeout "ep" (rdsCreating 2))
  = Some (Ret {| Resource.result := Some (RDS.OfEndpoint (endpointWithStatus "available"));
                 Resource.err := None;
                 Resource.slept := [5 * Second; 3 * Second; 6 * Second]%Z;
                 Resource.polls := 3 |}).
Proof. vm_compute. reflexivity. Qed.

(** "deleting", then not found: the second poll reaches "destroyed". *)
Example delete_wait_not_found_on_second_poll :
  RDS.resourceAwsRDSClusterEndpointDelete 2 (fresh "ep") (rdsDeleting 1)
  = Some (Ret (None, [5 * Second; 3 * Second]%Z)).
Proof. vm_compute. reflexivity. Qed.

(** A state that is neither pending nor target stops the wait, and so does
    the deadline. *)
Example create_wait_unexpected_state :
  RDS.resourceAwsRDSClusterEndpointWaitForAvailable 1 (30 * Minute) "ep" (rdsDeleting 1)
  = Some (Ret (Some (Errorf "Error waiting for RDS Cluster Endpoint (%s) to be ready: %v"
                       ["ep"] (Some (UnexpectedStateError "deleting" ["available"]))),
               [5 * Second]%Z)).
Proof. vm_compute. reflexivity. Qed.

Example create_wait_times_out :
  RDS.resourceAwsRDSClusterEndpointWaitForAvailable 5 (10 * Second) "ep" (rdsCreating 9)
  = Some (Ret (Some (Errorf "Error waiting for RDS Cluster Endpoint (%s) to be ready: %v"
                       ["ep"] (Some (TimeoutError "creating" (10 * Second) ["available"]))),
               [5 * Second; 3 * Second]%Z)).
Proof. vm_compute. reflexivity. Qed.

(* ================================================================== *)
(** * Part III: more properties of the files *)
(* ================================================================== *)

(** ** The permission filters, continued *)

Section FilterLoops.
Import LakeFormation.

Lemma extend_app {A} (clean : slice A) (x : A) (kept : list A) :
  extend (append clean x) kept = extend clean (x :: kept).
Proof.
  unfold extend, append. destruct kept as [|y kept]; simpl.
  - reflexivity.
  - by rewrite <-app_assoc.
Qed.

(** The loop returns [cleanPermissions] extended with a subsequence of
    [allPermissions], each element of which the body keeps. *)
Lemma filterLoop_result keep allPermissions cleanPermissions res :
  filterLoop keep allPermissions cleanPermissions = Ret res →
  ∃ kept,
    res = extend cleanPermissions kept
    ∧ kept `sublist_of` allPermissions
    ∧ Forall (λ perm, keep perm = Ret true) kept.
Proof.
  revert cleanPermissions.
  induction allPermissions as [|perm rest IH]; intros cleanPermissions Hloop.
  - injection Hloop as <-. by exists [].
  - simpl in Hloop. destruct (keep perm) as [[|]|] eqn:Hkeep; simpl in Hloop.
    + apply IH in Hloop as (kept & -> & Hsub & Hall).
      exists (perm :: kept). split_and!; [apply extend_app|by constructor..].
    + apply IH in Hloop as (kept & -> & Hsub & Hall).
      exists kept. split_and!; [done| |done]. by constructor.
    + discriminate.
Qed.

(** On a list the body keeps entirely, the loop appends the whole list. *)
Lemma filterLoop_all_kept keep kept cleanPermissions :
  Forall (λ perm, keep perm = Ret true) kept →
  filterLoop keep kept cleanPermissions = Ret (extend cleanPermissions kept).
Proof.
  intros Hall. revert cleanPermissions.
  induction Hall as [|perm rest Hkeep _ IH]; intros cleanPermissions; simpl.
  - reflexivity.
  - rewrite Hkeep. simpl. rewrite IH. by rewrite extend_app.
Qed.

Lemma range_extend_nil {A} (kept : list A) : range (extend None kept) = kept.
Proof. by destruct kept. Qed.

Lemma filterLoop_idempotent keep allPermissions res :
  filterLoop keep (range allPermissions) None = Ret res →
  filterLoop keep (range res) None = Ret res.
Proof.
  intros Hloop. apply filterLoop_result in Hloop as (kept & -> & _ & Hall).
  rewrite range_extend_nil. by apply filterLoop_all_kept.
Qed.

(** When the body decides by a test that cannot panic on the list, the loop
    is the filter of the list by that test. *)
Lemma filterLoop_filter keep (test : option PrincipalResourcePermissions.t → bool)
    allPermissions cleanPermissions :
  Forall (λ perm, keep perm = Ret (test perm)) allPermissions →
  filterLoop keep allPermissions cleanPermissions
  = Ret (extend cleanPermissions (List.filter test allPermissions)).
Proof.
  intros Hall. revert cleanPermissions.
  induction Hall as [|perm rest Hkeep _ IH]; intros cleanPermissions; simpl.
  - reflexivity.
  - rewrite Hkeep. simpl. rewrite IH. destruct (test perm); [|reflexivity].
    by rewrite extend_app.
Qed.

Lemma filterLoop_ext keep keep' allPermissions cleanPermissions :
  (∀ perm, keep perm = keep' perm) →
  filterLoop keep allPermissions cleanPermissions
  = filterLoop keep' allPermissions cleanPermissions.
Proof.
  intros Hext. revert cleanPermissions.
  induction allPermissions as [|perm rest IH]; intros cleanPermissions; simpl.
  - reflexivity.
  - rewrite Hext. destruct (keep' perm) as [b|]; simpl; [apply IH|reflexivity].
Qed.

End FilterLoops.

Section FilterProperties.
Import LakeFormation.

Variables tableNameAllTables tableTypeTable tableTypeTableWithColumns : string.

Lemma filterLoop_none allPermissions
    (cleanPermissions : slice (option PrincipalResourcePermissions.t)) :
  filterLoop (λ _, Ret false) allPermissions cleanPermissions = Ret cleanPermissions.
Proof.
  induction allPermissions as [|perm rest IH]; simpl; [reflexivity|exact IH].
Qed.

(** Once the input is read, [filterPermissions] is one loop over
    [allPermissions], whatever that list is. *)
Lemma filterPermissions_loop input tableType columnNames excludedColumnNames
    columnWildcard allPermissions res :
  filterPermissions tableNameAllTables tableTypeTable tableTypeTableWithColumns
    input tableType columnNames excludedColumnNames columnWildcard allPermissions
  = Ret res →
  ∃ keep, ∀ allPermissions',
    filterPermissions tableNameAllTables tableTypeTable tableTypeTableWithColumns
      input tableType columnNames excludedColumnNames columnWildcard allPermissions'
    = filterLoop keep (range allPermissions') None.
Proof.
  unfold filterPermissions.
  destruct input as [i|]; [|discriminate]. simpl.
  destruct (ListPermissionsInput.Resource i) as [r|]; [|discriminate]. simpl.
  destruct (notNil (Resource.Catalog r)).
  { destruct (ListPermissionsInput.Principal i); [|discriminate]. simpl.
    intros _. eexists. intros all'. reflexivity. }
  destruct (notNil (Resource.DataLocation r)).
  { destruct (ListPermissionsInput.Principal i); [|discriminate]. simpl.
    intros _. eexists. intros all'. reflexivity. }
  destruct (notNil (Resource.Database r)).
  { destruct (ListPermissionsInput.Principal i); [|discriminate]. simpl.
    intros _. eexists. intros all'. reflexivity. }
  destruct (String.eqb tableType tableTypeTableWithColumns).
  { destruct (ListPermissionsInput.Principal i); [|discriminate]. simpl.
    intros _. eexists. intros all'. reflexivity. }
  destruct (notNil (Resource.Table r) || String.eqb tableType tableTypeTable).
  { destruct (ListPermissionsInput.Principal i); [|discriminate]. simpl.
    intros _. eexists. intros all'. reflexivity. }
  intros _. exists (λ _, Ret false). intros all'. by rewrite filterLoop_none.
Qed.

End FilterProperties.

Lemma stringSlicesEqualIgnoreOrder_iff (a b : slice (option string)) :
  LakeFormation.stringSlicesEqualIgnoreOrder a b = true
  ↔ len a = len b ∧ StringValueSlice a ≡ₚ StringValueSlice b.
Proof.
  unfold LakeFormation.stringSlicesEqualIgnoreOrder.
  destruct (Nat.eqb_spec (len a) (len b)) as [Hlen|Hlen]; simpl.
  - rewrite bool_decide_eq_true, Strings_eq_iff. by split; [|intros [_ ?]].
  - split; [done|by intros [? _]].
Qed.

Lemma stringSlicesEqualIgnoreOrder_Permutation (a b b' : slice (option string)) :
  range b ≡ₚ range b' →
  LakeFormation.stringSlicesEqualIgnoreOrder a b
  = LakeFormation.stringSlicesEqualIgnoreOrder a b'.
Proof.
  intros Hperm. apply eq_true_iff_eq.
  rewrite !stringSlicesEqualIgnoreOrder_iff. unfold len, StringValueSlice.
  by rewrite Hperm.
Qed.

(** X1. The catalog, data location and database filters return exactly the
    permissions of [allPermissions] that are listed for the principal on a
    resource of that kind, in their order; the result is the nil slice when
    there is none. (No permission, principal or resource pointer of the list
    being nil.) *)
Theorem simple_filters_select_by_principal_and_kind
    (principal : option string)
    (allPermissions : slice (option LakeFormation.PrincipalResourcePermissions.t)) :
  Forall wellFormed (range allPermissions) →
  LakeFormation.filterCatalogPermissions principal allPermissions
  = Ret (extend None
           (List.filter
              (listedFor principal (λ r, LakeFormation.notNil (LakeFormation.Resource.Catalog r)))
              (range allPermissions)))
  ∧ LakeFormation.filterDataLocationPermissions principal allPermissions
    = Ret (extend None
             (List.filter
                (listedFor principal
                   (λ r, LakeFormation.notNil (LakeFormation.Resource.DataLocation r)))
                (range allPermissions)))
  ∧ LakeFormation.filterDatabasePermissions principal allPermissions
    = Ret (extend None
             (List.filter
                (listedFor principal
                   (λ r, LakeFormation.notNil (LakeFormation.Resource.Database r)))
                (range allPermissions))).
Proof.
  intros Hwf.
  split_and!; apply filterLoop_filter; (eapply Forall_impl; [exact Hwf|]);
    intros perm (p & pr & r & -> & Hp & Hr);
    unfold LakeFormation.samePrincipal, listedFor; simpl; rewrite Hp, Hr; simpl;
    destruct (String.eqb _ _); simpl; rewrite ?Hr; reflexivity.
Qed.

Lemma simple_filters_select_by_principal_and_kind_witness :
  LakeFormation.filterCatalogPermissions (Some "alice") listed
  = Ret (Some [permissionOf "alice" onCatalog; permissionOf "alice" onCatalog])
  ∧ LakeFormation.filterDatabasePermissions (Some "bob") listed = Ret None.
Proof.
  split.
  - apply (simple_filters_select_by_principal_and_kind (Some "alice") listed).
    repeat constructor; do 3 eexists; split_and!; reflexivity.
  - apply (simple_filters_select_by_principal_and_kind (Some "bob") listed).
    repeat constructor; do 3 eexists; split_and!; reflexivity.
Defined.

(** X2. Filtering is idempotent: [filterPermissions] applied to its own
    result returns that result. *)
Theorem filterPermissions_idempotent
    (tableNameAllTables tableTypeTable tableTypeTableWithColumns : string)
    (input : option LakeFormation.ListPermissionsInput.t) (tableType : string)
    (columnNames excludedColumnNames : slice (option string)) (columnWildcard : bool)
    (allPermissions res : slice (option LakeFormation.PrincipalResourcePermissions.t)) :
  LakeFormation.filterPermissions tableNameAllTables tableTypeTable
    tableTypeTableWithColumns input tableType columnNames excludedColumnNames
    columnWildcard allPermissions = Ret res →
  LakeFormation.filterPermissions tableNameAllTables tableTypeTable
    tableTypeTableWithColumns input tableType columnNames excludedColumnNames
    columnWildcard res = Ret res.
Proof.
  intros Hres. destruct (filterPermissions_loop _ _ _ _ _ _ _ _ _ _ Hres) as [keep Hloop].
  rewrite Hloop in Hres |- *. by eapply filterLoop_idempotent.
Qed.

Lemma filterPermissions_idempotent_witness :
  LakeFormation.filterPermissions "ALL_TABLES" "Table" "TableWithColumns"
    (catalogOf "alice") "" None None false
    (Some [permissionOf "alice" onCatalog; permissionOf "alice" onCatalog])
  = Ret (Some [permissionOf "alice" onCatalog; permissionOf "alice" onCatalog]).
Proof.
  apply (filterPermissions_idempotent "ALL_TABLES" "Table" "TableWithColumns"
           (catalogOf "alice") "" None None false listed).
  vm_compute. reflexivity.
Defined.

(** X3. [filterPermissions] never returns an empty slice that is not nil:
    when no permission is kept the result is nil, and otherwise it has at
    least one element. *)
Theorem filterPermissions_nil_when_empty
    (tableNameAllTables tableTypeTable tableTypeTableWithColumns : string)
    (input : option LakeFormation.ListPermissionsInput.t) (tableType : string)
    (columnNames excludedColumnNames : slice (option string)) (columnWildcard : bool)
    (allPermissions res : slice (option LakeFormation.PrincipalResourcePermissions.t)) :
  LakeFormation.filterPermissions tableNameAllTables tableTypeTable
    tableTypeTableWithColumns input tableType columnNames excludedColumnNames
    columnWildcard allPermissions = Ret res →
  res ≠ Some [] ∧ (res = None ↔ len res = 0).
Proof.
  intros Hres. destruct (filterPermissions_loop _ _ _ _ _ _ _ _ _ _ Hres) as [keep Hloop].
  rewrite Hloop in Hres. apply filterLoop_result in Hres as (kept & -> & _ & _).
  destruct kept as [|perm kept]; simpl; split; try done.
Qed.

Lemma filterPermissions_nil_when_empty_witness :
  (None : slice (option LakeFormation.PrincipalResourcePermissions.t)) ≠ Some [].
Proof.
  apply (filterPermissions_nil_when_empty "ALL_TABLES" "Table" "TableWithColumns"
           (catalogOf "carol") "" None None false listed None).
  vm_compute. reflexivity.
Defined.

(** X4. The result of [filterPermissions] does not depend on the order of
    [columnNames] or of [excludedColumnNames], nor on whether an empty one is
    nil. *)
Theorem filterPermissions_ignores_column_order
    (tableNameAllTables tableTypeTable tableTypeTableWithColumns : string)
    (input : option LakeFormation.ListPermissionsInput.t) (tableType : string)
    (columnNames columnNames' excludedColumnNames excludedColumnNames'
       : slice (option string))
    (columnWildcard : bool)
    (allPermissions : slice (option LakeFormation.PrincipalResourcePermissions.t)) :
  range columnNames ≡ₚ range columnNames' →
  range excludedColumnNames ≡ₚ range excludedColumnNames' →
  LakeFormation.filterPermissions tableNameAllTables tableTypeTable
    tableTypeTableWithColumns input tableType columnNames excludedColumnNames
    columnWildcard allPermissions
  = LakeFormation.filterPermissions tableNameAllTables tableTypeTable
      tableTypeTableWithColumns input tableType columnNames' excludedColumnNames'
      columnWildcard allPermissions.
Proof.
  intros Hcols Hexcl.
  assert (len excludedColumnNames = len excludedColumnNames') as Hlen
    by (unfold len; by rewrite Hexcl).
  unfold LakeFormation.filterPermissions.
  destruct input as [i|]; [|reflexivity]. simpl.
  destruct (LakeFormation.ListPermissionsInput.Resource i) as [r|]; [|reflexivity].
  simpl.
  repeat match goal with
         | |- (if ?b then _ else _) = _ => destruct b; [reflexivity|]
         end.
  destruct (String.eqb tableType tableTypeTableWithColumns); [|reflexivity].
  destruct (LakeFormation.ListPermissionsInput.Principal i) as [pr|]; [|reflexivity].
  simpl. apply filterLoop_ext. intros perm.
  destruct (LakeFormation.samePrincipal _ perm) as [[same p]|]; [|reflexivity]. simpl.
  destruct same; [|reflexivity]. simpl.
  destruct (LakeFormation.PrincipalResourcePermissions.Resource p) as [r'|];
    [|reflexivity]. simpl.
  rewrite Hlen.
  destruct (LakeFormation.Resource.TableWithColumns r') as [c|]; [|reflexivity].
  rewrite (stringSlicesEqualIgnoreOrder_Permutation _ columnNames columnNames') by done.
  destruct (LakeFormation.TableWithColumnsResource.ColumnWildcard c) as [w|];
    [|reflexivity].
  by rewrite (stringSlicesEqualIgnoreOrder_Permutation _ excludedColumnNames
                excludedColumnNames').
Qed.

Lemma filterPermissions_ignores_column_order_witness :
  let byColumns columnNames excludedColumnNames :=
    LakeFormation.filterPermissions "ALL_TABLES" "Table" "TableWithColumns"
      (tableOf "alice") "TableWithColumns" columnNames excludedColumnNames false
      listedColumns in
  (byColumns (Some [Some "id"; Some "price"]) None
   = byColumns (Some [Some "price"; Some "id"]) (Some [])
   ∧ byColumns (Some [Some "id"; Some "price"]) None
     = Ret (Some [permissionOf "alice" (onColumns ["price"; "id"])]))
  ∧ (byColumns None (Some [Some "secret"; Some "note"])
     = byColumns (Some []) (Some [Some "note"; Some "secret"])
     ∧ byColumns None (Some [Some "secret"; Some "note"])
       = Ret (Some [permissionOf "alice" (onAllColumnsBut ["note"; "secret"])])).
Proof.
  intros byColumns. split; split.
  - apply (filterPermissions_ignores_column_order "ALL_TABLES" "Table" "TableWithColumns"
             (tableOf "alice") "TableWithColumns"
             (Some [Some "id"; Some "price"]) (Some [Some "price"; Some "id"])
             None (Some []) false listedColumns).
    + apply perm_swap.
    + reflexivity.
  - vm_compute. reflexivity.
  - apply (filterPermissions_ignores_column_order "ALL_TABLES" "Table" "TableWithColumns"
             (tableOf "alice") "TableWithColumns"
             None (Some []) (Some [Some "secret"; Some "note"])
             (Some [Some "note"; Some "secret"]) false listedColumns).
    + reflexivity.
    + apply perm_swap.
  - vm_compute. reflexivity.
Defined.

(** X5. [stringSlicesEqualIgnoreOrder] is reflexive and transitive (with the
    symmetry of C9, an equivalence), and a nil slice equals an empty one. *)
Theorem stringSlicesEqualIgnoreOrder_equivalence :
  (∀ s, LakeFormation.stringSlicesEqualIgnoreOrder s s = true)
  ∧ (∀ s1 s2 s3,
        LakeFormation.stringSlicesEqualIgnoreOrder s1 s2 = true →
        LakeFormation.stringSlicesEqualIgnoreOrder s2 s3 = true →
        LakeFormation.stringSlicesEqualIgnoreOrder s1 s3 = true)
  ∧ LakeFormation.stringSlicesEqualIgnoreOrder None (Some []) = true.
Proof.
  split_and!.
  - intros s. by apply stringSlicesEqualIgnoreOrder_iff.
  - intros s1 s2 s3. rewrite !stringSlicesEqualIgnoreOrder_iff.
    intros [Hl12 Hp12] [Hl23 Hp23]. split; [congruence|by rewrite Hp12].
  - by apply stringSlicesEqualIgnoreOrder_iff.
Qed.

(** ** The RDS refresh function, continued *)

(** X6. The refresh function never returns a nil snapshot. Without an error
    it returns either the label "destroyed" with the empty output, or the
    first endpoint of the response with that endpoint's status as the label;
    with an error the label is empty and the snapshot the empty output. *)
Theorem cluster_endpoint_refresh_results
    (conn : RDS.Conn) (id : string) (n : nat)
    (res : option RDS.snapshot) (label : string) (err : option error) :
  RDS.DBClusterEndpointStateRefreshFunc conn id n = Ret (res, label, err) →
  res ≠ None
  ∧ (err = None →
     (label = "destroyed" ∧ res = Some (RDS.OfOutput RDS.emptyResp))
     ∨ ∃ r e rest,
         RDS.DescribeDBClusterEndpoints conn n id = (Some r, None)
         ∧ RDS.DBClusterEndpoints r = Some (Some e :: rest)
         ∧ RDS.Status e = Some label
         ∧ res = Some (RDS.OfEndpoint e))
  ∧ (err ≠ None → label = "" ∧ res = Some (RDS.OfOutput RDS.emptyResp)).
Proof.
  unfold RDS.DBClusterEndpointStateRefreshFunc.
  destruct (RDS.DescribeDBClusterEndpoints conn n id) as [resp derr].
  destruct derr as [e|].
  - destruct (ErrMessageContains _ _ _).
    { intros [= <- <- <-]. split_and!; [done|by left|done]. }
    destruct (match resp with Some r => _ | None => false end).
    { intros [= <- <- <-]. split_and!; [done|by left|done]. }
    intros [= <- <- <-]. split_and!; [done|done|done].
  - destruct resp as [r|].
    2: { intros [= <- <- <-]. split_and!; [done|by left|done]. }
    destruct (_ || _).
    { intros [= <- <- <-]. split_and!; [done|by left|done]. }
    destruct (RDS.DBClusterEndpoints r) as [[|[e|] rest]|] eqn:Hlist;
      try discriminate.
    unfold index. simpl.
    destruct (RDS.Status e) as [status|] eqn:Hstatus; [|discriminate]. simpl.
    intros [= <- <- <-]. split_and!; [done| |done].
    intros _. right. exists r, e, rest. by split_and!.
Qed.

Lemma cluster_endpoint_refresh_results_witness :
  Some (RDS.OfEndpoint (endpointWithStatus "available")) ≠ None.
Proof.
  apply (cluster_endpoint_refresh_results rdsAvailable "ep" 0
           (Some (RDS.OfEndpoint (endpointWithStatus "available"))) "available" None).
  reflexivity.
Defined.

(** X7. The refresh function panics exactly when the describe call returns no
    error and a list whose first element is a nil pointer or an endpoint
    without a status. *)
Theorem cluster_endpoint_refresh_panics_iff
    (conn : RDS.Conn) (id : string) (n : nat) :
  RDS.DBClusterEndpointStateRefreshFunc conn id n = Panic
  ↔ ∃ r rest,
      RDS.DescribeDBClusterEndpoints conn n id = (Some r, None)
      ∧ (RDS.DBClusterEndpoints r = Some (None :: rest)
         ∨ ∃ e, RDS.DBClusterEndpoints r = Some (Some e :: rest)
                ∧ RDS.Status e = None).
Proof.
  unfold RDS.DBClusterEndpointStateRefreshFunc.
  destruct (RDS.DescribeDBClusterEndpoints conn n id) as [resp derr].
  destruct derr as [e|].
  { split; [|by intros (? & ? & [=] & _)].
    destruct (ErrMessageContains _ _ _); [discriminate|].
    destruct (match resp with Some r => _ | None => false end); discriminate. }
  destruct resp as [r|]; [|split; [discriminate|by intros (? & ? & [=] & _)]].
  destruct (RDS.DBClusterEndpoints r) as [[|[e|] rest]|] eqn:Hlist; simpl.
  - split; [discriminate|]. intros (r' & rest & [= <-] & [Hl|(e & Hl & _)]);
      rewrite Hlist in Hl; discriminate.
  - unfold index. simpl. destruct (RDS.Status e) as [status|] eqn:Hstatus; simpl.
    + split; [discriminate|].
      intros (r' & rest' & [= <-] & [Hl|(e' & Hl & Hst)]); rewrite Hlist in Hl.
      * discriminate.
      * injection Hl as <- <-. congruence.
    + split; [|done]. intros _. exists r, rest. split; [done|]. right. eauto.
  - split; [|done]. intros _. exists r, rest. split; [done|]. by left.
  - split; [discriminate|]. intros (r' & rest & [= <-] & [Hl|(e & Hl & _)]);
      rewrite Hlist in Hl; discriminate.
Qed.

(** ** The EFS status functions, continued *)

(** X8. The access point and file system status functions never panic: every
    pointer they follow is tested first. The backup policy status function
    panics exactly when the finder returns neither a policy nor an error that
    counts as one. *)
Theorem efs_status_panics
    (findBackupPolicyByID : EFS.Conn → string → option EFS.BackupPolicy * option error)
    (NotFound : option error → bool) (conn : EFS.Conn) (id : string) :
  EFS.statusAccessPointLifeCycleState conn id ≠ Panic
  ∧ EFS.statusFileSystemLifeCycleState conn id ≠ Panic
  ∧ (EFS.statusBackupPolicy findBackupPolicyByID NotFound conn id = Panic
     ↔ findBackupPolicyByID conn id = (None, None) ∧ NotFound None = false).
Proof.
  split_and!.
  - unfold EFS.statusAccessPointLifeCycleState.
    destruct (EFS.DescribeAccessPoints conn id) as [[o|] [e|]]; try discriminate.
    destruct (EFS.AccessPoints o) as [[|[mt|] rest]|]; discriminate.
  - unfold EFS.statusFileSystemLifeCycleState.
    destruct (EFS.DescribeFileSystems conn id) as [[o|] [e|]]; try discriminate.
    destruct (EFS.FileSystems o) as [[|[mt|] rest]|]; discriminate.
  - unfold EFS.statusBackupPolicy.
    destruct (findBackupPolicyByID conn id) as [[o|] [e|]].
    + split; [|by intros [[=] _]]. by destruct (NotFound _).
    + split; [|by intros [[=] _]]. by destruct (NotFound _).
    + split; [|by intros [[=] _]]. by destruct (NotFound _).
    + destruct (NotFound None); simpl; [|done].
      split; [discriminate|by intros [_ [=]]].
Qed.

(** ** The deletes, continued *)

(** X9. The event bus delete returns an error exactly when [DeleteEventBus]
    fails with something other than ResourceNotFoundException, and the error
    it returns wraps that failure: the AWS error stays reachable by
    [errors.As]. *)
Theorem event_bus_delete_error_iff
    (d : Schema.ResourceData) (conn : CloudWatchEvents.Conn) :
  let result := CloudWatchEvents.resourceAwsCloudWatchEventBusDelete d conn in
  (result ≠ None
   ↔ ∃ e, CloudWatchEvents.DeleteEventBus conn (Schema.Id d) = Some e
          ∧ ∀ message,
              asAwsErr e
              ≠ Some (CloudWatchEvents.ErrCodeResourceNotFoundException, message))
  ∧ ∀ e', result = Some e' →
      ∃ e, CloudWatchEvents.DeleteEventBus conn (Schema.Id d) = Some e
           ∧ asAwsErr e' = asAwsErr e.
Proof.
  intros result. subst result.
  unfold CloudWatchEvents.resourceAwsCloudWatchEventBusDelete.
  destruct (CloudWatchEvents.DeleteEventBus conn (Schema.Id d)) as [e|].
  - destruct (ErrMessageContains (Some e) _ "") eqn:Hnf.
    + apply ErrMessageContains_any_message in Hnf as [m Hm]. split.
      * split; [done|]. intros (e0 & [= <-] & Hno). by destruct (Hno m).
      * intros e' [=].
    + split.
      * split; [|done]. intros _. exists e. split; [done|]. intros m Hm.
        assert (ErrMessageContains (Some e)
                  CloudWatchEvents.ErrCodeResourceNotFoundException "" = true)
          by (apply ErrMessageContains_any_message; eauto).
        congruence.
      * intros e' [= <-]. exists e. split; reflexivity.
  - split.
    + split; [done|by intros (? & [=] & _)].
    + intros e' [=].
Qed.

(** X10. The route table association delete returns nil exactly when the
    disassociation reports the association as not found, or succeeds and the
    wait for the deletion succeeds too. An error it returns wraps the error of
    the call that failed. *)
Theorem route_table_association_delete_result
    (code : string) (wait : EC2.Conn → string → option error)
    (conn : EC2.Conn) (associationID : string) :
  let result := EC2.ec2RouteTableAssociationDelete code wait conn associationID in
  (result = None
   ↔ (∃ e message,
         EC2.DisassociateRouteTable conn associationID = Some e
         ∧ asAwsErr e = Some (code, message))
     ∨ (EC2.DisassociateRouteTable conn associationID = None
        ∧ wait conn associationID = None))
  ∧ ∀ e', result = Some e' →
      ∃ e, (EC2.DisassociateRouteTable conn associationID = Some e
            ∨ (EC2.DisassociateRouteTable conn associationID = None
               ∧ wait conn associationID = Some e))
           ∧ asAwsErr e' = asAwsErr e.
Proof.
  intros result. subst result. unfold EC2.ec2RouteTableAssociationDelete.
  destruct (EC2.DisassociateRouteTable conn associationID) as [e|].
  - destruct (ErrCodeEquals (Some e) code) eqn:Hnf.
    + apply ErrCodeEquals_spec in Hnf as [m Hm]. split.
      * split; [|done]. intros _. left. eauto.
      * intros e' [=].
    + split.
      * split; [done|]. intros [(e0 & m & [= <-] & Hm)|[[=] _]].
        assert (ErrCodeEquals (Some e) code = true)
          by (apply ErrCodeEquals_spec; eauto).
        congruence.
      * intros e' [= <-]. exists e. split; [by left|reflexivity].
  - simpl. destruct (wait conn associationID) as [e|].
    + split.
      * split; [done|]. intros [(? & ? & [=] & _)|[_ [=]]].
      * intros e' [= <-]. exists e. split; [by right|reflexivity].
    + split.
      * split; [|done]. intros _. by right.
      * intros e' [=].
Qed.

(** ** The importer, continued *)

Section SplitJoin.

Variable sep : ascii.

Lemma Split_not_nil (s : string) : Split s sep ≠ [].
Proof.
  destruct s as [|c s]; simpl; [done|].
  destruct (Ascii.eqb c sep); [done|]. by destruct (Split s sep).
Qed.

Lemma Join_cons (p : string) (rest : list string) (glue : string) :
  rest ≠ [] → Join (p :: rest) glue = p +:+ glue +:+ Join rest glue.
Proof. by destruct rest. Qed.

Lemma Join_String (c : ascii) (p : string) (rest : list string) (glue : string) :
  Join (String c p :: rest) glue = String c (Join (p :: rest) glue).
Proof. by destruct rest. Qed.

(** Joining what [Split] returns gives the string back. *)
Lemma Join_Split (s : string) : Join (Split s sep) (String sep EmptyString) = s.
Proof.
  induction s as [|c s IH]; simpl; [reflexivity|].
  destruct (Ascii.eqb_spec c sep) as [->|Hne].
  - rewrite Join_cons by apply Split_not_nil. simpl. by rewrite IH.
  - pose proof (Split_not_nil s) as Hnil.
    destruct (Split s sep) as [|p ps]; [done|].
    rewrite Join_String. by rewrite IH.
Qed.

(** [Split] returns one part more than there are separators. *)
Lemma length_Split (s : string) : length (Split s sep) = S (Count s sep).
Proof.
  induction s as [|c s IH]; simpl; [reflexivity|].
  destruct (Ascii.eqb c sep); simpl.
  - by rewrite IH.
  - pose proof (Split_not_nil s) as Hnil.
    destruct (Split s sep) as [|p ps]; [done|]. exact IH.
Qed.

(** No part contains the separator. *)
Lemma Split_parts (s : string) : Forall (λ p, Count p sep = 0) (Split s sep).
Proof.
  induction s as [|c s IH]; simpl; [by repeat constructor|].
  destruct (Ascii.eqb c sep) eqn:Hc; [by constructor|].
  pose proof (Split_not_nil s) as Hnil.
  destruct (Split s sep) as [|p ps]; [done|].
  inversion IH as [|? ? Hp Hps]; subst. constructor; [|done].
  simpl. by rewrite Hc.
Qed.

End SplitJoin.

Lemma importLoop_sets associations targetID d d1 associationID :
  EC2.importLoop associations targetID d = Ret (d1, associationID) →
  (d1 = d ∧ associationID = EmptyString)
  ∨ d1 = Schema.Set_ "subnet_id" targetID d
  ∨ d1 = Schema.Set_ "gateway_id" targetID d.
Proof.
  induction associations as [|[a|] rest IH]; simpl.
  - intros [= <- <-]. by left.
  - destruct (String.eqb _ targetID); [intros [= <- _]; right; by left|].
    destruct (String.eqb _ targetID); [intros [= <- _]; right; by right|].
    exact IH.
  - discriminate.
Qed.

(** X11. The importer rejects the identifier for its format, returning an
    empty list and leaving the resource data alone, exactly when the
    identifier does not contain exactly one "/". When the import succeeds, the
    identifier is "<target>/<route table ID>": the value written to subnet_id
    or gateway_id, a "/", and the value written to route_table_id, neither of
    which contains a "/"; the one resource returned is the resource data
    itself, and its ID is not empty. *)
Theorem route_table_association_import_identifier
    (findRouteTableByID : EC2.Conn → string → option EC2.RouteTable * option error)
    (d : Schema.ResourceData) (conn : EC2.Conn) :
  let import := EC2.resourceAwsRouteTableAssociationImport findRouteTableByID d conn in
  ((∃ e, import = Ret (d, Some [], Some e)) ↔ Count (Schema.Id d) "/" ≠ 1)
  ∧ ∀ d' imported,
      import = Ret (d', Some imported, None) →
      imported = [d']
      ∧ Schema.Id d' ≠ ""
      ∧ ∃ targetID routeTableID,
          Schema.Id d = targetID +:+ "/" +:+ routeTableID
          ∧ Count targetID "/" = 0
          ∧ Count routeTableID "/" = 0
          ∧ Schema.attrs d' !! "route_table_id" = Some routeTableID
          ∧ (Schema.attrs d' !! "subnet_id" = Some targetID
             ∨ Schema.attrs d' !! "gateway_id" = Some targetID).
Proof.
  intros import.
  pose proof (length_Split "/" (Schema.Id d)) as Hlen.
  pose proof (Join_Split "/" (Schema.Id d)) as Hjoin.
  pose proof (Split_parts "/" (Schema.Id d)) as Hparts.
  subst import. unfold EC2.resourceAwsRouteTableAssociationImport.
  destruct (Split (Schema.Id d) "/") as [|targetID [|routeTableID [|extra more]]];
    simpl in Hlen.
  - lia.
  - split; [split; [intros _; lia|eauto]|]. intros d' imported [=].
  - destruct (findRouteTableByID conn routeTableID) as [routeTable [e|]].
    { split; [split; [intros (? & [=])|lia]|]. intros d' imported [=]. }
    destruct routeTable as [rt|]; simpl.
    2: { split; [split; [intros (? & [=])|lia]|]. intros d' imported [=]. }
    destruct (EC2.importLoop (range (EC2.Associations rt)) targetID d)
      as [[d1 associationID]|] eqn:Hloop; simpl.
    2: { split; [split; [intros (? & [=])|lia]|]. intros d' imported [=]. }
    destruct (String.eqb_spec associationID "") as [->|Hne].
    { split; [split; [intros (? & [=])|lia]|]. intros d' imported [=]. }
    split; [split; [intros (? & [=])|lia]|].
    intros d' imported [= <- <-]. split_and!; [done|done|].
    exists targetID, routeTableID. inversion Hparts as [|? ? Ht Hrest]; subst.
    inversion Hrest as [|? ? Hr _]; subst.
    split_and!; [by rewrite <-Hjoin|done|done|simpl; by rewrite lookup_insert_eq|].
    simpl. rewrite !lookup_insert_ne by done.
    apply importLoop_sets in Hloop as [[_ ->]|[->| ->]]; [done|left|right];
      simpl; by rewrite lookup_insert_eq.
  - split; [split; [intros _; lia|eauto]|]. intros d' imported [=].
Qed.

(** ** Attributes of the resource data *)

Section Attributes.
Import Schema SchemaData.

Lemma Get_Set_eq key value d : Get (Set_ key value d) key = value.
Proof. unfold Get. simpl. by rewrite lookup_insert_eq. Qed.

Lemma Get_Set_ne key key' value d :
  key ≠ key' → Get (Set_ key value d) key' = Get d key'.
Proof. intros Hne. unfold Get. simpl. by rewrite lookup_insert_ne. Qed.

Lemma Get_SetPtr_eq key p d : Get (SetPtr key p d) key = StringValue p.
Proof.
  unfold Get. destruct p as [v|]; simpl.
  - by rewrite lookup_insert_eq.
  - by rewrite lookup_delete_eq.
Qed.

Lemma Get_SetPtr_ne key key' p d :
  key ≠ key' → Get (SetPtr key p d) key' = Get d key'.
Proof.
  intros Hne. unfold Get. destruct p as [v|]; simpl.
  - by rewrite lookup_insert_ne.
  - by rewrite lookup_delete_ne.
Qed.

Lemma Id_SetPtr key p d : Id (SetPtr key p d) = Id d.
Proof. by destruct p. Qed.

Lemma Id_Set key value d : Id (Set_ key value d) = Id d.
Proof. reflexivity. Qed.

Lemma Get_SetId key v d : Get (SetId v d) key = Get d key.
Proof. reflexivity. Qed.

End Attributes.

(** ** [strings.Contains] *)

Lemma prefix_spec (sub s : string) :
  String.prefix sub s = true ↔ ∃ post, s = sub +:+ post.
Proof.
  revert s. induction sub as [|a sub IH]; intros s; simpl.
  - destruct s; (split; [intros _; eexists; reflexivity|done]).
  - destruct s as [|b s]; simpl.
    + split; [done|intros [post [=]]].
    + destruct (ascii_dec a b) as [->|Hne].
      * rewrite IH. split; intros [post Hpost]; exists post.
        -- by rewrite Hpost.
        -- simpl in Hpost. by injection Hpost.
      * split; [done|]. intros [post Hpost]. simpl in Hpost. by injection Hpost.
Qed.

Lemma Contains_unfold (s sub : string) :
  Contains s sub
  = String.prefix sub s
    || match s with
       | EmptyString => false
       | String _ s' => Contains s' sub
       end.
Proof. by destruct s. Qed.

(** [Contains s sub] says that [sub] occurs in [s]. *)
Lemma Contains_spec (s sub : string) :
  Contains s sub = true ↔ ∃ pre post, s = pre +:+ sub +:+ post.
Proof.
  induction s as [|c s IH]; rewrite Contains_unfold.
  - rewrite orb_false_r, prefix_spec. split.
    + intros [post ->]. by exists EmptyString, post.
    + intros (pre & post & Hs). destruct pre; [by exists post|discriminate].
  - rewrite orb_true_iff, prefix_spec, IH. split.
    + intros [[post ->]|(pre & post & ->)].
      * by exists EmptyString, post.
      * by exists (String c pre), post.
    + intros (pre & post & Hs). destruct pre as [|c' pre]; simpl in Hs.
      * left. by exists post.
      * right. injection Hs as <- ->. by exists pre, post.
Qed.

Lemma ErrMessageContains_spec (e : error) (code fragment : string) :
  ErrMessageContains (Some e) code fragment = true
  ↔ ∃ message pre post,
      asAwsErr e = Some (code, message) ∧ message = pre +:+ fragment +:+ post.
Proof.
  unfold ErrMessageContains. simpl.
  destruct (asAwsErr e) as [[c m]|]; simpl.
  - rewrite andb_true_iff, String.eqb_eq, Contains_spec. split.
    + intros [-> (pre & post & ->)]. eauto.
    + intros (m' & pre & post & [= -> <-] & ->). eauto.
  - split; [done|]. by intros (? & ? & ? & [=] & _).
Qed.

(** ** The EMR security configuration *)

(** X12. The EMR security configuration delete returns nil exactly when
    [DeleteSecurityConfiguration] succeeds or fails with an AWS error of code
    InvalidRequestException whose message has "does not exist" in it; any
    other error is returned as it is. *)
Theorem emr_security_configuration_delete_result
    (Time : Type) (d : Schema.ResourceData) (conn : EMR.Conn Time) :
  let err := EMR.DeleteSecurityConfiguration Time conn (Schema.Id d) in
  let gone :=
    ∃ e message pre post,
      err = Some e
      ∧ asAwsErr e = Some ("InvalidRequestException", message)
      ∧ message = pre +:+ "does not exist" +:+ post in
  (EMR.resourceAwsEmrSecurityConfigurationDelete Time d conn = None
   ↔ err = None ∨ gone)
  ∧ (¬ gone → EMR.resourceAwsEmrSecurityConfigurationDelete Time d conn = err).
Proof.
  intros err gone. subst gone. unfold EMR.resourceAwsEmrSecurityConfigurationDelete.
  fold err. destruct err as [e|]; [|split; [split; [by left|done]|done]].
  destruct (ErrMessageContains (Some e) _ _) eqn:Hgone.
  - apply ErrMessageContains_spec in Hgone as (m & pre & post & Hm & ->).
    split; [split; [|done]|].
    + intros _. right. by exists e, (pre +:+ "does not exist" +:+ post), pre, post.
    + intros Hno. destruct Hno.
      by exists e, (pre +:+ "does not exist" +:+ post), pre, post.
  - split; [|done]. split; [done|].
    intros [[=]|(e' & m & pre & post & [= <-] & Hm & ->)].
    assert (ErrMessageContains (Some e) "InvalidRequestException" "does not exist"
            = true) by (apply ErrMessageContains_spec; eauto).
    congruence.
Qed.

(** X13. The EMR security configuration read and delete agree on what is
    gone: on the same error, the read clears the ID and returns nil exactly
    when the delete returns nil. On a response, the read keeps the ID and the
    attributes read back as the response has them. *)
Theorem emr_security_configuration_read
    (Time : Type) (formatRFC3339 : option Time → string)
    (d : Schema.ResourceData) (conn : EMR.Conn Time) :
  let read := EMR.resourceAwsEmrSecurityConfigurationRead Time formatRFC3339 d conn in
  (∀ resp e,
      EMR.DescribeSecurityConfiguration Time conn (Schema.Id d) = (resp, Some e) →
      EMR.DeleteSecurityConfiguration Time conn (Schema.Id d) = Some e →
      (read = Ret (Schema.SetId "" d, None)
       ∧ EMR.resourceAwsEmrSecurityConfigurationDelete Time d conn = None)
      ∨ (read = Ret (d, Some e)
         ∧ EMR.resourceAwsEmrSecurityConfigurationDelete Time d conn = Some e))
  ∧ (∀ r,
      EMR.DescribeSecurityConfiguration Time conn (Schema.Id d) = (Some r, None) →
      ∃ d',
        read = Ret (d', None)
        ∧ Schema.Id d' = Schema.Id d
        ∧ SchemaData.Get d' "creation_date"
          = formatRFC3339 (EMR.CreationDateTime Time r)
        ∧ SchemaData.Get d' "name" = StringValue (EMR.Name Time r)
        ∧ SchemaData.Get d' "configuration"
          = StringValue (EMR.SecurityConfiguration Time r)).
Proof.
  intros read. subst read. unfold EMR.resourceAwsEmrSecurityConfigurationRead,
    EMR.resourceAwsEmrSecurityConfigurationDelete. split.
  - intros resp e -> ->. destruct (ErrMessageContains _ _ _); [by left|by right].
  - intros r ->. simpl. eexists. split; [reflexivity|]. split_and!.
    + by rewrite !Id_SetPtr.
    + rewrite !Get_SetPtr_ne by done. by rewrite Get_Set_eq.
    + rewrite Get_SetPtr_ne by done. by rewrite Get_SetPtr_eq.
    + by rewrite Get_SetPtr_eq.
Qed.

(** ** The transit gateway route table propagation *)

Section Propagation.
Import TransitGateway.

Variable errCodeInvalidRouteTableIDNotFound : string.
Variable decode : string → string * string * option error.
Variable describe :
  Conn → string → string → option TransitGatewayRouteTablePropagation * option error.
Variable waitEnabled waitDisabled : Conn → string → string → option error.

Let Read :=
  resourceAwsEc2TransitGatewayRouteTablePropagationRead
    errCodeInvalidRouteTableIDNotFound decode describe.

(** What a read leaves behind when it returns nil: the resource removed from
    the state, which a new resource never is, or the attributes of the
    propagation found under the decoded IDs. *)
Lemma propagation_read_nil isNewResource d conn d' :
  Read isNewResource d conn = (d', None) →
  (isNewResource = false ∧ d' = Schema.SetId "" d)
  ∨ ∃ routeTableID attachmentID p,
      decode (Schema.Id d) = (routeTableID, attachmentID, None)
      ∧ describe conn routeTableID attachmentID = (Some p, None)
      ∧ Schema.Id d' = Schema.Id d
      ∧ SchemaData.Get d' "resource_id" = StringValue (ResourceId p)
      ∧ SchemaData.Get d' "resource_type" = StringValue (ResourceType p)
      ∧ SchemaData.Get d' "transit_gateway_attachment_id"
        = StringValue (TransitGatewayAttachmentId p)
      ∧ SchemaData.Get d' "transit_gateway_route_table_id" = routeTableID.
Proof.
  subst Read. unfold resourceAwsEc2TransitGatewayRouteTablePropagationRead.
  destruct (decode (Schema.Id d)) as [[rt att] [e|]]; [discriminate|].
  destruct (describe conn rt att) as [p derr] eqn:Hdescribe.
  destruct isNewResource; cbn [negb andb].
  - destruct derr; [discriminate|]. destruct p as [p|]; [|discriminate].
    intros [= <-]. right. exists rt, att, p. split_and!; try done.
    + by rewrite Id_Set, !Id_SetPtr.
    + rewrite !Get_Set_ne, !Get_SetPtr_ne by done. apply Get_SetPtr_eq.
    + rewrite !Get_Set_ne, !Get_SetPtr_ne by done. apply Get_SetPtr_eq.
    + rewrite !Get_Set_ne by done. apply Get_SetPtr_eq.
    + apply Get_Set_eq.
  - destruct (ErrCodeEquals derr _); [intros [= <-]; by left|].
    destruct derr; [discriminate|]. destruct p as [p|]; [|intros [= <-]; by left].
    intros [= <-]. right. exists rt, att, p. split_and!; try done.
    + by rewrite Id_Set, !Id_SetPtr.
    + rewrite !Get_Set_ne, !Get_SetPtr_ne by done. apply Get_SetPtr_eq.
    + rewrite !Get_Set_ne, !Get_SetPtr_ne by done. apply Get_SetPtr_eq.
    + rewrite !Get_Set_ne by done. apply Get_SetPtr_eq.
    + apply Get_Set_eq.
Qed.

Lemma propagation_read_id isNewResource d conn :
  Schema.Id (Read isNewResource d conn).1 = Schema.Id d
  ∨ (isNewResource = false
     ∧ (Read isNewResource d conn) = (Schema.SetId "" d, None)).
Proof.
  subst Read. unfold resourceAwsEc2TransitGatewayRouteTablePropagationRead.
  destruct (decode (Schema.Id d)) as [[rt att] [e|]]; [by left|].
  destruct (describe conn rt att) as [p derr].
  destruct isNewResource; simpl.
  - destruct derr; [by left|]. destruct p; [|by left].
    left. cbn [fst]. by rewrite Id_Set, !Id_SetPtr.
  - destruct (ErrCodeEquals derr _); [by right|].
    destruct derr; [by left|]. destruct p; [|by right].
    left. cbn [fst]. by rewrite Id_Set, !Id_SetPtr.
Qed.

End Propagation.

(** X14. A read of the transit gateway route table propagation changes the
    resource ID only to remove the resource from the state: only when the
    resource is not new and then together with a nil error. When a read
    returns nil without removing the resource, the four attributes read back
    as the propagation found under the decoded IDs has them. *)
Theorem propagation_read_outcomes
    (errCodeInvalidRouteTableIDNotFound : string)
    (decode : string → string * string * option error)
    (describe : TransitGateway.Conn → string → string →
                option TransitGateway.TransitGatewayRouteTablePropagation * option error)
    (isNewResource : bool) (d : Schema.ResourceData) (conn : TransitGateway.Conn) :
  let read :=
    TransitGateway.resourceAwsEc2TransitGatewayRouteTablePropagationRead
      errCodeInvalidRouteTableIDNotFound decode describe isNewResource d conn in
  (Schema.Id read.1 = Schema.Id d
   ∨ (isNewResource = false ∧ read = (Schema.SetId "" d, None)))
  ∧ (read.2 = None →
     (isNewResource = false ∧ read.1 = Schema.SetId "" d)
     ∨ ∃ routeTableID attachmentID p,
         decode (Schema.Id d) = (routeTableID, attachmentID, None)
         ∧ describe conn routeTableID attachmentID = (Some p, None)
         ∧ Schema.Id read.1 = Schema.Id d
         ∧ SchemaData.Get read.1 "resource_id"
           = StringValue (TransitGateway.ResourceId p)
         ∧ SchemaData.Get read.1 "resource_type"
           = StringValue (TransitGateway.ResourceType p)
         ∧ SchemaData.Get read.1 "transit_gateway_attachment_id"
           = StringValue (TransitGateway.TransitGatewayAttachmentId p)
         ∧ SchemaData.Get read.1 "transit_gateway_route_table_id" = routeTableID).
Proof.
  intros read. split.
  - apply (propagation_read_id errCodeInvalidRouteTableIDNotFound decode describe).
  - intros Hnil.
    apply (propagation_read_nil errCodeInvalidRouteTableIDNotFound decode describe
             isNewResource d conn).
    fold read. destruct read as [d' e]. simpl in Hnil. by subst.
Qed.

(** X15. When the create of a new transit gateway route table propagation
    returns nil, the enabling call and the wait have succeeded, the resource ID
    is "<route table ID>_<attachment ID>" of the configuration, and the
    attributes are those of the propagation found under the IDs decoded from
    that resource ID. *)
Theorem propagation_create_success
    (errCodeInvalidRouteTableIDNotFound : string)
    (decode : string → string * string * option error)
    (describe : TransitGateway.Conn → string → string →
                option TransitGateway.TransitGatewayRouteTablePropagation * option error)
    (waitEnabled : TransitGateway.Conn → string → string → option error)
    (d d' : Schema.ResourceData) (conn : TransitGateway.Conn) :
  TransitGateway.resourceAwsEc2TransitGatewayRouteTablePropagationCreate
    errCodeInvalidRouteTableIDNotFound decode describe waitEnabled true d conn
  = (d', None) →
  let attachmentID := SchemaData.Get d "transit_gateway_attachment_id" in
  let routeTableID := SchemaData.Get d "transit_gateway_route_table_id" in
  TransitGateway.EnableTransitGatewayRouteTablePropagation conn attachmentID routeTableID
  = None
  ∧ waitEnabled conn routeTableID attachmentID = None
  ∧ Schema.Id d' = routeTableID +:+ "_" +:+ attachmentID
  ∧ ∃ routeTableID' attachmentID' p,
      decode (Schema.Id d') = (routeTableID', attachmentID', None)
      ∧ describe conn routeTableID' attachmentID' = (Some p, None)
      ∧ SchemaData.Get d' "resource_id" = StringValue (TransitGateway.ResourceId p)
      ∧ SchemaData.Get d' "resource_type" = StringValue (TransitGateway.ResourceType p)
      ∧ SchemaData.Get d' "transit_gateway_attachment_id"
        = StringValue (TransitGateway.TransitGatewayAttachmentId p)
      ∧ SchemaData.Get d' "transit_gateway_route_table_id" = routeTableID'.
Proof.
  intros Hcreate attachmentID routeTableID. subst attachmentID routeTableID.
  revert Hcreate.
  unfold TransitGateway.resourceAwsEc2TransitGatewayRouteTablePropagationCreate.
  destruct (TransitGateway.EnableTransitGatewayRouteTablePropagation _ _ _);
    [discriminate|].
  destruct (waitEnabled _ _ _); [discriminate|].
  intros Hread.
  destruct (propagation_read_nil errCodeInvalidRouteTableIDNotFound decode describe
              true _ conn d' Hread)
    as [[Hnew _]|(rt & att & p & Hdecode & Hdescribe & Hid & H1 & H2 & H3 & H4)];
    [discriminate Hnew|].
  split_and!; [done|done|exact Hid|].
  exists rt, att, p. rewrite Hid. by split_and!.
Qed.

Lemma propagation_create_success_witness :
  let d :=
    Schema.Set_ "transit_gateway_attachment_id" "tgw-attach-1"
      (Schema.Set_ "transit_gateway_route_table_id" "tgw-rtb-1" (fresh "")) in
  TransitGateway.EnableTransitGatewayRouteTablePropagation tgwConn
    (SchemaData.Get d "transit_gateway_attachment_id")
    (SchemaData.Get d "transit_gateway_route_table_id")
  = None.
Proof.
  intros d.
  refine (proj1 (propagation_create_success "InvalidRouteTableID.NotFound"
                   (λ _, ("tgw-rtb-1", "tgw-attach-1", None))
                   (λ _ _ _, (Some tgwPropagation, None)) (λ _ _ _, None)
                   d _ tgwConn eq_refl)).
Defined.

(** X16. Given a resource ID that decodes, the delete of the propagation
    returns nil exactly when the disabling call reports
    InvalidRouteTableID.NotFound, or succeeds and the wait succeeds too. The
    error of a failed disabling call is formatted with [%s]: the AWS error is
    no longer reachable by [errors.As]; the error of a failed wait is wrapped
    and stays reachable. *)
Theorem propagation_delete_result
    (decode : string → string * string * option error)
    (waitDisabled : TransitGateway.Conn → string → string → option error)
    (d : Schema.ResourceData) (conn : TransitGateway.Conn)
    (routeTableID attachmentID : string) :
  decode (Schema.Id d) = (routeTableID, attachmentID, None) →
  let result :=
    TransitGateway.resourceAwsEc2TransitGatewayRouteTablePropagationDelete
      decode waitDisabled d conn in
  let disabled :=
    TransitGateway.DisableTransitGatewayRouteTablePropagation conn
      attachmentID routeTableID in
  (result = None
   ↔ (∃ e message,
         disabled = Some e
         ∧ asAwsErr e = Some ("InvalidRouteTableID.NotFound", message))
     ∨ (disabled = None ∧ waitDisabled conn routeTableID attachmentID = None))
  ∧ (∀ e e', disabled = Some e → result = Some e' → asAwsErr e' = None)
  ∧ (∀ e', disabled = None → result = Some e' →
       ∃ e, waitDisabled conn routeTableID attachmentID = Some e
            ∧ asAwsErr e' = asAwsErr e).
Proof.
  intros Hdecode result disabled. subst result.
  unfold TransitGateway.resourceAwsEc2TransitGatewayRouteTablePropagationDelete.
  rewrite Hdecode. fold disabled. destruct disabled as [e|].
  - destruct (ErrMessageContains (Some e) _ "") eqn:Hnf.
    + apply ErrMessageContains_any_message in Hnf as [m Hm]. split_and!.
      * split; [|done]. intros _. left. eauto.
      * intros ? e' _ [=].
      * intros e' [=].
    + split_and!.
      * split; [done|]. intros [(e0 & m & [= <-] & Hm)|[[=] _]].
        assert (ErrMessageContains (Some e) "InvalidRouteTableID.NotFound" "" = true)
          by (apply ErrMessageContains_any_message; eauto).
        congruence.
      * intros ? e' _ [= <-]. reflexivity.
      * intros e' [=].
  - simpl. destruct (waitDisabled conn routeTableID attachmentID) as [e|].
    + split_and!.
      * split; [done|]. intros [(? & ? & [=] & _)|[_ [=]]].
      * intros ? e' [=].
      * intros e' _ [= <-]. exists e. split; reflexivity.
    + split_and!.
      * split; [|done]. intros _. by right.
      * intros ? e' [=].
      * intros e' _ [=].
Qed.

Lemma propagation_delete_result_witness :
  TransitGateway.resourceAwsEc2TransitGatewayRouteTablePropagationDelete
    (λ _, ("tgw-rtb-1", "tgw-attach-1", None)) (λ _ _ _, None)
    (fresh "tgw-rtb-1_tgw-attach-1") tgwConn
  = None.
Proof.
  apply (proj1 (propagation_delete_result
                  (λ _, ("tgw-rtb-1", "tgw-attach-1", None)) (λ _ _ _, None)
                  (fresh "tgw-rtb-1_tgw-attach-1") tgwConn
                  "tgw-rtb-1" "tgw-attach-1" eq_refl)).
  right. split; reflexivity.
Defined.

(** ** The route table association: read, create, update *)

Section AssociationCRUD.
Import RouteTableAssociation.

Variable errCodeInvalidRouteTableIDNotFound : string.
Variable errCodeInvalidAssociationIDNotFound : string.
Variable timeout : Z.
Variable retry :
  Z → (nat → option AssociateRouteTableOutput * option error) → string →
  option AssociateRouteTableOutput * option error.
Variable find : Conn → string → option EC2.RouteTableAssociation * option error.
Variable NotFound : option error → bool.
Variable waitCreated waitUpdated : Conn → string → option error.

Let Read := resourceAwsRouteTableAssociationRead find NotFound.

Lemma association_read_nil isNewResource d conn d' :
  Read isNewResource d conn = Ret (d', None) →
  (isNewResource = false ∧ d' = Schema.SetId "" d)
  ∨ ∃ a, find conn (Schema.Id d) = (Some a, None)
         ∧ Schema.Id d' = Schema.Id d
         ∧ readBack d' a.
Proof.
  subst Read. unfold resourceAwsRouteTableAssociationRead.
  destruct (find conn (Schema.Id d)) as [association ferr] eqn:Hfind.
  destruct (negb isNewResource && NotFound ferr) eqn:Hgone.
  { intros [= <-]. left. split; [|done]. by destruct isNewResource. }
  destruct ferr; [discriminate|]. destruct association as [a|]; [|discriminate].
  simpl. intros [= <-]. right. exists a. split_and!; [done| |].
  - by rewrite !Id_SetPtr.
  - unfold readBack. split_and!.
    + rewrite !Get_SetPtr_ne by done. apply Get_SetPtr_eq.
    + rewrite Get_SetPtr_ne by done. apply Get_SetPtr_eq.
    + apply Get_SetPtr_eq.
Qed.

(** The same, with what made the read remove the resource. *)
Lemma association_read_gone isNewResource d conn d' :
  Read isNewResource d conn = Ret (d', None) →
  (isNewResource = false
   ∧ NotFound (find conn (Schema.Id d)).2 = true
   ∧ d' = Schema.SetId "" d)
  ∨ ∃ a, find conn (Schema.Id d) = (Some a, None)
         ∧ Schema.Id d' = Schema.Id d
         ∧ readBack d' a.
Proof.
  subst Read. unfold resourceAwsRouteTableAssociationRead.
  destruct (find conn (Schema.Id d)) as [association ferr] eqn:Hfind.
  destruct (negb isNewResource && NotFound ferr) eqn:Hgone.
  { intros [= <-]. left. apply andb_true_iff in Hgone as [Hnew Hgone].
    split_and!; [by destruct isNewResource|done|done]. }
  destruct ferr; [discriminate|]. destruct association as [a|]; [|discriminate].
  simpl. intros [= <-]. right. exists a. split_and!; [done| |].
  - by rewrite !Id_SetPtr.
  - unfold readBack. split_and!.
    + rewrite !Get_SetPtr_ne by done. apply Get_SetPtr_eq.
    + rewrite Get_SetPtr_ne by done. apply Get_SetPtr_eq.
    + apply Get_SetPtr_eq.
Qed.

Lemma association_read_id isNewResource d conn d' e :
  Read isNewResource d conn = Ret (d', e) →
  Schema.Id d' = Schema.Id d
  ∨ (isNewResource = false ∧ d' = Schema.SetId "" d ∧ e = None).
Proof.
  subst Read. unfold resourceAwsRouteTableAssociationRead.
  destruct (find conn (Schema.Id d)) as [association ferr].
  destruct (negb isNewResource && NotFound ferr) eqn:Hgone.
  { intros [= <- <-]. right. split; [|done]. by destruct isNewResource. }
  destruct ferr; [intros [= <- _]; by left|].
  destruct association as [a|]; [|discriminate].
  simpl. intros [= <- _]. left. by rewrite !Id_SetPtr.
Qed.

Lemma association_read_panics isNewResource d conn :
  Read isNewResource d conn = Panic
  ↔ find conn (Schema.Id d) = (None, None)
    ∧ (isNewResource = true ∨ NotFound None = false).
Proof.
  subst Read. unfold resourceAwsRouteTableAssociationRead.
  destruct (find conn (Schema.Id d)) as [[a|] [e|]].
  - split; [|by intros [[=] _]]. by destruct (_ && _).
  - split; [|by intros [[=] _]]. by destruct (_ && _).
  - split; [|by intros [[=] _]]. by destruct (_ && _).
  - destruct isNewResource, (NotFound None); simpl; split; try done.
    + intros _. split; [done|by left].
    + intros _. split; [done|by left].
    + intros [_ [[=]|[=]]].
    + intros _. split; [done|by right].
Qed.

End AssociationCRUD.

(** X17. A read of the route table association changes the resource ID only
    to remove the resource from the state, which it does only for a resource
    that is not new and together with a nil error. When it returns nil
    without removing the resource, gateway_id, route_table_id and subnet_id
    read back as the association found has them (a nil field as the empty
    string). It panics exactly when the finder returns neither an
    association nor an error, unless that counts as not found for a resource
    that is not new. *)
Theorem route_table_association_read_outcomes
    (find : RouteTableAssociation.Conn → string →
            option EC2.RouteTableAssociation * option error)
    (NotFound : option error → bool)
    (isNewResource : bool) (d : Schema.ResourceData)
    (conn : RouteTableAssociation.Conn) :
  let read :=
    RouteTableAssociation.resourceAwsRouteTableAssociationRead find NotFound
      isNewResource d conn in
  (∀ d' e, read = Ret (d', e) →
     (Schema.Id d' = Schema.Id d
      ∨ (isNewResource = false ∧ d' = Schema.SetId "" d ∧ e = None))
     ∧ (e = None →
        (isNewResource = false ∧ d' = Schema.SetId "" d)
        ∨ ∃ a, find conn (Schema.Id d) = (Some a, None)
               ∧ Schema.Id d' = Schema.Id d
               ∧ readBack d' a))
  ∧ (read = Panic
     ↔ find conn (Schema.Id d) = (None, None)
       ∧ (isNewResource = true ∨ NotFound None = false)).
Proof.
  intros read. split.
  - intros d' e Hread. split.
    + by apply (association_read_id find NotFound isNewResource d conn d' e).
    + intros ->. by apply (association_read_nil find NotFound isNewResource d conn).
  - apply association_read_panics.
Qed.

(** X18. When the create of a new route table association returns nil, the
    association call (through the retry helper) and the wait have succeeded,
    the resource ID is the association ID the call returned, and the
    attributes read back as the association found under that ID has them. *)
Theorem route_table_association_create_success
    (errCodeInvalidRouteTableIDNotFound : string) (timeout : Z)
    (retry : Z → (nat → option RouteTableAssociation.AssociateRouteTableOutput
                        * option error)
             → string
             → option RouteTableAssociation.AssociateRouteTableOutput * option error)
    (find : RouteTableAssociation.Conn → string →
            option EC2.RouteTableAssociation * option error)
    (NotFound : option error → bool)
    (waitCreated : RouteTableAssociation.Conn → string → option error)
    (d d' : Schema.ResourceData) (conn : RouteTableAssociation.Conn) :
  RouteTableAssociation.resourceAwsRouteTableAssociationCreate
    errCodeInvalidRouteTableIDNotFound timeout retry find NotFound waitCreated
    true d conn
  = Ret (d', None) →
  ∃ o a,
    retry timeout
      (λ attempt,
         RouteTableAssociation.AssociateRouteTable conn attempt
           (RouteTableAssociation.createInput d))
      errCodeInvalidRouteTableIDNotFound
    = (Some o, None)
    ∧ Schema.Id d' = StringValue (RouteTableAssociation.AssociationId o)
    ∧ waitCreated conn (Schema.Id d') = None
    ∧ find conn (Schema.Id d') = (Some a, None)
    ∧ readBack d' a.
Proof.
  unfold RouteTableAssociation.resourceAwsRouteTableAssociationCreate.
  destruct (retry _ _ _) as [output rerr]. destruct rerr; [discriminate|].
  destruct output as [o|]; [|discriminate]. simpl.
  destruct (waitCreated conn _) eqn:Hwait; [discriminate|].
  intros Hread.
  destruct (association_read_nil find NotFound true _ conn d' Hread)
    as [[Hnew _]|(a & Hfind & Hid & Hback)]; [discriminate Hnew|].
  exists o, a. rewrite Hid. by split_and!.
Qed.

Lemma route_table_association_create_success_witness :
  ∃ o a,
    firstAttempt 300
      (λ attempt,
         RouteTableAssociation.AssociateRouteTable associationConn attempt
           (RouteTableAssociation.createInput
              (Schema.Set_ "subnet_id" "subnet-1"
                 (Schema.Set_ "route_table_id" "rtb-1" (fresh "")))))
      "InvalidRouteTableID.NotFound"
    = (Some o, None)
    ∧ StringValue (RouteTableAssociation.AssociationId o) = "rtbassoc-1"
    ∧ readBack
        (SchemaData.SetPtr "subnet_id" (Some "subnet-1")
           (SchemaData.SetPtr "route_table_id" (Some "rtb-1")
              (SchemaData.SetPtr "gateway_id" None
                 (Schema.SetId "rtbassoc-1"
                    (Schema.Set_ "subnet_id" "subnet-1"
                       (Schema.Set_ "route_table_id" "rtb-1" (fresh "")))))))
        a.
Proof.
  destruct (route_table_association_create_success
              "InvalidRouteTableID.NotFound" 300 firstAttempt findingAssociation
              isNotFoundError (λ _ _, None)
              (Schema.Set_ "subnet_id" "subnet-1"
                 (Schema.Set_ "route_table_id" "rtb-1" (fresh "")))
              _ associationConn eq_refl)
    as (o & a & Hretry & Hid & _ & _ & Hback).
  exists o, a. split_and!; [exact Hretry| |exact Hback].
  by rewrite <-Hid.
Defined.

(** X19. An update of the route table association whose replace call reports
    the association ID as not found is a create. Otherwise, when the update
    returns nil, the replace call and the wait have succeeded, and either the
    resource is not new and has been removed from the state (its ID is
    empty), or the resource ID is the new association ID the call returned
    and the attributes read back as the association found under that ID has
    them. An update runs on a resource that is not new; for a new one only
    the second case is left. *)
Theorem route_table_association_update_outcomes
    (errCodeInvalidRouteTableIDNotFound errCodeInvalidAssociationIDNotFound : string)
    (timeout : Z)
    (retry : Z → (nat → option RouteTableAssociation.AssociateRouteTableOutput
                        * option error)
             → string
             → option RouteTableAssociation.AssociateRouteTableOutput * option error)
    (find : RouteTableAssociation.Conn → string →
            option EC2.RouteTableAssociation * option error)
    (NotFound : option error → bool)
    (waitCreated waitUpdated : RouteTableAssociation.Conn → string → option error)
    (isNewResource : bool) (d : Schema.ResourceData)
    (conn : RouteTableAssociation.Conn) :
  let update :=
    RouteTableAssociation.resourceAwsRouteTableAssociationUpdate
      errCodeInvalidRouteTableIDNotFound errCodeInvalidAssociationIDNotFound
      timeout retry find NotFound waitCreated waitUpdated isNewResource d conn in
  let replaced :=
    RouteTableAssociation.ReplaceRouteTableAssociation conn (Schema.Id d)
      (SchemaData.Get d "route_table_id") in
  (∀ e message,
      replaced.2 = Some e →
      asAwsErr e = Some (errCodeInvalidAssociationIDNotFound, message) →
      update
      = RouteTableAssociation.resourceAwsRouteTableAssociationCreate
          errCodeInvalidRouteTableIDNotFound timeout retry find NotFound waitCreated
          isNewResource d conn)
  ∧ (∀ d',
      replaced.2 = None →
      update = Ret (d', None) →
      ∃ o,
        let newID := StringValue (RouteTableAssociation.NewAssociationId o) in
        replaced = (Some o, None)
        ∧ waitUpdated conn newID = None
        ∧ ((isNewResource = false
            ∧ NotFound (find conn newID).2 = true
            ∧ d' = Schema.SetId "" (Schema.SetId newID d)
            ∧ Schema.Id d' = "")
           ∨ ∃ a,
               find conn newID = (Some a, None)
               ∧ Schema.Id d' = newID
               ∧ readBack d' a)).
Proof.
  intros update replaced. subst update.
  unfold RouteTableAssociation.resourceAwsRouteTableAssociationUpdate.
  fold replaced. destruct replaced as [output rerr]. simpl. split.
  - intros e message -> Hcode.
    assert (ErrCodeEquals (Some e) errCodeInvalidAssociationIDNotFound = true) as ->
      by (apply ErrCodeEquals_spec; eauto).
    reflexivity.
  - intros d' ->. unfold ErrCodeEquals at 1. simpl.
    destruct output as [o|]; [|discriminate]. simpl.
    destruct (waitUpdated conn _) eqn:Hwait; [discriminate|].
    intros Hread. exists o. split_and!; [done..|].
    destruct (association_read_gone find NotFound isNewResource _ conn d' Hread)
      as [(Hnew & Hgone & Hd')|(a & Hfind & Hid & Hback)].
    + left. split_and!; [done..|]. by rewrite Hd'.
    + right. exists a. by split_and!.
Qed.

Lemma route_table_association_update_outcomes_witness :
  let d := Schema.Set_ "route_table_id" "rtb-1" (fresh "rtbassoc-1") in
  (∃ d' a,
      RouteTableAssociation.resourceAwsRouteTableAssociationUpdate
        "InvalidRouteTableID.NotFound" "InvalidAssociationID.NotFound" 300
        firstAttempt (findingUnder "rtbassoc-2") isNotFoundError (λ _ _, None)
        (λ _ _, None) false d associationConn
      = Ret (d', None)
      ∧ Schema.Id d' = "rtbassoc-2"
      ∧ readBack d' a)
  ∧ ∃ d',
      RouteTableAssociation.resourceAwsRouteTableAssociationUpdate
        "InvalidRouteTableID.NotFound" "InvalidAssociationID.NotFound" 300
        firstAttempt (findingUnder "rtbassoc-9") isNotFoundError (λ _ _, None)
        (λ _ _, None) false d associationConn
      = Ret (d', None)
      ∧ Schema.Id d' = "".
Proof.
  intros d. split.
  - eexists _, _. split; [reflexivity|].
    destruct (proj2 (route_table_association_update_outcomes
                       "InvalidRouteTableID.NotFound" "InvalidAssociationID.NotFound"
                       300 firstAttempt (findingUnder "rtbassoc-2") isNotFoundError
                       (λ _ _, None) (λ _ _, None) false d associationConn)
                _ eq_refl eq_refl)
      as (o & Hreplaced & _ & [(_ & Hgone & _)|(a & Hfind & Hid & Hback)]).
    + injection Hreplaced as <-. discriminate Hgone.
    + injection Hreplaced as <-. injection Hfind as <-. split; [exact Hid|exact Hback].
  - eexists. split; [reflexivity|].
    destruct (proj2 (route_table_association_update_outcomes
                       "InvalidRouteTableID.NotFound" "InvalidAssociationID.NotFound"
                       300 firstAttempt (findingUnder "rtbassoc-9") isNotFoundError
                       (λ _ _, None) (λ _ _, None) false d associationConn)
                _ eq_refl eq_refl)
      as (o & Hreplaced & _ & [(_ & _ & _ & Hid)|(a & Hfind & _)]).
    + exact Hid.
    + injection Hreplaced as <-. discriminate Hfind.
Defined.

(** ** The wait loop, continued *)

Section WaitLoop.
Import Resource.
Context {T : Type}.

Lemma scanTarget_done (target : list string) (label : string) (continuous : Z)
    (found : bool) (occ : Z) (found' : bool) (occ' : Z) :
  scanTarget target label continuous found occ = (found', occ', true) →
  label ∈ target.
Proof.
  revert found occ. induction target as [|allowed rest IH]; intros found occ; simpl.
  - intros [=].
  - destruct (String.eqb_spec label allowed) as [->|_].
    + intros _. by left.
    + intros Hscan. right. by eapply IH.
Qed.

(** The loop body ends the wait without an error only on a target state, or,
    for a wait without target states, on a nil snapshot. *)
Lemma judge_Stop_nil (conf : StateChangeConf T) (res : option T) (label : string)
    (e : option error) (notfoundTick occ : Z) (res' : option T) :
  judge conf (res, label, e) notfoundTick occ = Stop res' None →
  e = None ∧ res' = res
  ∧ ((res = None ∧ Target conf = []) ∨ (is_Some res ∧ label ∈ Target conf)).
Proof.
  unfold judge. destruct e as [e|]; [intros [=]|].
  destruct res as [snap|].
  - destruct (scanTarget _ _ _ _ _) as [[found occ'] done] eqn:Hscan.
    destruct done.
    + intros [= <-]. split_and!; [done..|]. right. split; [by eexists|].
      by eapply scanTarget_done.
    + destruct (scanPending _ _ _ _) as [found' occ''].
      destruct (_ && _); intros [=].
  - destruct (Nat.eqb_spec (length (Target conf)) 0) as [Hlen|_].
    + destruct (_ =? _)%Z; [|intros [=]].
      intros [= <-]. split_and!; [done..|]. left. split; [done|].
      by destruct (Target conf).
    + destruct (_ <? _)%Z; intros [=].
Qed.

Lemma refreshLoop_success fuel (conf : StateChangeConf T) n clock wait
    notfoundTick occ lastState log w :
  refreshLoop fuel conf n clock wait notfoundTick occ lastState log = Some (Ret w) →
  err w = None →
  ∃ m r notfoundTick' occ',
    Refresh conf m = Ret r
    ∧ judge conf r notfoundTick' occ' = Stop (result w) None.
Proof.
  revert n clock wait notfoundTick occ lastState log.
  induction fuel as [|fuel IH]; intros n clock wait notfoundTick occ lastState log;
    simpl; [discriminate|].
  destruct (_ <=? _)%Z.
  { intros [= <-]. discriminate. }
  destruct (Refresh conf n) as [r|] eqn:Hrefresh; [|discriminate].
  destruct (judge conf r notfoundTick occ) as [res e|tick' occ' backoff] eqn:Hjudge.
  - intros [= <-]. simpl. intros ->. by exists n, r, notfoundTick, occ.
  - apply IH.
Qed.

Lemma WaitForState_success fuel (conf : StateChangeConf T) w :
  WaitForState fuel conf = Some (Ret w) →
  err w = None →
  ∃ m label,
    Refresh conf m = Ret (result w, label, None)
    ∧ ((result w = None ∧ Target conf = [])
       ∨ (is_Some (result w) ∧ label ∈ Target conf)).
Proof.
  unfold WaitForState. destruct (_ <=? _)%Z.
  { intros [= <-]. discriminate. }
  intros Hloop Herr.
  destruct (refreshLoop_success _ _ _ _ _ _ _ _ _ _ Hloop Herr)
    as (m & [[res label] e] & tick & occ & Hrefresh & Hjudge).
  apply judge_Stop_nil in Hjudge as (-> & Hres & Hcases). simpl in *.
  exists m, label. rewrite Hres. by split.
Qed.

End WaitLoop.

Lemma waitWith_nil format id (w : option (outcome (Resource.Waited RDS.snapshot)))
    (slept : list Z) :
  RDS.waitWith format id w = Some (Ret (None, slept)) →
  ∃ r, w = Some (Ret r) ∧ Resource.err r = None ∧ Resource.slept r = slept.
Proof.
  unfold RDS.waitWith. destruct w as [[r|]|]; simpl; try discriminate.
  destruct (Resource.err r) eqn:Herr; [discriminate|]. intros [= <-]. by exists r.
Qed.

Lemma refresh_status conn id n snap label :
  RDS.DBClusterEndpointStateRefreshFunc conn id n = Ret (snap, label, None) →
  label ≠ "destroyed" →
  ∃ r e rest,
    RDS.DescribeDBClusterEndpoints conn n id = (Some r, None)
    ∧ RDS.DBClusterEndpoints r = Some (Some e :: rest)
    ∧ RDS.Status e = Some label.
Proof.
  unfold RDS.DBClusterEndpointStateRefreshFunc.
  destruct (RDS.DescribeDBClusterEndpoints conn n id) as [resp [e|]].
  { destruct (ErrMessageContains _ _ _); [intros [= _ <-] Hne; by destruct Hne|].
    destruct (match resp with Some r => _ | None => false end);
      [intros [= _ <-] Hne; by destruct Hne|discriminate]. }
  destruct resp as [r|]; [|intros [= _ <-] Hne; by destruct Hne].
  destruct (_ || _); [intros [= _ <-] Hne; by destruct Hne|].
  destruct (RDS.DBClusterEndpoints r) as [[|[e|] rest]|] eqn:Hlist;
    try discriminate.
  unfold index. simpl. destruct (RDS.Status e) as [status|] eqn:Hstatus;
    [|discriminate]. simpl.
  intros [= _ <-] _. by exists r, e, rest.
Qed.

(** X20. The waits succeed only on what they wait for. When the delete of the
    RDS cluster endpoint returns nil, [DeleteDBClusterEndpoint] has succeeded
    and some poll of the refresh function has returned "destroyed"; when the
    wait for availability returns nil, some describe call has returned a list
    whose first endpoint has the status "available". *)
Theorem cluster_endpoint_waits_succeed_on_target :
  (∀ fuel d conn slept,
      RDS.resourceAwsRDSClusterEndpointDelete fuel d conn = Some (Ret (None, slept)) →
      RDS.DeleteDBClusterEndpoint conn (Schema.Id d) = None
      ∧ ∃ n snap,
          RDS.DBClusterEndpointStateRefreshFunc conn (Schema.Id d) n
          = Ret (Some snap, "destroyed", None))
  ∧ (∀ fuel timeout id conn slept,
      RDS.resourceAwsRDSClusterEndpointWaitForAvailable fuel timeout id conn
      = Some (Ret (None, slept)) →
      ∃ n r e rest,
        RDS.DescribeDBClusterEndpoints conn n id = (Some r, None)
        ∧ RDS.DBClusterEndpoints r = Some (Some e :: rest)
        ∧ RDS.Status e = Some "available").
Proof.
  split.
  - intros fuel d conn slept. unfold RDS.resourceAwsRDSClusterEndpointDelete.
    destruct (RDS.DeleteDBClusterEndpoint conn (Schema.Id d)); [discriminate|].
    intros Hwait. split; [done|].
    apply waitWith_nil in Hwait as (w & Hw & Herr & _).
    destruct (WaitForState_success _ _ _ Hw Herr) as (n & label & Hrefresh & Hcases).
    destruct Hcases as [[_ [=]]|[[snap Hsnap] Hin]].
    simpl in Hrefresh, Hin. rewrite Hsnap in Hrefresh.
    apply list_elem_of_singleton in Hin as ->. eauto.
  - intros fuel timeout id conn slept Hwait.
    apply waitWith_nil in Hwait as (w & Hw & Herr & _).
    destruct (WaitForState_success _ _ _ Hw Herr) as (n & label & Hrefresh & Hcases).
    destruct Hcases as [[_ [=]]|[_ Hin]].
    simpl in Hrefresh, Hin. apply list_elem_of_singleton in Hin as ->.
    exists n. by apply (refresh_status conn id n (Resource.result w)).
Qed.

Lemma cluster_endpoint_waits_succeed_on_target_witness :
  ∃ n snap,
    RDS.DBClusterEndpointStateRefreshFunc (rdsDeleting 1) "ep" n
    = Ret (Some snap, "destroyed", None).
Proof.
  apply (proj1 cluster_endpoint_waits_succeed_on_target 2 (fresh "ep") (rdsDeleting 1)
           [5 * Second; 3 * Second]%Z).
  vm_compute. reflexivity.
Defined.

Section Backoff.
Import Resource.
Context {T : Type}.
Variable conf : StateChangeConf T.

Hypothesis no_poll_interval : PollInterval conf = 0%Z.
Hypothesis min_timeout : (0 < MinTimeout conf ≤ 10 * Second)%Z.
Hypothesis has_target : Target conf ≠ [].

Lemma nextWait_bounds (wait occ : Z) :
  (0 ≤ wait)%Z →
  (MinTimeout conf ≤ nextWait conf wait occ ≤ 10 * Second)%Z.
Proof.
  intros Hwait. unfold nextWait. rewrite no_poll_interval. simpl.
  set (w := if (occ =? 0)%Z then (wait * 2)%Z else wait).
  destruct (Z.ltb_spec w (MinTimeout conf)); [lia|].
  destruct (Z.ltb_spec (10 * Second) w); lia.
Qed.

Lemma judge_Again_backoff (r : RefreshResult T) (notfoundTick occ notfoundTick' occ' : Z)
    (backoff : bool) :
  judge conf r notfoundTick occ = Again notfoundTick' occ' backoff → backoff = true.
Proof.
  destruct r as [[res label] e]. unfold judge. destruct e; [discriminate|].
  destruct res as [snap|].
  - destruct (scanTarget _ _ _ _ _) as [[found o] done]. destruct done; [discriminate|].
    destruct (scanPending _ _ _ _) as [found' o']. destruct (_ && _); [discriminate|].
    by intros [= _ _ <-].
  - destruct (Nat.eqb_spec (length (Target conf)) 0) as [Hlen|_].
    { destruct (Target conf); [done|discriminate]. }
    destruct (_ <? _)%Z; [discriminate|]. by intros [= _ _ <-].
Qed.

Lemma total_app (l k : list Z) : total (l ++ k) = (total l + total k)%Z.
Proof. unfold total. induction l as [|x l IH]; simpl; lia. Qed.

(** What the loop adds to the log: waits between [MinTimeout] and ten
    seconds, which end before the deadline. *)
Lemma refreshLoop_schedule fuel n clock wait notfoundTick occ lastState log w :
  wait = 0%Z ∨ (MinTimeout conf ≤ wait ≤ 10 * Second)%Z →
  refreshLoop fuel conf n clock wait notfoundTick occ lastState log = Some (Ret w) →
  ∃ more,
    slept w = log ++ more
    ∧ Forall (λ s, MinTimeout conf ≤ s ≤ 10 * Second)%Z more
    ∧ (more = [] ∨ clock + total more < Timeout conf)%Z.
Proof.
  revert n clock wait notfoundTick occ lastState log.
  induction fuel as [|fuel IH]; intros n clock wait notfoundTick occ lastState log
    Hwait; simpl; [discriminate|].
  destruct (Z.leb_spec (Timeout conf) (clock + wait)) as [|Hlt].
  { intros [= <-]. exists []. simpl. rewrite app_nil_r. by split_and!; [|constructor|left]. }
  assert (∃ step, sleep wait log = log ++ step
                  ∧ Forall (λ s, MinTimeout conf ≤ s ≤ 10 * Second)%Z step
                  ∧ total step = wait) as (step & -> & Hstep & Htotal).
  { unfold sleep. destruct Hwait as [->|Hwait].
    - exists []. simpl. by rewrite app_nil_r.
    - destruct (Z.ltb_spec 0 wait); [|lia]. exists [wait]. split_and!; [done| |].
      + constructor; [lia|constructor].
      + unfold total. simpl. lia. }
  destruct (Refresh conf n) as [r|]; [|discriminate].
  destruct (judge conf r notfoundTick occ) as [res e|tick' occ' backoff] eqn:Hjudge.
  - intros [= <-]. simpl. exists step. split_and!; [done|done|]. right. lia.
  - apply judge_Again_backoff in Hjudge as ->. intros Hloop.
    apply IH in Hloop as (more & -> & Hmore & Hend).
    + exists (step ++ more). rewrite app_assoc. split_and!; [done| |].
      * by apply Forall_app.
      * right. rewrite total_app. destruct Hend as [->|]; simpl; unfold total in *;
          simpl; lia.
    + right. apply nextWait_bounds. destruct (wait =? 0)%Z; [done|]. lia.
Qed.

(** Enough fuel for the deadline: the loop ends. It returns, unless the
    refresh function panics at one of the polls. *)
Lemma refreshLoop_ends fuel n clock wait notfoundTick occ lastState log :
  wait = 0%Z ∨ (MinTimeout conf ≤ wait)%Z →
  (Timeout conf - clock - wait ≤ MinTimeout conf * Z.of_nat fuel)%Z →
  let run := refreshLoop (S fuel) conf n clock wait notfoundTick occ lastState log in
  (∃ w, run = Some (Ret w) ∧ (polls w ≤ S (n + fuel))%nat)
  ∨ (run = Some Panic ∧ ∃ k, (n ≤ k ≤ n + fuel)%nat ∧ Refresh conf k = Panic).
Proof.
  revert n clock wait notfoundTick occ lastState log.
  induction fuel as [|fuel IH]; intros n clock wait notfoundTick occ lastState log
    Hwait Hfuel.
  - simpl. destruct (Z.leb_spec (Timeout conf) (clock + wait)); [|lia].
    left. eexists. split; [reflexivity|]. simpl. lia.
  - cbn zeta. cbn [refreshLoop].
    destruct (Z.leb_spec (Timeout conf) (clock + wait)) as [|Hlt].
    { left. eexists. split; [reflexivity|]. simpl. lia. }
    destruct (Refresh conf n) as [r|] eqn:Hrefresh.
    2:{ right. split; [reflexivity|]. exists n. split; [lia|done]. }
    destruct (judge conf r notfoundTick occ) as [res e|tick' occ' backoff] eqn:Hjudge.
    { left. eexists. split; [reflexivity|]. simpl. lia. }
    apply judge_Again_backoff in Hjudge as ->.
    assert (0 ≤ (if (wait =? 0)%Z then 100 * Millisecond else wait))%Z as Hadj
      by (destruct (wait =? 0)%Z; [done|lia]).
    pose proof (nextWait_bounds _ occ' Hadj) as Hnext.
    destruct (IH (S n) (clock + wait)%Z
                (nextWait conf (if (wait =? 0)%Z then (100 * Millisecond)%Z else wait)
                   occ')
                tick' occ' (r.1.2) (sleep wait log))
      as [(w & Hw & Hpolls)|(Hpanic & k & Hk & Hrefresh')]; [right; lia|lia| |].
    + left. exists w. split; [exact Hw|lia].
    + right. split; [exact Hpanic|]. exists k. split; [lia|done].
Qed.

End Backoff.

Lemma waitWith_slept format id (w : option (outcome (Resource.Waited RDS.snapshot)))
    (e : option error) (slept : list Z) :
  RDS.waitWith format id w = Some (Ret (e, slept)) →
  ∃ r, w = Some (Ret r) ∧ Resource.slept r = slept.
Proof.
  unfold RDS.waitWith. destruct w as [[r|]|]; simpl; try discriminate.
  intros [= _ <-]. by exists r.
Qed.

Lemma cluster_endpoint_conf_schedule fuel (conf : Resource.StateChangeConf RDS.snapshot) w :
  Resource.PollInterval conf = 0%Z →
  Resource.MinTimeout conf = (3 * Second)%Z →
  Resource.Delay conf = (5 * Second)%Z →
  Resource.Target conf ≠ [] →
  Resource.WaitForState fuel conf = Some (Ret w) →
  (Resource.slept w = [] ∧ (Resource.Timeout conf ≤ 5 * Second)%Z)
  ∨ ∃ more,
      Resource.slept w = (5 * Second)%Z :: more
      ∧ Forall (λ s, 3 * Second ≤ s ≤ 10 * Second)%Z more
      ∧ (total (Resource.slept w) < Resource.Timeout conf)%Z.
Proof.
  intros Hpoll Hmin Hdelay Htarget. unfold Resource.WaitForState. simpl.
  rewrite Hdelay.
  destruct (Z.leb_spec (Resource.Timeout conf) (Z.max 0 (5 * Second))) as [Hle|Hlt].
  { intros [= <-]. left. split; [done|]. exact Hle. }
  intros Hloop. right.
  apply (refreshLoop_schedule (Resource.withDefaults conf)) in Hloop
    as (more & Hslept & Hmore & Hend); simpl; try done.
  - exists more. cbn [Resource.MinTimeout Resource.withDefaults] in Hmore.
    rewrite Hmin in Hmore. split_and!; [done|done|].
    rewrite Hslept. change (Resource.sleep (5 * Second) []) with [(5 * Second)%Z].
    rewrite total_app. destruct Hend as [->|Hend]; unfold total in *; simpl in *; lia.
  - rewrite Hmin. done.
  - by left.
Qed.

Lemma waitWith_ends format id (w : option (outcome (Resource.Waited RDS.snapshot)))
    (bound : nat) (panics : Prop) :
  (∃ r, w = Some (Ret r) ∧ (Resource.polls r ≤ bound)%nat) ∨ (w = Some Panic ∧ panics) →
  (∃ e slept, RDS.waitWith format id w = Some (Ret (e, slept)))
  ∨ (RDS.waitWith format id w = Some Panic ∧ panics).
Proof.
  intros [(r & -> & _)|[-> Hpanics]].
  - left. simpl. by eexists _, _.
  - by right.
Qed.

Lemma cluster_endpoint_conf_ends fuel (conf : Resource.StateChangeConf RDS.snapshot) :
  Resource.PollInterval conf = 0%Z →
  Resource.MinTimeout conf = (3 * Second)%Z →
  Resource.Delay conf = (5 * Second)%Z →
  Resource.Target conf ≠ [] →
  (Resource.Timeout conf ≤ 5 * Second + 3 * Second * Z.of_nat fuel)%Z →
  (∃ w, Resource.WaitForState (S fuel) conf = Some (Ret w)
        ∧ (Resource.polls w ≤ S fuel)%nat)
  ∨ (Resource.WaitForState (S fuel) conf = Some Panic
     ∧ ∃ k, (k ≤ fuel)%nat ∧ Resource.Refresh conf k = Panic).
Proof.
  intros Hpoll Hmin Hdelay Htarget Hfuel. unfold Resource.WaitForState.
  cbn [Resource.Timeout Resource.Delay Resource.withDefaults].
  rewrite Hdelay.
  destruct (Z.leb_spec (Resource.Timeout conf) (Z.max 0 (5 * Second))).
  { left. eexists. split; [reflexivity|]. simpl. lia. }
  destruct (refreshLoop_ends (Resource.withDefaults conf) Hpoll
              ltac:(simpl; rewrite Hmin; done) Htarget
              fuel 0 (Z.max 0 (5 * Second)) 0 0 0 EmptyString
              (Resource.sleep (5 * Second) []))
    as [(w & Hw & Hpolls)|(Hpanic & k & Hk & Hrefresh)].
  - by left.
  - simpl. rewrite Hmin. change (Z.max 0 (5 * Second)) with (5 * Second)%Z. lia.
  - left. exists w. split; [exact Hw|exact Hpolls].
  - right. split; [exact Hpanic|]. exists k. split; [lia|exact Hrefresh].
Qed.

(** X21. The waits of the RDS cluster endpoint end: after the delay of 5
    seconds every wait between polls takes at least 3 seconds, so that
    [1 + fuel] polls are enough for any timeout up to [5 + 3 * fuel] seconds.
    The wait then returns, nil or an error, unless the refresh function has
    panicked at one of these polls, in which case the wait panics: it never
    is left without a result. *)
Theorem cluster_endpoint_waits_return
    (fuel : nat) (timeout : Z) (id : string) (conn : RDS.Conn) :
  (timeout ≤ 5 * Second + 3 * Second * Z.of_nat fuel)%Z →
  let refreshPanics :=
    ∃ k, (k ≤ fuel)%nat ∧ RDS.DBClusterEndpointStateRefreshFunc conn id k = Panic in
  let ends (wait : option (outcome (option error * list Z))) :=
    (∃ e slept, wait = Some (Ret (e, slept)))
    ∨ (wait = Some Panic ∧ refreshPanics) in
  ends (RDS.resourceAwsRDSClusterEndpointWaitForDestroy (S fuel) timeout id conn)
  ∧ ends (RDS.resourceAwsRDSClusterEndpointWaitForAvailable (S fuel) timeout id conn).
Proof.
  intros Hfuel refreshPanics ends. subst ends. split.
  - unfold RDS.resourceAwsRDSClusterEndpointWaitForDestroy.
    apply (waitWith_ends _ _ _ (S fuel)).
    by apply (cluster_endpoint_conf_ends fuel (RDS.destroyStateConf timeout id conn)).
  - unfold RDS.resourceAwsRDSClusterEndpointWaitForAvailable.
    apply (waitWith_ends _ _ _ (S fuel)).
    by apply (cluster_endpoint_conf_ends fuel (RDS.availableStateConf timeout id conn)).
Qed.

Lemma cluster_endpoint_waits_return_witness :
  ∃ e slept,
    RDS.resourceAwsRDSClusterEndpointWaitForAvailable 3 (10 * Second) "ep"
      (rdsCreating 9)
    = Some (Ret (e, slept)).
Proof.
  destruct (proj2 (cluster_endpoint_waits_return 2 (10 * Second) "ep" (rdsCreating 9)
                     ltac:(vm_compute; discriminate)))
    as [Hreturns|[_ (k & _ & Hpanic)]].
  - exact Hreturns.
  - discriminate Hpanic.
Defined.

(** X22. The sleeps of the RDS cluster endpoint waits: none when the timeout
    is at most the delay of 5 seconds; otherwise 5 seconds first, then between
    3 and 10 seconds after each poll, and less than the timeout in all. *)
Theorem cluster_endpoint_wait_schedule
    (fuel : nat) (timeout : Z) (id : string) (conn : RDS.Conn)
    (e : option error) (slept : list Z) :
  RDS.resourceAwsRDSClusterEndpointWaitForDestroy fuel timeout id conn
  = Some (Ret (e, slept))
  ∨ RDS.resourceAwsRDSClusterEndpointWaitForAvailable fuel timeout id conn
    = Some (Ret (e, slept)) →
  (slept = [] ∧ (timeout ≤ 5 * Second)%Z)
  ∨ ∃ more,
      slept = (5 * Second)%Z :: more
      ∧ Forall (λ s, 3 * Second ≤ s ≤ 10 * Second)%Z more
      ∧ (total slept < timeout)%Z.
Proof.
  intros [Hwait|Hwait]; apply waitWith_slept in Hwait as (w & Hw & <-);
    by apply cluster_endpoint_conf_schedule in Hw.
Qed.

Lemma cluster_endpoint_wait_schedule_witness :
  ∃ more,
    [5 * Second; 3 * Second; 6 * Second]%Z = (5 * Second)%Z :: more
    ∧ Forall (λ s, 3 * Second ≤ s ≤ 10 * Second)%Z more
    ∧ (total [5 * Second; 3 * Second; 6 * Second] < 30 * Minute)%Z.
Proof.
  destruct (cluster_endpoint_wait_schedule 3 (30 * Minute) "ep" (rdsCreating 2) None
              [5 * Second; 3 * Second; 6 * Second]%Z) as [[Hnil _]|Hmore].
  - right. vm_compute. reflexivity.
  - discriminate Hnil.
  - exact Hmore.
Defined.

(** ** The EMR security configuration, continued *)

(** X23. The create of the EMR security configuration sends the configured
    name when there is one, whatever the name prefix, and otherwise a name
    generated from the configured prefix or from "tf-emr-sc-". A failure of
    the call is returned as it is, the resource data untouched. When the
    create returns nil, the call has returned a response, and either the
    describe call under the returned name has answered and the resource ID is
    that name, with name and configuration as described, or it has reported
    the configuration as gone and the resource ID is empty. *)
Theorem emr_security_configuration_create
    (Time : Type) (formatRFC3339 : option Time → string)
    (PrefixedUniqueId : string → string)
    (d : Schema.ResourceData) (conn : EMR.Conn Time) :
  let name := EMR.emrSCName PrefixedUniqueId d in
  let create :=
    EMR.resourceAwsEmrSecurityConfigurationCreate Time formatRFC3339 PrefixedUniqueId
      d conn in
  (SchemaData.Get d "name" ≠ "" → name = SchemaData.Get d "name")
  ∧ (SchemaData.Get d "name" = "" →
     name = PrefixedUniqueId
              (if String.eqb (SchemaData.Get d "name_prefix") "" then "tf-emr-sc-"
               else SchemaData.Get d "name_prefix"))
  ∧ (∀ resp e,
      EMR.CreateSecurityConfiguration Time conn name (SchemaData.Get d "configuration")
      = (resp, Some e) →
      create = Ret (d, Some e))
  ∧ (∀ d', create = Ret (d', None) →
      ∃ created,
        EMR.CreateSecurityConfiguration Time conn name (SchemaData.Get d "configuration")
        = (Some created, None)
        ∧ ((∃ r,
              EMR.DescribeSecurityConfiguration Time conn
                (StringValue (EMR.CreatedName Time created))
              = (Some r, None)
              ∧ Schema.Id d' = StringValue (EMR.CreatedName Time created)
              ∧ SchemaData.Get d' "name" = StringValue (EMR.Name Time r)
              ∧ SchemaData.Get d' "configuration"
                = StringValue (EMR.SecurityConfiguration Time r))
           ∨ (∃ resp e,
                EMR.DescribeSecurityConfiguration Time conn
                  (StringValue (EMR.CreatedName Time created))
                = (resp, Some e)
                ∧ Schema.Id d' = ""))).
Proof.
  intros name create. subst name create. split_and!.
  - intros Hname. unfold EMR.emrSCName, SchemaData.GetOk.
    by destruct (String.eqb_spec (SchemaData.Get d "name") "").
  - intros Hname. unfold EMR.emrSCName, SchemaData.GetOk. rewrite Hname. simpl.
    by destruct (String.eqb (SchemaData.Get d "name_prefix") "").
  - intros resp e Hcall. unfold EMR.resourceAwsEmrSecurityConfigurationCreate.
    by rewrite Hcall.
  - intros d'. unfold EMR.resourceAwsEmrSecurityConfigurationCreate.
    destruct (EMR.CreateSecurityConfiguration Time conn _ _) as [resp [e|]];
      [discriminate|].
    destruct resp as [created|]; [|discriminate]. simpl.
    unfold EMR.resourceAwsEmrSecurityConfigurationRead. simpl.
    destruct (EMR.DescribeSecurityConfiguration Time conn _) as [resp [e|]] eqn:Hdescribe.
    + destruct (ErrMessageContains _ _ _); [|discriminate].
      intros [= <-]. exists created. split; [done|]. right. by exists resp, e.
    + destruct resp as [r|]; [|discriminate]. simpl. intros [= <-].
      exists created. split; [done|]. left. exists r. split_and!; [done| | |].
      * by rewrite !Id_SetPtr.
      * rewrite Get_SetPtr_ne by done. by rewrite Get_SetPtr_eq.
      * by rewrite Get_SetPtr_eq.
Qed.
